(** * gatech-enrollment: the client's record codec and polling loop

    A shallow embedding of the client API service (the CSV record codec
    [recordsToCSV] / [parseCSVToRecords] / [parseCSVLine] and the polling
    client [fetchEnrollmentData], in its two revisions) and of the queue
    settings of the infrastructure stack, with the properties the
    specification states about them. *)

From Stdlib Require Import String Ascii.
From Stdlib Require Import List NArith ZArith Bool Arith Lia Permutation.
From Stdlib Require QArith.
From Stdlib Require DecimalNat.
Import ListNotations.

(** ** JavaScript strings

    A JavaScript string is a sequence of UTF-16 code units; a code unit is
    modelled by its number.  [lit] turns a literal of the development into
    such a sequence. *)

Definition jsstring := list N.

Definition lit (s : String.string) : jsstring :=
  map N_of_ascii (list_ascii_of_string s).

Definition COMMA : N := 44.
Definition QUOTE : N := 34.
Definition LF : N := 10.

(** The code units that [String.prototype.trim] strips: WhiteSpace and
    LineTerminator of the language specification. *)
Definition isWhiteSpace (c : N) : bool :=
  existsb (N.eqb c)
    [9; 10; 11; 12; 13; 32; 160; 5760; 8192; 8193; 8194; 8195; 8196; 8197;
     8198; 8199; 8200; 8201; 8202; 8232; 8233; 8239; 8287; 12288; 65279]%N.

Fixpoint trimStart (s : jsstring) : jsstring :=
  match s with
  | [] => []
  | c :: r => if isWhiteSpace c then trimStart r else s
  end.

Definition trimEnd (s : jsstring) : jsstring := rev (trimStart (rev s)).

Definition trim (s : jsstring) : jsstring := trimEnd (trimStart s).

(** [s.includes(c)] for a one-unit needle. *)
Definition includes (c : N) (s : jsstring) : bool := existsb (N.eqb c) s.

(** [s.split(c)] for a one-unit separator: the empty string splits into one
    empty piece. *)
Fixpoint split (c : N) (s : jsstring) : list jsstring :=
  match s with
  | [] => [[]]
  | x :: r =>
      if N.eqb x c then [] :: split c r
      else match split c r with
           | [] => [[x]]
           | h :: t => (x :: h) :: t
           end
  end.

(** [parts.join(sep)] on strings. *)
Fixpoint join (sep : jsstring) (parts : list jsstring) : jsstring :=
  match parts with
  | [] => []
  | x :: r =>
      match r with
      | [] => x
      | _ :: _ => x ++ sep ++ join sep r
      end
  end.

(** The global replace of [value.replace] in the encoder: every quote
    character is doubled. *)
Fixpoint doubleQuotes (s : jsstring) : jsstring :=
  match s with
  | [] => []
  | c :: r => if N.eqb c QUOTE then QUOTE :: QUOTE :: doubleQuotes r
              else c :: doubleQuotes r
  end.

Definition isEmpty (s : jsstring) : bool :=
  match s with [] => true | _ :: _ => false end.

(** ** parseCSVLine

    The loop over [line] with its three variables; [line[i + 1]] is the
    head of the remaining input, and [i++] inside the body drops it. *)
Fixpoint parseCSVLine_from (line : jsstring) (result : list jsstring)
         (current : jsstring) (inQuotes : bool) : list jsstring :=
  match line with
  | [] => result ++ [current]
  | char :: rest =>
      if N.eqb char QUOTE then
        match rest with
        | next :: rest' =>
            if inQuotes && N.eqb next QUOTE
            then parseCSVLine_from rest' result (current ++ [QUOTE]) inQuotes
            else parseCSVLine_from rest result current (negb inQuotes)
        | [] => parseCSVLine_from rest result current (negb inQuotes)
        end
      else if N.eqb char COMMA && negb inQuotes
      then parseCSVLine_from rest (result ++ [current]) [] inQuotes
      else parseCSVLine_from rest result (current ++ [char]) inQuotes
  end.

Definition parseCSVLine (line : jsstring) : list jsstring :=
  parseCSVLine_from line [] [] false.

(** The encoder's rule for one string cell (the callback of [headers.map]
    in [recordsToCSV], on a string value). *)
Definition quoteField (value : jsstring) : jsstring :=
  if includes COMMA value || includes QUOTE value
  then [QUOTE] ++ doubleQuotes value ++ [QUOTE]
  else value.

(** ** Values and objects

    A JavaScript number is a binary64 float; the codec touches numbers only
    through [parseFloat] and the number-to-string conversion of
    [Array.prototype.join], so the number type and these two operations are
    the interface [JsNumber].  [NaN] is a value of [number]. *)
Class JsNumber : Type := {
  number : Type;
  parseFloat : jsstring -> number;
  numberToString : number -> jsstring
}.

Fixpoint str_eqb (a b : jsstring) : bool :=
  match a, b with
  | [], [] => true
  | x :: a', y :: b' => N.eqb x y && str_eqb a' b'
  | _, _ => false
  end.

(** The members every plain object inherits from [Object.prototype]: the
    built-in functions and the accessor [__proto__].  A read [o[k]] of a
    property that [o] does not have itself finds them. *)
Definition objectPrototypeNames : list jsstring :=
  [ lit "constructor"; lit "hasOwnProperty"; lit "isPrototypeOf";
    lit "propertyIsEnumerable"; lit "toLocaleString"; lit "toString";
    lit "valueOf"; lit "__proto__"; lit "__defineGetter__";
    lit "__defineSetter__"; lit "__lookupGetter__"; lit "__lookupSetter__" ].

Definition isInherited (k : jsstring) : bool :=
  existsb (str_eqb k) objectPrototypeNames.

(** The text an inherited member converts to is left to the engine (the
    source text of a built-in function; [[object Object]] for the
    prototype that [__proto__] reads): [memberText name] is
    [String(Object.prototype[name])]. *)
Class JsHost : Type := {
  memberText : jsstring -> jsstring
}.

Section Values.
Context {NumOps : JsNumber}.

(** The values the codec meets: [VMember name] is the member [name] of
    [Object.prototype], an object that is neither a string nor nullish. *)
Inductive jsvalue : Type :=
| VUndefined
| VNull
| VString (s : jsstring)
| VNumber (n : number)
| VMember (name : jsstring).

(** An object is its own string-keyed properties, in the order they were
    created. *)
Definition object : Type := list (jsstring * jsvalue).

End Values.

Definition isDigit (c : N) : bool := N.leb 48 c && N.leb c 57.

(** The number a key stands for when it is an array index: a canonical
    numeric string (no leading zero) with a value below 2^32 - 1. *)
Definition arrayIndex (k : jsstring) : option N :=
  match k with
  | [] => None
  | c :: r =>
      if isDigit c && forallb isDigit r
         && (negb (N.eqb c 48) || isEmpty r)
      then
        let v := fold_left (fun a d => (10 * a + (d - 48))%N) k 0%N in
        if N.ltb v 4294967295 then Some v else None
      else None
  end.

Fixpoint insertIndex (i : N) (k : jsstring) (l : list (N * jsstring))
  : list (N * jsstring) :=
  match l with
  | [] => [(i, k)]
  | (j, k') :: r =>
      if N.leb i j then (i, k) :: l else (j, k') :: insertIndex i k r
  end.

(** The order in which the own keys of an object are enumerated: the
    array indices in ascending numeric order, then the other names in the
    order of their creation. *)
Definition orderKeys (names : list jsstring) : list jsstring :=
  map snd
      (fold_right (fun k acc => match arrayIndex k with
                                | Some i => insertIndex i k acc
                                | None => acc
                                end) [] names)
    ++ filter (fun k => match arrayIndex k with
                        | Some _ => false
                        | None => true
                        end) names.

Section Codec.
Context {NumOps : JsNumber} {Host : JsHost}.

(** The names of the own properties, in the order of their creation. *)
Definition ownNames (o : object) : list jsstring := map fst o.

(** [Object.keys(o)]. *)
Definition keys (o : object) : list jsstring := orderKeys (ownNames o).

Fixpoint getOwn (o : object) (k : jsstring) : option jsvalue :=
  match o with
  | [] => None
  | (k', v) :: r => if str_eqb k' k then Some v else getOwn r k
  end.

(** [o[k]] on a plain object: the own property, else the member inherited
    from [Object.prototype], else [undefined]. *)
Definition get (o : object) (k : jsstring) : jsvalue :=
  match getOwn o k with
  | Some v => v
  | None => if isInherited k then VMember k else VUndefined
  end.

(** [record[fieldName] = v]: an existing property keeps its place, a new
    one is added last.  (An assignment to [__proto__] would run the
    inherited setter instead; the decoder never assigns to that key, since
    the header [__proto__] is mapped to the prototype itself, whose
    property key is its text.) *)
Fixpoint set (o : object) (k : jsstring) (v : jsvalue) : object :=
  match o with
  | [] => [(k, v)]
  | (k', v') :: r => if str_eqb k' k then (k', v) :: r
                     else (k', v') :: set r k v
  end.

(** *** recordsToCSV *)

(** One cell: the callback of [headers.map] followed by the conversion
    that [join] applies to the element.  A string with a comma or a quote
    is wrapped; [value ?? ''] turns [null] and [undefined] into the empty
    string; a number and an inherited member are converted by [join]. *)
Definition cell (v : jsvalue) : jsstring :=
  match v with
  | VString s => quoteField s
  | VNumber n => numberToString n
  | VNull => []
  | VUndefined => []
  | VMember name => memberText name
  end.

Definition csvRow (headers : list jsstring) (record : object) : jsstring :=
  join [COMMA] (map (fun header => cell (get record header)) headers).

(** The elements of [records] are objects, so the second guard, on a
    first element that is not one, never fires. *)
Definition recordsToCSV (records : list object) : jsstring :=
  match records with
  | [] => []
  | firstRecord :: _ =>
      let headers := keys firstRecord in
      let csvRows := join [COMMA] headers :: map (csvRow headers) records in
      join [LF] csvRows
  end.

(** *** parseCSVToRecords *)

(** The table is a plain object with a string under each label. *)
Definition headerMap : object :=
  [ (lit "Term", VString (lit "term"));
    (lit "Subject", VString (lit "subject"));
    (lit "Course", VString (lit "course"));
    (lit "CRN", VString (lit "crn"));
    (lit "Section", VString (lit "section"));
    (lit "Start Time", VString (lit "startTime"));
    (lit "End Time", VString (lit "endTime"));
    (lit "Days", VString (lit "days"));
    (lit "Building", VString (lit "building"));
    (lit "Room", VString (lit "room"));
    (lit "Primary Instructor(s)", VString (lit "primaryInstructors"));
    (lit "Additional Instructor(s)", VString (lit "additionalInstructors"));
    (lit "Enrollment Actual", VString (lit "enrollmentActual"));
    (lit "Enrollment Maximum", VString (lit "enrollmentMaximum"));
    (lit "Enrollment Seats Available",
     VString (lit "enrollmentSeatsAvailable"));
    (lit "Waitlist Capacity", VString (lit "waitlistCapacity"));
    (lit "Waitlist Actual", VString (lit "waitlistActual"));
    (lit "Waitlist Seats Available", VString (lit "waitlistSeatsAvailable"));
    (lit "Building Code", VString (lit "buildingCode"));
    (lit "Room Capacity", VString (lit "roomCapacity"));
    (lit "Loss", VString (lit "loss")) ].

(** [headerMap[header] || header]: the left operand is truthy when the
    read finds a name of the table (all are non-empty strings) or a member
    inherited from [Object.prototype] (an object); otherwise the read is
    [undefined] and the header itself is taken. *)
Definition fieldNameOf (header : jsstring) : jsvalue :=
  match get headerMap header with
  | VString (c :: name) => VString (c :: name)
  | VMember name => VMember name
  | _ => VString header
  end.

(** The property key a value used as a key stands for. *)
Definition toPropertyKey (v : jsvalue) : jsstring :=
  match v with
  | VString s => s
  | VNumber n => numberToString n
  | VMember name => memberText name
  | VNull => lit "null"
  | VUndefined => lit "undefined"
  end.

Definition numericFields : list jsstring :=
  [ lit "enrollmentActual"; lit "enrollmentMaximum";
    lit "enrollmentSeatsAvailable"; lit "waitlistCapacity";
    lit "waitlistActual"; lit "waitlistSeatsAvailable";
    lit "roomCapacity"; lit "loss" ].

(** [numericFields.includes(fieldName)]: only a string equals one of the
    names. *)
Definition isNumericField (fieldName : jsvalue) : bool :=
  match fieldName with
  | VString s => existsb (str_eqb s) numericFields
  | _ => false
  end.

(** The assignment inside [headers.forEach]; [value] is
    [values[index]?.trim()], [None] when the index is out of range. *)
Definition decodeValue (fieldName : jsvalue) (value : option jsstring)
  : jsvalue :=
  if isNumericField fieldName then
    match value with
    | Some v => if negb (isEmpty v) then VNumber (parseFloat v) else VNull
    | None => VNull
    end
  else
    match value with
    | Some v => VString v
    | None => VString []
    end.

Fixpoint forEachHeader (headers : list jsstring) (index : nat)
         (values : list jsstring) (record : object) : object :=
  match headers with
  | [] => record
  | header :: rest =>
      let value := option_map trim (nth_error values index) in
      let fieldName := fieldNameOf header in
      forEachHeader rest (S index) values
        (set record (toPropertyKey fieldName) (decodeValue fieldName value))
  end.

Definition decodeRow (headers values : list jsstring) : object :=
  forEachHeader headers 0 values [].

(** The loop over [lines[1..]]: an empty line and a line whose column
    count differs from the header's are passed over. *)
Fixpoint rowsLoop (headers : list jsstring) (lines : list jsstring)
         (records : list object) : list object :=
  match lines with
  | [] => records
  | line :: rest =>
      if isEmpty line then rowsLoop headers rest records
      else
        let values := parseCSVLine line in
        if negb (Nat.eqb (length values) (length headers))
        then rowsLoop headers rest records
        else rowsLoop headers rest (records ++ [decodeRow headers values])
  end.

Definition parseCSVToRecords (csvData : jsstring) : list object :=
  let lines := split LF (trim csvData) in
  match lines with
  | [] => []
  | line0 :: dataLines =>
      if Nat.ltb (length lines) 2 || isEmpty line0 then []
      else
        let headers := map trim (split COMMA line0) in
        rowsLoop headers dataLines []
  end.

(** *** EnrollmentRecord

    The record type of the client ([types.ts], reproduced in the README):
    twelve text fields, then the numeric fields, which may be [null]. *)
Record EnrollmentRecord : Type := {
  term : jsstring;
  subject : jsstring;
  course : jsstring;
  crn : jsstring;
  section : jsstring;
  startTime : jsstring;
  endTime : jsstring;
  days : jsstring;
  building : jsstring;
  room : jsstring;
  primaryInstructors : jsstring;
  additionalInstructors : jsstring;
  enrollmentActual : option number;
  enrollmentMaximum : option number;
  enrollmentSeatsAvailable : option number;
  waitlistCapacity : option number;
  waitlistActual : option number;
  waitlistSeatsAvailable : option number;
  buildingCode : jsstring;
  roomCapacity : option number;
  loss : option number
}.

Definition ofNullable (n : option number) : jsvalue :=
  match n with
  | Some x => VNumber x
  | None => VNull
  end.

(** The record as the object the functions receive, its properties in the
    order of the interface. *)
Definition toObject (r : EnrollmentRecord) : object :=
  [ (lit "term", VString (term r));
    (lit "subject", VString (subject r));
    (lit "course", VString (course r));
    (lit "crn", VString (crn r));
    (lit "section", VString (section r));
    (lit "startTime", VString (startTime r));
    (lit "endTime", VString (endTime r));
    (lit "days", VString (days r));
    (lit "building", VString (building r));
    (lit "room", VString (room r));
    (lit "primaryInstructors", VString (primaryInstructors r));
    (lit "additionalInstructors", VString (additionalInstructors r));
    (lit "enrollmentActual", ofNullable (enrollmentActual r));
    (lit "enrollmentMaximum", ofNullable (enrollmentMaximum r));
    (lit "enrollmentSeatsAvailable", ofNullable (enrollmentSeatsAvailable r));
    (lit "waitlistCapacity", ofNullable (waitlistCapacity r));
    (lit "waitlistActual", ofNullable (waitlistActual r));
    (lit "waitlistSeatsAvailable", ofNullable (waitlistSeatsAvailable r));
    (lit "buildingCode", VString (buildingCode r));
    (lit "roomCapacity", ofNullable (roomCapacity r));
    (lit "loss", ofNullable (loss r)) ].

End Codec.

(** ** The polling client

    An execution of [fetchEnrollmentData] is modelled by its observable
    trace (the calls of the progress callback, the network requests and the
    sleeps, in program order) and the way its promise settles.  The server
    is the record of what each request answers.  The callback is an
    observer: it returns without throwing.  A progress value is an
    integer. *)

Inductive JobStatus : Type := pending | processing | completed | failed.

Inductive Outcome (A : Type) : Type :=
| Resolved (a : A)
| Rejected (message : jsstring).
Arguments Resolved {A} a.
Arguments Rejected {A} message.

Inductive Event : Type :=
| OnProgress (progress : Z) (message : jsstring)
| SubmitJob
| Sleep (ms : nat)
| StatusRead (jobId : jsstring)
| Download (url : jsstring)
| ConsoleError (message : jsstring).

Inductive GroupData : Type := group_all | group_grouped | group_both.

Record Range : Type := { lower : Z; upper : Z }.

Record EnrollmentRequest : Type := {
  numTerms : Z;
  subjects : list jsstring;
  courseRanges : list Range;
  skipSummer : bool;
  oneFile : bool;
  groupData : GroupData
}.

Section Responses.
Context {NumOps : JsNumber}.

Record EnrollmentResponse : Type := {
  success : bool;
  data : list object;
  fileName : jsstring;
  message : option jsstring
}.

End Responses.

(** Truthiness of an optional string property: present and not empty. *)
Definition truthy (s : option jsstring) : bool :=
  match s with
  | Some (_ :: _) => true
  | _ => false
  end.

(** [a || b] on an optional string with a string default. *)
Definition orElse (s : option jsstring) (d : jsstring) : jsstring :=
  match s with
  | Some (c :: r) => c :: r
  | _ => d
  end.

Fixpoint uintToString (d : Decimal.uint) : jsstring :=
  match d with
  | Decimal.Nil => []
  | Decimal.D0 r => 48%N :: uintToString r
  | Decimal.D1 r => 49%N :: uintToString r
  | Decimal.D2 r => 50%N :: uintToString r
  | Decimal.D3 r => 51%N :: uintToString r
  | Decimal.D4 r => 52%N :: uintToString r
  | Decimal.D5 r => 53%N :: uintToString r
  | Decimal.D6 r => 54%N :: uintToString r
  | Decimal.D7 r => 55%N :: uintToString r
  | Decimal.D8 r => 56%N :: uintToString r
  | Decimal.D9 r => 57%N :: uintToString r
  end.

(** The decimal text a template literal gives a natural number. *)
Definition natToString (n : nat) : jsstring := uintToString (Nat.to_uint n).

Definition andThen {A : Type} (pre : list Event) (k : list Event * Outcome A)
  : list Event * Outcome A :=
  (pre ++ fst k, snd k).

(** The [catch] block of [fetchEnrollmentData]: log and rethrow. *)
Definition logged {A : Type} (k : list Event * Outcome A)
  : list Event * Outcome A :=
  match snd k with
  | Rejected e => (fst k ++ [ConsoleError e], Rejected e)
  | Resolved _ => k
  end.

Definition TIMEOUT_MESSAGE : jsstring :=
  lit "Request timed out. Please try again with fewer terms or a more specific filter.".

(** *** The revision that decodes CSV results (src/unnamed/part_001) *)
Module Part001.

Definition POLL_INTERVAL_MS : nat := 2000.
Definition MAX_POLL_ATTEMPTS : nat := 150.

(** Of the submit response only [job_id] is read. *)
Record JobSubmitResponse : Type := { job_id : option jsstring }.

Record JobStatusResponse : Type := {
  status : JobStatus;
  progress : option Z;
  csv_data : option jsstring;
  download_url : option jsstring;
  error_message : option jsstring
}.

(** What [fetch(download_url)] gives: [ok] and the body text. *)
Record CsvResponse : Type := { ok : bool; text : jsstring }.

(** [pollJobStatus n] is the result of the [n]-th status read of the
    execution, [n] counted from 1 like [attempts]. *)
Record Server : Type := {
  submitEnrollmentJob : EnrollmentRequest -> Outcome JobSubmitResponse;
  pollJobStatus : nat -> Outcome JobStatusResponse;
  fetchUrl : jsstring -> Outcome CsvResponse
}.

Section Client.
Context {NumOps : JsNumber} {Host : JsHost}.
Variable server : Server.
(** Whether the optional callback [onProgress] was passed. *)
Variable onProgress : bool.

Definition notify (progress : Z) (message : jsstring) : list Event :=
  if onProgress then [OnProgress progress message] else [].

Definition elapsedMessage (attempts : nat) : jsstring :=
  lit "Processing... (" ++ natToString (attempts * 2) ++ lit "s elapsed)".

(** [statusResponse.progress || 0], then 10 in place of 0. *)
Definition shownProgress (statusResponse : JobStatusResponse) : Z :=
  let progress := match progress statusResponse with
                  | Some p => p
                  | None => 0%Z
                  end in
  if Z.eqb progress 0 then 10%Z else progress.

Definition csvResult (csv : jsstring) (note : jsstring)
  : EnrollmentResponse :=
  {| success := true;
     data := parseCSVToRecords csv;
     fileName := lit "enrollment_data.csv";
     message := Some note |}.

(** The branch taken on status [completed]. *)
Definition onCompleted (statusResponse : JobStatusResponse)
  : list Event * Outcome EnrollmentResponse :=
  if truthy (csv_data statusResponse) then
    ([], Resolved (csvResult (orElse (csv_data statusResponse) [])
                             (lit "Data retrieved successfully")))
  else if truthy (download_url statusResponse) then
    let url := orElse (download_url statusResponse) [] in
    match fetchUrl server url with
    | Rejected e => ([Download url], Rejected e)
    | Resolved csvResponse =>
        if negb (ok csvResponse)
        then ([Download url], Rejected (lit "Failed to download CSV file"))
        else ([Download url],
              Resolved (csvResult (text csvResponse)
                                  (lit "Data downloaded successfully")))
    end
  else ([], Rejected (lit "Job completed but no data returned")).

(** The [while (attempts < maxAttempts)] loop; [remaining] is
    [maxAttempts - attempts], which the loop decreases. *)
Fixpoint pollLoop (jobId : jsstring) (remaining attempts : nat)
  : list Event * Outcome EnrollmentResponse :=
  match remaining with
  | O => ([], Rejected TIMEOUT_MESSAGE)
  | S remaining' =>
      let attempts := S attempts in
      match pollJobStatus server attempts with
      | Rejected e => ([Sleep POLL_INTERVAL_MS; StatusRead jobId], Rejected e)
      | Resolved statusResponse =>
          andThen
            ([Sleep POLL_INTERVAL_MS; StatusRead jobId]
               ++ notify (shownProgress statusResponse)
                         (elapsedMessage attempts))
            match status statusResponse with
            | completed =>
                andThen (notify 100 (lit "Complete!"))
                        (onCompleted statusResponse)
            | failed =>
                ([], Rejected (orElse (error_message statusResponse)
                                      (lit "Job failed")))
            | pending | processing => pollLoop jobId remaining' attempts
            end
      end
  end.

(** The body of [fetchEnrollmentData], with the bound of the loop as a
    parameter; the source fixes it to [MAX_POLL_ATTEMPTS]. *)
Definition fetchEnrollmentDataWith (maxAttempts : nat)
           (request : EnrollmentRequest)
  : list Event * Outcome EnrollmentResponse :=
  logged
    (andThen (notify 0 (lit "Submitting request...") ++ [SubmitJob])
       match submitEnrollmentJob server request with
       | Rejected e => ([], Rejected e)
       | Resolved submitResponse =>
           if negb (truthy (job_id submitResponse))
           then ([], Rejected (lit "No job ID returned from server"))
           else
             let jobId := orElse (job_id submitResponse) [] in
             andThen
               (notify 5 (lit "Request submitted. Processing enrollment data..."))
               (pollLoop jobId maxAttempts 0)
       end).

Definition fetchEnrollmentData (request : EnrollmentRequest)
  : list Event * Outcome EnrollmentResponse :=
  fetchEnrollmentDataWith MAX_POLL_ATTEMPTS request.

(** For the statements: the events of one pass of the loop whose status
    read returns [statusResponse], up to the test of the status, and the
    events before the loop. *)
Definition pass (jobId : jsstring) (replies : nat -> JobStatusResponse)
           (attempts : nat) : list Event :=
  [Sleep POLL_INTERVAL_MS; StatusRead jobId]
    ++ notify (shownProgress (replies attempts)) (elapsedMessage attempts).

Definition prologue : list Event :=
  notify 0 (lit "Submitting request...") ++ [SubmitJob]
    ++ notify 5 (lit "Request submitted. Processing enrollment data...").

End Client.
End Part001.

(** *** The revision with an inline result (src/unnamed/part_002) *)
Module Part002.

Definition POLL_INTERVAL_MS : nat := 2000.
Definition MAX_POLL_ATTEMPTS : nat := 150.

Section Client.
Context {NumOps : JsNumber}.

(** [embedded] is the response itself read as a result, present when it
    has both a [data] and a [success] property. *)
Record JobSubmitResponse : Type := {
  jobId : option jsstring;
  embedded : option EnrollmentResponse
}.

Record JobStatusResponse : Type := {
  status : JobStatus;
  progress : option Z;
  message : option jsstring;
  result : option EnrollmentResponse
}.

Record Server : Type := {
  submitEnrollmentJob : EnrollmentRequest -> Outcome JobSubmitResponse;
  pollJobStatus : nat -> Outcome JobStatusResponse
}.

Variable server : Server.
Variable onProgress : bool.

Definition notify (progress : Z) (message : jsstring) : list Event :=
  if onProgress then [OnProgress progress message] else [].

Definition elapsedMessage (attempts : nat) : jsstring :=
  lit "Processing... (" ++ natToString (attempts * 2) ++ lit "s elapsed)".

(** [statusResponse.progress ?? Math.min(10 + attempts * 2, 90)]. *)
Definition shownProgress (statusResponse : JobStatusResponse)
           (attempts : nat) : Z :=
  match progress statusResponse with
  | Some p => p
  | None => Z.min (10 + Z.of_nat attempts * 2) 90
  end.

Fixpoint pollLoop (id : jsstring) (remaining attempts : nat)
  : list Event * Outcome EnrollmentResponse :=
  match remaining with
  | O => ([], Rejected TIMEOUT_MESSAGE)
  | S remaining' =>
      let attempts := S attempts in
      match pollJobStatus server attempts with
      | Rejected e => ([Sleep POLL_INTERVAL_MS; StatusRead id], Rejected e)
      | Resolved statusResponse =>
          andThen
            ([Sleep POLL_INTERVAL_MS; StatusRead id]
               ++ notify (shownProgress statusResponse attempts)
                         (orElse (message statusResponse)
                                 (elapsedMessage attempts)))
            match status statusResponse with
            | completed =>
                andThen (notify 100 (lit "Complete!"))
                  match result statusResponse with
                  | Some r => ([], Resolved r)
                  | None =>
                      ([], Rejected (lit "Job completed but no result returned"))
                  end
            | failed =>
                ([], Rejected (orElse (message statusResponse)
                                      (lit "Job failed")))
            | pending | processing => pollLoop id remaining' attempts
            end
      end
  end.

(** The body of [fetchEnrollmentData], with the bound of the loop as a
    parameter; the source fixes it to [MAX_POLL_ATTEMPTS]. *)
Definition fetchEnrollmentDataWith (maxAttempts : nat)
           (request : EnrollmentRequest)
  : list Event * Outcome EnrollmentResponse :=
  logged
    (andThen (notify 0 (lit "Submitting request...") ++ [SubmitJob])
       match submitEnrollmentJob server request with
       | Rejected e => ([], Rejected e)
       | Resolved submitResponse =>
           match embedded submitResponse with
           | Some r => ([], Resolved r)
           | None =>
               if negb (truthy (jobId submitResponse))
               then ([], Rejected (lit "No job ID returned from server"))
               else
                 let id := orElse (jobId submitResponse) [] in
                 andThen
                   (notify 5
                      (lit "Request submitted. Processing enrollment data..."))
                   (pollLoop id maxAttempts 0)
           end
       end).

Definition fetchEnrollmentData (request : EnrollmentRequest)
  : list Event * Outcome EnrollmentResponse :=
  fetchEnrollmentDataWith MAX_POLL_ATTEMPTS request.

(** For the statements: the events of one pass of the loop whose status
    read returns [statusResponse], up to the test of the status, and the
    events before the loop. *)
Definition pass (id : jsstring) (replies : nat -> JobStatusResponse)
           (attempts : nat) : list Event :=
  [Sleep POLL_INTERVAL_MS; StatusRead id]
    ++ notify (shownProgress (replies attempts) attempts)
              (orElse (message (replies attempts)) (elapsedMessage attempts)).

Definition prologue : list Event :=
  notify 0 (lit "Submitting request...") ++ [SubmitJob]
    ++ notify 5 (lit "Request submitted. Processing enrollment data...").

End Client.
End Part002.

(** ** The queue settings of the infrastructure stack
    (src/infra/src/enrollment-stack.ts)

    The constructs are modelled by the properties the stack passes to
    them; durations are in seconds. *)
Module Infra.

(** Of the stack configuration the two functions read only
    [environment]. *)
Record StackConfig : Type := { environment : jsstring }.

Definition days (n : nat) : nat := n * 24 * 60 * 60.
Definition minutes (n : nat) : nat := n * 60.
Definition seconds (n : nat) : nat := n.

Inductive Queue : Type :=
  MkQueue {
    queueName : jsstring;
    visibilityTimeout : option nat;
    retentionPeriod : nat;
    deadLetterQueue : option DeadLetterQueue;
    receiveMessageWaitTime : option nat
  }
with DeadLetterQueue : Type :=
  MkDeadLetterQueue {
    queue : Queue;
    maxReceiveCount : nat
  }.

Definition createProcessingQueue (config : StackConfig) : Queue :=
  let deadLetterQueue :=
    {| queueName := lit "gatech-enrollment-dlq-" ++ environment config;
       visibilityTimeout := None;
       retentionPeriod := days 14;
       deadLetterQueue := None;
       receiveMessageWaitTime := None |} in
  let processingQueue :=
    {| queueName := lit "gatech-enrollment-processing-" ++ environment config;
       visibilityTimeout := Some (minutes 15);
       retentionPeriod := days 4;
       deadLetterQueue :=
         Some {| queue := deadLetterQueue; maxReceiveCount := 3 |};
       receiveMessageWaitTime := Some (seconds 20) |} in
  processingQueue.

Record SqsEventSource : Type := {
  source : Queue;
  batchSize : nat;
  maxBatchingWindow : nat;
  reportBatchItemFailures : bool
}.

(** The function construct, by its name, timeout, retry setting and the
    event sources added to it. *)
Record LambdaFunction : Type := {
  functionName : jsstring;
  timeout : nat;
  retryAttempts : nat;
  eventSources : list SqsEventSource
}.

(** [createDataProcessingFunction], which reads [this.processingQueue]. *)
Definition createDataProcessingFunction (processingQueue : Queue)
           (config : StackConfig) : LambdaFunction :=
  {| functionName :=
       lit "gatech-enrollment-data-processing-" ++ environment config;
     timeout := minutes 15;
     retryAttempts := 0;
     eventSources :=
       [ {| source := processingQueue;
            batchSize := 1;
            maxBatchingWindow := seconds 5;
            reportBatchItemFailures := true |} ] |}.

Record EnrollmentStack : Type := {
  processingQueue : Queue;
  dataProcessingFunction : LambdaFunction
}.

(** The part of the constructor that builds the queue and the worker. *)
Definition newEnrollmentStack (stackConfig : StackConfig) : EnrollmentStack :=
  let processingQueue := createProcessingQueue stackConfig in
  {| processingQueue := processingQueue;
     dataProcessingFunction :=
       createDataProcessingFunction processingQueue stackConfig |}.

End Infra.

(** ** An instance of the number interface

    The integer-valued numbers and [NaN], enough to run the codec on
    concrete texts.  [parseFloat] skips leading white space and reads an
    optional sign and the longest run of decimal digits, as JavaScript does
    on a text with no fraction and no exponent; texts with one are outside
    this instance. *)
Module IntNumber.

Inductive num : Type := NaN | Int (z : Z).

Definition digitValue (c : N) : option Z :=
  if N.leb 48 c && N.leb c 57 then Some (Z.of_N (c - 48)) else None.

Fixpoint readDigits (s : jsstring) (acc : option Z) : option Z :=
  match s with
  | [] => acc
  | c :: r =>
      match digitValue c with
      | Some d =>
          readDigits r (Some (10 * match acc with Some a => a | None => 0 end + d)%Z)
      | None => acc
      end
  end.

Definition ofDigits (negative : bool) (s : jsstring) : num :=
  match readDigits s None with
  | Some z => Int (if negative then - z else z)
  | None => NaN
  end.

Definition readNumber (s : jsstring) : num :=
  match trimStart s with
  | c :: r =>
      if N.eqb c 45 then ofDigits true r
      else if N.eqb c 43 then ofDigits false r
      else ofDigits false (c :: r)
  | [] => NaN
  end.

Definition showNumber (n : num) : jsstring :=
  match n with
  | NaN => lit "NaN"
  | Int z =>
      (if Z.ltb z 0 then [45%N] else [])
        ++ uintToString (N.to_uint (Z.abs_N z))
  end.

#[export] Instance ops : JsNumber :=
  {| number := num;
     parseFloat := readNumber;
     numberToString := showNumber |}.

Definition int (z : Z) : @number ops := Int z.
Definition nan : @number ops := NaN.

End IntNumber.

(** ** An instance of the host

    The texts of V8 (Chrome, Node.js): a built-in function is written
    with its name and a body of native code. *)
Module V8.

Definition functionName (name : jsstring) : jsstring :=
  if str_eqb name (lit "constructor") then lit "Object" else name.

Definition textOf (name : jsstring) : jsstring :=
  if str_eqb name (lit "__proto__") then lit "[object Object]"
  else lit "function " ++ functionName name ++ lit "() { [native code] }".

Definition host : JsHost := {| memberText := textOf |}.

End V8.

(** ** Predicates of the statements *)

(** The progress values the callback received, in order. *)
Definition progressValues (trace : list Event) : list Z :=
  flat_map (fun e => match e with
                     | OnProgress progress _ => [progress]
                     | _ => []
                     end) trace.

(** The number of status reads of an execution. *)
Definition statusReads (trace : list Event) : nat :=
  length (filter (fun e => match e with
                           | StatusRead _ => true
                           | _ => false
                           end) trace).

Fixpoint nonDecreasing (l : list Z) : Prop :=
  match l with
  | [] => True
  | x :: r =>
      match r with
      | [] => True
      | y :: _ => (x <= y)%Z /\ nonDecreasing r
      end
  end.

Definition isTerminal (s : JobStatus) : bool :=
  match s with
  | completed | failed => true
  | pending | processing => false
  end.

Definition startsClean (s : jsstring) : bool :=
  match s with
  | [] => true
  | c :: _ => negb (isWhiteSpace c)
  end.

Definition endsClean (s : jsstring) : bool := startsClean (rev s).

(** No white space at either end. *)
Definition isTrimmed (s : jsstring) : bool := startsClean s && endsClean s.

(** The parts with [sep] between them, written out. *)
Definition separated (sep : jsstring) (parts : list jsstring) : jsstring :=
  match parts with
  | [] => []
  | x :: r => x ++ flat_map (fun p => sep ++ p) r
  end.

(** What may follow a closing quote in an encoded line: the end of the
    line or a comma. *)
Definition afterCell (tail : jsstring) : Prop :=
  tail = [] \/ exists t, tail = COMMA :: t.

Section StatementPredicates.
Context {NumOps : JsNumber} {Host : JsHost}.

(** The test of the row loop: the line is not empty and has as many
    columns as the header. *)
Definition keepsRow (headers : list jsstring) (line : jsstring) : bool :=
  negb (isEmpty line)
  && Nat.eqb (length (parseCSVLine line)) (length headers).

(** A text the decoder gives back unchanged: no white space at either
    end and no line feed. *)
Definition cleanText (s : jsstring) : bool :=
  isTrimmed s && negb (includes LF s).

(** A number the codec carries: its text is not empty, has no comma, quote
    or line feed and no white space at either end, and [parseFloat] reads
    the number back from it. *)
Definition numberRoundTrips (n : number) : Prop :=
  let t := numberToString n in
  (negb (isEmpty t) && negb (includes COMMA t) && negb (includes QUOTE t)
   && cleanText t) = true
  /\ parseFloat t = n.

Definition nullableRoundTrips (n : option number) : Prop :=
  match n with
  | Some x => numberRoundTrips x
  | None => True
  end.

Definition textFields (r : EnrollmentRecord) : list jsstring :=
  [ term r; subject r; course r; crn r; section r; startTime r; endTime r;
    days r; building r; room r; primaryInstructors r;
    additionalInstructors r; buildingCode r ].

Definition numericValues (r : EnrollmentRecord) : list (option number) :=
  [ enrollmentActual r; enrollmentMaximum r; enrollmentSeatsAvailable r;
    waitlistCapacity r; waitlistActual r; waitlistSeatsAvailable r;
    roomCapacity r; loss r ].

(** The records the codec carries unchanged. *)
Definition recordRoundTrips (r : EnrollmentRecord) : Prop :=
  Forall (fun s => cleanText s = true) (textFields r)
  /\ Forall nullableRoundTrips (numericValues r).

(** The same, property by property, for any object. *)
Definition fieldOk (kv : jsstring * jsvalue) : Prop :=
  match snd kv with
  | VString s =>
      isNumericField (VString (fst kv)) = false /\ cleanText s = true
  | VNumber n =>
      isNumericField (VString (fst kv)) = true /\ numberRoundTrips n
  | VNull => isNumericField (VString (fst kv)) = true
  | VUndefined => False
  | VMember _ => False
  end.

(** The property a header is decoded into. *)
Definition fieldKey (header : jsstring) : jsstring :=
  toPropertyKey (fieldNameOf header).

(** A header that names a field by a string, and that string. *)
Definition namedField (header : jsstring) : option jsstring :=
  match fieldNameOf header with
  | VString name => Some name
  | _ => None
  end.

(** [record] holds the cells of a row under the headers: the property of
    each header has the value of the cell of its column (of the last such
    column, when several headers name the same property).  For a
    numeric-typed field that value is [null] when the trimmed cell is
    empty and the number [parseFloat] gives for it otherwise; for any
    other field it is the trimmed cell as text. *)
Definition holdsCells (headers cells : list jsstring) (record : object)
  : Prop :=
  forall index header text,
    nth_error headers index = Some header ->
    nth_error cells index = Some text ->
    (forall j h, index < j -> nth_error headers j = Some h ->
                 fieldKey h <> fieldKey header) ->
    get record (fieldKey header)
    = if isNumericField (fieldNameOf header)
      then (if isEmpty (trim text) then VNull
            else VNumber (parseFloat (trim text)))
      else VString (trim text).

(** A property name that is its own header: not a label of [headerMap],
    not a member of [Object.prototype], not an array index, not empty,
    without comma, line feed or surrounding white space. *)
Definition keyOk (k : jsstring) : bool :=
  match namedField k with
  | Some name => str_eqb name k
  | None => false
  end
  && match arrayIndex k with Some _ => false | None => true end
  && negb (isEmpty k) && negb (includes COMMA k) && cleanText k.

Fixpoint distinct (l : list jsstring) : bool :=
  match l with
  | [] => true
  | x :: r => negb (existsb (str_eqb x) r) && distinct r
  end.

Definition keysOk (ks : list jsstring) : bool :=
  Nat.leb 2 (length ks) && distinct ks && forallb keyOk ks.

(** The text a value is written as, before quoting. *)
Definition raw (v : jsvalue) : jsstring :=
  match v with
  | VString s => s
  | VNumber n => numberToString n
  | VNull => []
  | VUndefined => []
  | VMember name => memberText name
  end.

Definition rawCells (o : object) : list jsstring :=
  map (fun kv => raw (snd kv)) o.

(** The property names of an EnrollmentRecord, in order. *)
Definition recordKeys : list jsstring :=
  [ lit "term"; lit "subject"; lit "course"; lit "crn"; lit "section";
    lit "startTime"; lit "endTime"; lit "days"; lit "building"; lit "room";
    lit "primaryInstructors"; lit "additionalInstructors";
    lit "enrollmentActual"; lit "enrollmentMaximum";
    lit "enrollmentSeatsAvailable"; lit "waitlistCapacity";
    lit "waitlistActual"; lit "waitlistSeatsAvailable"; lit "buildingCode";
    lit "roomCapacity"; lit "loss" ].

End StatementPredicates.


(** Two records for running the codec: the first has commas and quotes in
    its texts and [null] among its numbers. *)
Definition sampleRecord1 : @EnrollmentRecord IntNumber.ops :=
  {| term := lit "Fall 2024";
     subject := lit "CS";
     course := lit "CS 1332";
     crn := lit "81234";
     section := lit "A";
     startTime := lit "09:30";
     endTime := lit "10:20";
     days := lit "MWF";
     building := lit "Klaus, Advanced Computing";
     room := lit "1443";
     primaryInstructors := lit "Mary " ++ [QUOTE] ++ lit "M" ++ [QUOTE]
                               ++ lit " Hudachek-Buswell, Ph.D.";
     additionalInstructors := [];
     enrollmentActual := Some (IntNumber.int 150);
     enrollmentMaximum := Some (IntNumber.int 200);
     enrollmentSeatsAvailable := Some (IntNumber.int 50);
     waitlistCapacity := None;
     waitlistActual := Some (IntNumber.int 0);
     waitlistSeatsAvailable := None;
     buildingCode := lit "153";
     roomCapacity := Some (IntNumber.int 210);
     loss := None |}.

Definition sampleRecord2 : @EnrollmentRecord IntNumber.ops :=
  {| term := lit "Spring 2025";
     subject := lit "MATH";
     course := lit "MATH 1554";
     crn := lit "20771";
     section := lit "L2";
     startTime := [];
     endTime := [];
     days := [];
     building := [];
     room := [];
     primaryInstructors := [QUOTE];
     additionalInstructors := lit ",";
     enrollmentActual := Some (IntNumber.int (-3));
     enrollmentMaximum := None;
     enrollmentSeatsAvailable := None;
     waitlistCapacity := Some (IntNumber.int 99);
     waitlistActual := None;
     waitlistSeatsAvailable := None;
     buildingCode := [];
     roomCapacity := None;
     loss := Some IntNumber.nan |}.

(** A record whose [term] starts with a space. *)
Definition paddedRecord : @EnrollmentRecord IntNumber.ops :=
  {| term := lit " Fall 2024";
     subject := lit "CS";
     course := lit "CS 1332";
     crn := lit "81234";
     section := lit "A";
     startTime := [];
     endTime := [];
     days := [];
     building := [];
     room := [];
     primaryInstructors := [];
     additionalInstructors := [];
     enrollmentActual := None;
     enrollmentMaximum := None;
     enrollmentSeatsAvailable := None;
     waitlistCapacity := None;
     waitlistActual := None;
     waitlistSeatsAvailable := None;
     buildingCode := [];
     roomCapacity := None;
     loss := None |}.

(** A record whose [days] holds a line feed. *)
Definition twoLineRecord : @EnrollmentRecord IntNumber.ops :=
  {| term := lit "Fall 2024";
     subject := lit "CS";
     course := lit "CS 1332";
     crn := lit "81234";
     section := lit "A";
     startTime := [];
     endTime := [];
     days := lit "M" ++ [LF] ++ lit "W";
     building := [];
     room := [];
     primaryInstructors := [];
     additionalInstructors := [];
     enrollmentActual := None;
     enrollmentMaximum := None;
     enrollmentSeatsAvailable := None;
     waitlistCapacity := None;
     waitlistActual := None;
     waitlistSeatsAvailable := None;
     buildingCode := [];
     roomCapacity := None;
     loss := None |}.

(** An object with a string that holds a comma and a quote, a [null] and
    a number. *)
Definition smallRecord : @object IntNumber.ops :=
  [ (lit "name", VString (lit "a," ++ [QUOTE] ++ lit "b"));
    (lit "seats", VNull);
    (lit "loss", VNumber (IntNumber.int 7)) ].

(** Servers for running the client. *)
Definition sampleRequest : EnrollmentRequest :=
  {| numTerms := 1;
     subjects := [lit "CS"];
     courseRanges := [{| lower := 1000; upper := 2999 |}];
     skipSummer := false;
     oneFile := false;
     groupData := group_all |}.

Definition reply001 (s : JobStatus) (p : option Z) (csv err : option jsstring)
  : Part001.JobStatusResponse :=
  {| Part001.status := s;
     Part001.progress := p;
     Part001.csv_data := csv;
     Part001.download_url := None;
     Part001.error_message := err |}.

Definition server001 (replies : nat -> Part001.JobStatusResponse)
  : Part001.Server :=
  {| Part001.submitEnrollmentJob :=
       fun _ => Resolved {| Part001.job_id := Some (lit "job-1") |};
     Part001.pollJobStatus := fun n => Resolved (replies n);
     Part001.fetchUrl := fun _ => Rejected (lit "Failed to fetch") |}.

(** One read in progress, then a failure with a stored message. *)
Definition failingReplies001 (n : nat) : Part001.JobStatusResponse :=
  match n with
  | 1 => reply001 processing None None None
  | _ => reply001 failed None None (Some (lit "Upstream data source unavailable"))
  end.

(** Reports of 50, then 30, then 150 with the result. *)
Definition erraticReplies001 (n : nat) : Part001.JobStatusResponse :=
  match n with
  | 1 => reply001 processing (Some 50%Z) None None
  | 2 => reply001 processing (Some 30%Z) None None
  | _ => reply001 completed (Some 150%Z)
                  (Some (join [LF] [lit "Term"; lit "Fall 2024"])) None
  end.

(** Reports that climb from 11 to 100 on a job that stays in progress. *)
Definition climbingReplies001 (n : nat) : Part001.JobStatusResponse :=
  reply001 processing (Some (Z.min (10 + Z.of_nat n) 100)) None None.

Section Servers002.
Context {NumOps : JsNumber}.

Definition reply002 (s : JobStatus) (p : option Z) (m : option jsstring)
  : Part002.JobStatusResponse :=
  {| Part002.status := s;
     Part002.progress := p;
     Part002.message := m;
     Part002.result := None |}.

Definition accepted002 : Part002.JobSubmitResponse :=
  {| Part002.jobId := Some (lit "job-1"); Part002.embedded := None |}.

Definition server002 (replies : nat -> Part002.JobStatusResponse)
  : Part002.Server :=
  {| Part002.submitEnrollmentJob := fun _ => Resolved accepted002;
     Part002.pollJobStatus := fun n => Resolved (replies n) |}.

(** A job that never leaves [processing]. *)
Definition busyReplies002 (n : nat) : Part002.JobStatusResponse :=
  reply002 processing None None.

(** A job that fails at once and stores the text of the timeout as its
    message. *)
Definition impostorReplies002 (n : nat) : Part002.JobStatusResponse :=
  reply002 failed None (Some TIMEOUT_MESSAGE).

Definition failingReplies002 (n : nat) : Part002.JobStatusResponse :=
  match n with
  | 1 => reply002 processing None None
  | _ => reply002 failed None (Some (lit "Upstream data source unavailable"))
  end.

End Servers002.

(** * The rest of the client

    The functions around the codec and the polling loop: the download of
    App.vue, the store of useEnrollmentStore.ts, the paging of the results
    table, the form, and [parseTermName]. *)

Section DownloadDefs.
Context {NumOps : JsNumber} {Host : JsHost}.

(** The object [handleDownload] (App.vue) makes of a record: the same
    values under the labels of the original CSV output. *)
Definition csvRecord (r : EnrollmentRecord) : object :=
  [ (lit "Term", VString (term r));
    (lit "Subject", VString (subject r));
    (lit "Course", VString (course r));
    (lit "CRN", VString (crn r));
    (lit "Section", VString (section r));
    (lit "Start Time", VString (startTime r));
    (lit "End Time", VString (endTime r));
    (lit "Days", VString (days r));
    (lit "Building", VString (building r));
    (lit "Room", VString (room r));
    (lit "Primary Instructor(s)", VString (primaryInstructors r));
    (lit "Additional Instructor(s)", VString (additionalInstructors r));
    (lit "Enrollment Actual", ofNullable (enrollmentActual r));
    (lit "Enrollment Maximum", ofNullable (enrollmentMaximum r));
    (lit "Enrollment Seats Available",
     ofNullable (enrollmentSeatsAvailable r));
    (lit "Waitlist Capacity", ofNullable (waitlistCapacity r));
    (lit "Waitlist Actual", ofNullable (waitlistActual r));
    (lit "Waitlist Seats Available", ofNullable (waitlistSeatsAvailable r));
    (lit "Building Code", VString (buildingCode r));
    (lit "Room Capacity", ofNullable (roomCapacity r));
    (lit "Loss", ofNullable (loss r)) ].

(** The text [handleDownload] hands to [downloadCSV]; nothing is
    downloaded when there are no results. *)
Definition handleDownload (results : list EnrollmentRecord)
  : option jsstring :=
  match results with
  | [] => None
  | _ :: _ => Some (recordsToCSV (map csvRecord results))
  end.

(** An object with every property under the field its header names. *)
Definition rename (o : object) : object :=
  map (fun kv => (fieldKey (fst kv), snd kv)) o.

(** A header the decoder reads back as written: not empty, without comma,
    line feed or surrounding white space, and not an array index. *)
Definition labelOk (k : jsstring) : bool :=
  negb (isEmpty k) && negb (includes COMMA k) && cleanText k
  && match arrayIndex k with Some _ => false | None => true end.

Definition labelsOk (ks : list jsstring) : bool :=
  Nat.leb 2 (length ks) && distinct (map fieldKey ks)
  && forallb labelOk ks.

(** A value that is written with the encoder's quoting rule applied to its
    text: any value but a number whose text has a comma or a quote. *)
Definition quotable (v : jsvalue) : bool :=
  match v with
  | VNumber n =>
      negb (includes COMMA (numberToString n))
      && negb (includes QUOTE (numberToString n))
  | VMember name =>
      negb (includes COMMA (memberText name))
      && negb (includes QUOTE (memberText name))
  | _ => true
  end.

(** A property whose value is well formed for the field its header
    names. *)
Definition labelledOk (kv : jsstring * jsvalue) : Prop :=
  match namedField (fst kv) with
  | Some name => fieldOk (name, snd kv)
  | None => False
  end.

(** The headers of [handleDownload], in order. *)
Definition recordLabels : list jsstring := ownNames headerMap.

Definition isDefined (v : jsvalue) : bool :=
  match v with
  | VUndefined => false
  | _ => true
  end.

End DownloadDefs.

Definition isAllWhiteSpace (s : jsstring) : bool := forallb isWhiteSpace s.

(** [cur] put in front of the first piece. *)
Definition prependToFirst (cur : jsstring) (pieces : list jsstring)
  : list jsstring :=
  match pieces with
  | [] => [cur]
  | h :: t => (cur ++ h) :: t
  end.

(** ** Counting the events of an execution *)



(** ** Numbers under [Math.min] and [Math.max]

    A number is [NaN], an infinity or a finite value; the finite binary64
    values are rationals, and the two zeros compare equal. *)
Module MathNumber.

Inductive num : Type :=
| NaN
| NegInfinity
| Finite (q : QArith_base.Q)
| Infinity.

Definition isNaN (a : num) : bool :=
  match a with
  | NaN => true
  | _ => false
  end.

(** [a <= b] on numbers that are not [NaN]. *)
Definition leb (a b : num) : bool :=
  match a, b with
  | NaN, _ | _, NaN => false
  | NegInfinity, _ => true
  | _, Infinity => true
  | Finite p, Finite q => QArith_base.Qle_bool p q
  | _, _ => false
  end.

(** [Math.max(a, b)] and [Math.min(a, b)]: [NaN] when an argument is. *)
Definition max (a b : num) : num :=
  if isNaN a || isNaN b then NaN else if leb a b then b else a.

Definition min (a b : num) : num :=
  if isNaN a || isNaN b then NaN else if leb a b then a else b.

Definition ofZ (z : Z) : num := Finite (QArith_base.inject_Z z).

(** A finite number within 0 and 100. *)
Definition inRange (a : num) : Prop :=
  match a with
  | Finite q =>
      QArith_base.Qle (QArith_base.inject_Z 0) q
      /\ QArith_base.Qle q (QArith_base.inject_Z 100)
  | _ => False
  end.

End MathNumber.

(** ** The shared store (useEnrollmentStore.ts)

    The reactive state and its actions, an action as a function from the
    state before to the state after. *)
Module Store.

Section StoreDefs.
Context {NumOps : JsNumber}.

Record ApiStatus : Type := {
  loading : bool;
  error : option jsstring;
  progress : MathNumber.num;
  message : jsstring
}.

Record State : Type := {
  records : list EnrollmentRecord;
  status : ApiStatus
}.

Definition initial : State :=
  {| records := [];
     status := {| loading := false;
                  error := None;
                  progress := MathNumber.ofZ 0;
                  message := [] |} |}.

Definition setRecords (data : list EnrollmentRecord) (s : State) : State :=
  {| records := data; status := status s |}.

Definition clearRecords (s : State) : State :=
  {| records := []; status := status s |}.

(** [message] is the empty string when the caller leaves it out. *)
Definition setLoading (isLoading : bool) (message : jsstring) (s : State)
  : State :=
  {| records := records s;
     status := {| loading := isLoading;
                  error := if isLoading then None else error (status s);
                  progress := progress (status s);
                  message := message |} |}.

Definition setError (error : option jsstring) (s : State) : State :=
  {| records := records s;
     status := {| loading := false;
                  error := error;
                  progress := progress (status s);
                  message := message (status s) |} |}.

Definition setProgress (progress : MathNumber.num) (s : State) : State :=
  {| records := records s;
     status := {| loading := loading (status s);
                  error := error (status s);
                  progress :=
                    MathNumber.min (MathNumber.ofZ 100)
                      (MathNumber.max (MathNumber.ofZ 0) progress);
                  message := message (status s) |} |}.

Definition reset (s : State) : State := initial.

Inductive Action : Type :=
| SetRecords (data : list EnrollmentRecord)
| ClearRecords
| SetLoading (isLoading : bool) (message : jsstring)
| SetError (error : option jsstring)
| SetProgress (progress : MathNumber.num)
| Reset.

Definition step (s : State) (a : Action) : State :=
  match a with
  | SetRecords data => setRecords data s
  | ClearRecords => clearRecords s
  | SetLoading isLoading message => setLoading isLoading message s
  | SetError error => setError error s
  | SetProgress progress => setProgress progress s
  | Reset => reset s
  end.

(** The state after a sequence of calls on the fresh store. *)
Definition after (actions : list Action) : State :=
  fold_left step actions initial.

(** The two properties every state of the store has. *)
Definition sound (s : State) : Prop :=
  (progress (status s) = MathNumber.NaN
   \/ MathNumber.inRange (progress (status s)))
  /\ (loading (status s) = true -> error (status s) = None).

(** A call that is not [setProgress(NaN)]. *)
Definition definite (a : Action) : Prop :=
  match a with
  | SetProgress MathNumber.NaN => False
  | _ => True
  end.

End StoreDefs.
End Store.

(** ** The paging of the results table (src/unnamed/part_003) *)
Module ResultsTable.

Definition pageSize : Z := 25.

(** [Math.ceil(records.length / pageSize)]; the quotient of a length by
    25 is exact enough for the ceiling to be the integer one. *)
Definition totalPages (length : nat) : Z :=
  (Z.of_nat length + (pageSize - 1)) / pageSize.

(** An index of [Array.prototype.slice] brought into the array: a
    negative one counts from the end. *)
Definition sliceIndex (i : Z) (len : nat) : nat :=
  Z.to_nat (if Z.ltb i 0 then Z.max (Z.of_nat len + i) 0
            else Z.min i (Z.of_nat len)).

Definition slice {A : Type} (l : list A) (start finish : Z) : list A :=
  let k := sliceIndex start (length l) in
  let final := sliceIndex finish (length l) in
  firstn (final - k) (skipn k l).

Definition paginatedRecords {A : Type} (records : list A) (currentPage : Z)
  : list A :=
  let start := ((currentPage - 1) * pageSize)%Z in
  slice records start (start + pageSize).

Definition prevPage (currentPage : Z) : Z :=
  if Z.ltb 1 currentPage then (currentPage - 1)%Z else currentPage.

Definition nextPage (length : nat) (currentPage : Z) : Z :=
  if Z.ltb currentPage (totalPages length) then (currentPage + 1)%Z
  else currentPage.

Inductive Click : Type := Previous | Next.

Definition click (length : nat) (currentPage : Z) (c : Click) : Z :=
  match c with
  | Previous => prevPage currentPage
  | Next => nextPage length currentPage
  end.

(** The page after a sequence of clicks, from the first page. *)
Definition pageAfter (length : nat) (clicks : list Click) : Z :=
  fold_left (click length) clicks 1%Z.

End ResultsTable.

(** ** parseInt with radix 10

    [parseInt] returns the binary64 number nearest to the integer the
    digits stand for. *)

(** The integer-valued binary64 number nearest to a non-negative integer,
    ties to the even significand: the integer itself up to 2^53, beyond
    that its 53 leading bits, rounded.  (A value that rounds beyond the
    largest finite number, 309 digits or more, reads as [Infinity] in
    JavaScript, and past the twentieth digit an engine may approximate;
    such runs are outside this function.) *)
Definition toBinary64 (z : Z) : Z :=
  let bits := (Z.log2 z + 1)%Z in
  if Z.leb bits 53 then z
  else
    let e := (bits - 53)%Z in
    let q := Z.shiftr z e in
    let r := (z - Z.shiftl q e)%Z in
    let half := Z.shiftl 1 (e - 1) in
    let q' := if Z.ltb half r || (Z.eqb r half && Z.odd q)
              then (q + 1)%Z else q in
    Z.shiftl q' e.

(** [None] is [NaN]: leading white space is skipped, a sign is read, then
    the longest run of decimal digits; without a digit the result is
    [NaN]. *)
Definition parseInt10 (s : jsstring) : option Z :=
  match IntNumber.readNumber s with
  | IntNumber.Int z => Some (Z.sgn z * toBinary64 (Z.abs z))%Z
  | IntNumber.NaN => None
  end.

(** What [parseInt] gives for a run of decimal digits. *)
Definition decimalValue (digits : jsstring) : Z :=
  toBinary64
    (fold_left (fun acc c => (10 * acc + Z.of_N (c - 48))%Z) digits 0%Z).

(** ** parseTermName (src/unnamed/part_001, part_002) *)
Definition semesterOf (month : option Z) : jsstring :=
  match month with
  | Some m =>
      if Z.ltb m 5 then lit "Spring"
      else if Z.ltb m 8 then lit "Summer"
      else lit "Fall"
  | None => lit "Fall"
  end.

Definition parseTermName (term : jsstring) : jsstring :=
  let year := firstn 4 term in
  let month := parseInt10 (skipn 4 term) in
  semesterOf month ++ lit " " ++ year.

(** The code unit of a decimal digit. *)
Definition digit (d : nat) : N := N.of_nat (48 + d).

(** ** The form (EnrollmentForm.vue) *)
Module EnrollmentForm.

(** The class [,\s] of the two split patterns. *)
Definition isSeparator (c : N) : bool := N.eqb c COMMA || isWhiteSpace c.

(** [s.split(/[,\s]+/)]: the pieces between the runs of separators; a
    text that starts or ends with a run has an empty first or last
    piece.  [inRun] tells that the code unit before was a separator. *)
Fixpoint splitRuns_from (s : jsstring) (inRun : bool) : list jsstring :=
  match s with
  | [] => [[]]
  | c :: r =>
      if isSeparator c then
        if inRun then splitRuns_from r true
        else [] :: splitRuns_from r true
      else
        match splitRuns_from r false with
        | h :: t => (c :: h) :: t
        | [] => [[c]]
        end
  end.

Definition splitRuns (s : jsstring) : list jsstring := splitRuns_from s false.

Fixpoint spanDigits (s : jsstring) : jsstring * jsstring :=
  match s with
  | [] => ([], [])
  | c :: r =>
      if isDigit c then (c :: fst (spanDigits r), snd (spanDigits r))
      else ([], s)
  end.

(** [part.match(/^(\d+)-(\d+)$/)]: the two groups. *)
Definition matchRange (part : jsstring) : option (jsstring * jsstring) :=
  match spanDigits part with
  | ((_ :: _) as first, c :: second) =>
      if N.eqb c 45 && negb (isEmpty second) && forallb isDigit second
      then Some (first, second)
      else None
  | _ => None
  end.

Definition defaultRange : Range := {| lower := 0; upper := 99999 |}.

(** The loop over the parts. *)
Fixpoint rangesOf (parts : list jsstring) (ranges : list Range) : list Range :=
  match parts with
  | [] => ranges
  | part :: rest =>
      match matchRange part with
      | Some (first, second) =>
          rangesOf rest
            (ranges ++ [{| lower := decimalValue first;
                           upper := decimalValue second |}])
      | None => rangesOf rest ranges
      end
  end.

Definition parseCourseRanges (courseRangeInput : jsstring) : list Range :=
  if isEmpty (trim courseRangeInput) then [defaultRange]
  else
    let parts := filter (fun p => negb (isEmpty (trim p)))
                        (splitRuns courseRangeInput) in
    let ranges := rangesOf parts [] in
    match ranges with
    | [] => [defaultRange]
    | _ :: _ => ranges
    end.

Section Form.
(** [String.prototype.toUpperCase], which follows the Unicode tables. *)
Variable toUpperCase : jsstring -> jsstring.

Definition parseSubjects (subjectInput : jsstring) : list jsstring :=
  if isEmpty (trim subjectInput) then []
  else filter (fun s => negb (Nat.eqb (length s) 0))
              (map trim (splitRuns (toUpperCase subjectInput))).

(** The state of the form; of [errors] only the entry [numTerms] is ever
    written, so [errors] is that entry or nothing. *)
Record Form : Type := {
  formNumTerms : Z;
  subjectInput : jsstring;
  courseRangeInput : jsstring;
  formSkipSummer : bool;
  formOneFile : bool;
  formGroupData : GroupData;
  errors : option jsstring
}.

Definition withErrors (f : Form) (e : option jsstring) : Form :=
  {| formNumTerms := formNumTerms f;
     subjectInput := subjectInput f;
     courseRangeInput := courseRangeInput f;
     formSkipSummer := formSkipSummer f;
     formOneFile := formOneFile f;
     formGroupData := formGroupData f;
     errors := e |}.

Definition validateNumTerms (f : Form) : Form :=
  if Z.ltb (formNumTerms f) 1
  then withErrors f (Some (lit "Number of terms must be at least 1"))
  else if Z.ltb 20 (formNumTerms f)
  then withErrors f (Some (lit "Number of terms cannot exceed 20"))
  else withErrors f None.

Definition isValid (f : Form) : bool :=
  match errors f with
  | None => Z.leb 1 (formNumTerms f)
  | Some _ => false
  end.

(** [handleSubmit]: the form after the call and the request it emits, if
    any. *)
Definition handleSubmit (f : Form) : Form * option EnrollmentRequest :=
  let f' := validateNumTerms f in
  if negb (isValid f') then (f', None)
  else
    (f', Some {| numTerms := formNumTerms f';
                 subjects := parseSubjects (subjectInput f');
                 courseRanges := parseCourseRanges (courseRangeInput f');
                 skipSummer := formSkipSummer f';
                 oneFile := formOneFile f';
                 groupData := formGroupData f' |}).

End Form.

(** A piece between separators: not empty, with no separator in it. *)
Definition isWord (w : jsstring) : Prop :=
  w <> [] /\ forallb (fun c => negb (isSeparator c)) w = true.

(** A range written the way the form asks for it. *)
Definition formatRange (r : nat * nat) : jsstring :=
  natToString (fst r) ++ [45%N] ++ natToString (snd r).

Definition rangeOf (r : nat * nat) : Range :=
  {| lower := Z.of_nat (fst r); upper := Z.of_nat (snd r) |}.

End EnrollmentForm.

(** ** More servers for running the client *)

Definition sampleCsv : jsstring := join [LF] [lit "Term"; lit "Fall 2024"].

(** The result is behind a URL. *)
Definition linkReply001 : Part001.JobStatusResponse :=
  {| Part001.status := completed;
     Part001.progress := Some 100%Z;
     Part001.csv_data := None;
     Part001.download_url := Some (lit "https://files.example/result.csv");
     Part001.error_message := None |}.

Definition downloadServer001 : Part001.Server :=
  {| Part001.submitEnrollmentJob :=
       fun _ => Resolved {| Part001.job_id := Some (lit "job-1") |};
     Part001.pollJobStatus := fun _ => Resolved linkReply001;
     Part001.fetchUrl :=
       fun _ => Resolved {| Part001.ok := true; Part001.text := sampleCsv |} |}.

(** A job that completes with nothing to show. *)
Definition emptyReplies001 (n : nat) : Part001.JobStatusResponse :=
  reply001 completed None None None.

(** A server that refuses the submission. *)
Definition refusingServer001 : Part001.Server :=
  {| Part001.submitEnrollmentJob :=
       fun _ => Rejected (lit "HTTP error! status: 500");
     Part001.pollJobStatus := fun n => Resolved (emptyReplies001 n);
     Part001.fetchUrl := fun _ => Rejected (lit "Failed to fetch") |}.

(** A server that accepts the submission and returns no job id. *)
Definition mutedServer001 : Part001.Server :=
  {| Part001.submitEnrollmentJob :=
       fun _ => Resolved {| Part001.job_id := None |};
     Part001.pollJobStatus := fun n => Resolved (emptyReplies001 n);
     Part001.fetchUrl := fun _ => Rejected (lit "Failed to fetch") |}.

(** A server whose second status read fails. *)
Definition flakyServer001 : Part001.Server :=
  {| Part001.submitEnrollmentJob :=
       fun _ => Resolved {| Part001.job_id := Some (lit "job-1") |};
     Part001.pollJobStatus :=
       fun n => match n with
                | 1 => Resolved (failingReplies001 1)
                | _ => Rejected (lit "HTTP error! status: 502")
                end;
     Part001.fetchUrl := fun _ => Rejected (lit "Failed to fetch") |}.

Section MoreServers002.
Context {NumOps : JsNumber}.

Definition sampleResponse : EnrollmentResponse :=
  {| success := true;
     data := [];
     fileName := lit "enrollment_data.csv";
     message := None |}.

Definition doneReplies002 (n : nat) : Part002.JobStatusResponse :=
  {| Part002.status := completed;
     Part002.progress := Some 100%Z;
     Part002.message := None;
     Part002.result := Some sampleResponse |}.

(** A server that answers the submission with the result itself. *)
Definition promptServer002 : Part002.Server :=
  {| Part002.submitEnrollmentJob :=
       fun _ => Resolved {| Part002.jobId := None;
                            Part002.embedded := Some sampleResponse |};
     Part002.pollJobStatus := fun n => Resolved (doneReplies002 n) |}.

Definition refusingServer002 : Part002.Server :=
  {| Part002.submitEnrollmentJob :=
       fun _ => Rejected (lit "HTTP error! status: 500");
     Part002.pollJobStatus := fun n => Resolved (doneReplies002 n) |}.

(** A server that accepts the submission and returns neither a job id
    nor a result. *)
Definition mutedServer002 : Part002.Server :=
  {| Part002.submitEnrollmentJob :=
       fun _ => Resolved {| Part002.jobId := None;
                            Part002.embedded := None |};
     Part002.pollJobStatus := fun n => Resolved (doneReplies002 n) |}.

Definition flakyServer002 : Part002.Server :=
  {| Part002.submitEnrollmentJob := fun _ => Resolved accepted002;
     Part002.pollJobStatus :=
       fun n => match n with
                | 1 => Resolved (failingReplies002 1)
                | _ => Rejected (lit "HTTP error! status: 502")
                end |}.

End MoreServers002.

(** ** Inputs for running the rest of the client *)

Definition twoRows : jsstring := join [LF] [lit "a,b"; lit "1,2"; lit "3,4"].

Definition twoRowsWithGap : jsstring :=
  join [LF] [lit "a,b"; lit "1,2"; []; lit "3,4"].

Definition shortCsv : jsstring := join [LF] [lit "Term,Loss"; lit "Fall,1"].

Definition someCalls : list (@Store.Action IntNumber.ops) :=
  [ Store.SetLoading true (lit "Loading");
    Store.SetProgress (MathNumber.ofZ 150);
    Store.SetError (Some (lit "Network error"));
    Store.SetProgress (MathNumber.ofZ (-3));
    Store.SetLoading true [] ].

(** ** The body of the submission (src/unnamed/part_001,
    submitEnrollmentJob) *)
Module SubmitBody.

Definition requestSubjects (request : EnrollmentRequest) : list jsstring :=
  subjects request.

Record Body : Type := {
  nterms : Z;
  subjects : list jsstring;
  ranges : list (Z * Z);
  include_summer : bool;
  save_all : bool;
  save_grouped : bool
}.

Definition isGroup (a b : GroupData) : bool :=
  match a, b with
  | group_all, group_all => true
  | group_grouped, group_grouped => true
  | group_both, group_both => true
  | _, _ => false
  end.

(** The object [JSON.stringify] is given. *)
Definition requestBody (request : EnrollmentRequest) : Body :=
  {| nterms := numTerms request;
     subjects := requestSubjects request;
     ranges := map (fun r => (lower r, upper r)) (courseRanges request);
     include_summer := negb (skipSummer request);
     save_all := isGroup (groupData request) group_all
                 || isGroup (groupData request) group_both;
     save_grouped := isGroup (groupData request) group_grouped
                     || isGroup (groupData request) group_both |}.

End SubmitBody.

(** * Properties *)

(** ** Strings *)

Lemma str_eqb_refl (a : jsstring) : str_eqb a a = true.
Proof.
  induction a as [|x a IH]; simpl; [reflexivity|].
  now rewrite N.eqb_refl, IH.
Qed.

Lemma str_eqb_eq (a b : jsstring) : str_eqb a b = true <-> a = b.
Proof.
  split.
  - revert b; induction a as [|x a IH]; intros [|y b]; simpl;
      try discriminate; [reflexivity|].
    intros H. apply andb_true_iff in H as [Hx Hab].
    apply N.eqb_eq in Hx. f_equal; auto.
  - intros ->. apply str_eqb_refl.
Qed.

Lemma str_eqb_neq (a b : jsstring) : str_eqb a b = false <-> a <> b.
Proof.
  rewrite <- str_eqb_eq. destruct (str_eqb a b); split; congruence.
Qed.

Lemma includes_app (c : N) (a b : jsstring) :
  includes c (a ++ b) = includes c a || includes c b.
Proof. apply existsb_app. Qed.

Lemma includes_cons (c x : N) (a : jsstring) :
  includes c (x :: a) = N.eqb c x || includes c a.
Proof. reflexivity. Qed.

Lemma split_not_nil (c : N) (s : jsstring) : split c s <> [].
Proof.
  destruct s as [|x r]; simpl; [discriminate|].
  destruct (N.eqb x c); [discriminate|].
  destruct (split c r); discriminate.
Qed.

Lemma split_clean (c : N) (s : jsstring) :
  includes c s = false -> split c s = [s].
Proof.
  induction s as [|x r IH]; simpl; [reflexivity|].
  intros H. apply orb_false_iff in H as [Hx Hr].
  rewrite N.eqb_sym, Hx, (IH Hr). reflexivity.
Qed.

Lemma split_app_sep (c : N) (s t : jsstring) :
  includes c s = false -> split c (s ++ c :: t) = s :: split c t.
Proof.
  induction s as [|x r IH]; simpl.
  - now rewrite N.eqb_refl.
  - intros H. apply orb_false_iff in H as [Hx Hr].
    rewrite N.eqb_sym, Hx, (IH Hr). reflexivity.
Qed.

Lemma join_cons2 (sep x y : jsstring) (r : list jsstring) :
  join sep (x :: y :: r) = x ++ sep ++ join sep (y :: r).
Proof. reflexivity. Qed.

(** Splitting the join of pieces that are free of the separator gives the
    pieces back. *)
Lemma split_join (c : N) (parts : list jsstring) :
  parts <> [] ->
  Forall (fun p => includes c p = false) parts ->
  split c (join [c] parts) = parts.
Proof.
  induction parts as [|x r IH]; [congruence|].
  intros _ H. inversion H as [|? ? Hx Hr]; subst.
  destruct r as [|y r].
  - simpl. now apply split_clean.
  - rewrite join_cons2. simpl app.
    rewrite split_app_sep by assumption.
    f_equal. apply IH; [discriminate|assumption].
Qed.

Lemma includes_join (c : N) (sep : jsstring) (parts : list jsstring) :
  includes c sep = false ->
  Forall (fun p => includes c p = false) parts ->
  includes c (join sep parts) = false.
Proof.
  intros Hs. induction parts as [|x r IH]; intros H; [reflexivity|].
  inversion H as [|? ? Hx Hr]; subst.
  destruct r as [|y r]; [exact Hx|].
  rewrite join_cons2, !includes_app, Hx, Hs, (IH Hr). reflexivity.
Qed.

Lemma includes_doubleQuotes (c : N) (s : jsstring) :
  c <> QUOTE -> includes c (doubleQuotes s) = includes c s.
Proof.
  intros Hc. induction s as [|x r IH]; [reflexivity|].
  simpl. destruct (N.eqb x QUOTE) eqn:E.
  - apply N.eqb_eq in E; subst x. simpl.
    apply N.eqb_neq in Hc. rewrite Hc. simpl. apply IH.
  - simpl. now rewrite IH.
Qed.

(** *** Trimming *)

Lemma trimStart_clean (s : jsstring) : startsClean s = true -> trimStart s = s.
Proof.
  destruct s as [|c r]; simpl; [reflexivity|].
  destruct (isWhiteSpace c); [discriminate|reflexivity].
Qed.

Lemma trim_trimmed (s : jsstring) : isTrimmed s = true -> trim s = s.
Proof.
  unfold isTrimmed, trim, trimEnd, endsClean. intros H.
  apply andb_true_iff in H as [H1 H2].
  rewrite (trimStart_clean _ H1), (trimStart_clean _ H2).
  apply rev_involutive.
Qed.

Lemma startsClean_app (a b : jsstring) :
  a <> [] -> startsClean a = true -> startsClean (a ++ b) = true.
Proof. destruct a; [congruence|auto]. Qed.

Lemma endsClean_app (a b : jsstring) :
  b <> [] -> endsClean b = true -> endsClean (a ++ b) = true.
Proof.
  unfold endsClean. intros Hb H. rewrite rev_app_distr.
  apply startsClean_app; [|assumption].
  intros E. apply Hb. rewrite <- (rev_involutive b), E. reflexivity.
Qed.

Lemma endsClean_app_nil_or (a b : jsstring) :
  endsClean a = true -> endsClean b = true -> endsClean (a ++ b) = true.
Proof.
  intros Ha Hb. destruct b as [|c b].
  - now rewrite app_nil_r.
  - apply endsClean_app; [discriminate|assumption].
Qed.

(** ** parseCSVLine *)

Lemma parse_open_quote (rest : jsstring) (result : list jsstring)
      (current : jsstring) :
  parseCSVLine_from (QUOTE :: rest) result current false
  = parseCSVLine_from rest result current true.
Proof. destruct rest; reflexivity. Qed.

Lemma parse_comma (rest : jsstring) (result : list jsstring)
      (current : jsstring) :
  parseCSVLine_from (COMMA :: rest) result current false
  = parseCSVLine_from rest (result ++ [current]) [] false.
Proof. reflexivity. Qed.

(** A cell without comma and quote is read character by character. *)
Lemma parse_plain (f tail : jsstring) (result : list jsstring)
      (current : jsstring) :
  includes COMMA f = false -> includes QUOTE f = false ->
  parseCSVLine_from (f ++ tail) result current false
  = parseCSVLine_from tail result (current ++ f) false.
Proof.
  revert current. induction f as [|c f IH]; intros current Hc Hq.
  - now rewrite app_nil_r.
  - rewrite includes_cons in Hc, Hq.
    apply orb_false_iff in Hc as [Hc Hc'].
    apply orb_false_iff in Hq as [Hq Hq'].
    rewrite N.eqb_sym in Hc. rewrite N.eqb_sym in Hq.
    simpl. rewrite Hq, Hc. simpl.
    rewrite IH by assumption. now rewrite <- app_assoc.
Qed.

(** Inside quotes the doubled quotes are read back as single ones, up to
    the closing quote. *)
Lemma parse_quoted (f tail : jsstring) (result : list jsstring)
      (current : jsstring) :
  afterCell tail ->
  parseCSVLine_from (doubleQuotes f ++ QUOTE :: tail) result current true
  = parseCSVLine_from tail result (current ++ f) false.
Proof.
  intros Ht. revert current. induction f as [|c f IH]; intros current.
  - rewrite app_nil_r. destruct Ht as [->|[t ->]]; reflexivity.
  - simpl doubleQuotes. destruct (N.eqb c QUOTE) eqn:E.
    + apply N.eqb_eq in E; subst c. simpl.
      rewrite IH. now rewrite <- app_assoc.
    + simpl. rewrite E, andb_false_r.
      rewrite IH. now rewrite <- app_assoc.
Qed.

Lemma parse_quoteField (f tail : jsstring) (result : list jsstring) :
  afterCell tail ->
  parseCSVLine_from (quoteField f ++ tail) result [] false
  = parseCSVLine_from tail result f false.
Proof.
  intros Ht. unfold quoteField.
  destruct (includes COMMA f || includes QUOTE f) eqn:E.
  - rewrite <- !app_assoc. simpl app.
    rewrite parse_open_quote. now rewrite parse_quoted.
  - apply orb_false_iff in E as [Hc Hq].
    now rewrite parse_plain.
Qed.

Lemma parse_encoded_from (fields : list jsstring) (result : list jsstring) :
  fields <> [] ->
  parseCSVLine_from (join [COMMA] (map quoteField fields)) result [] false
  = result ++ fields.
Proof.
  revert result. induction fields as [|f r IH]; intros result Hne;
    [congruence|].
  destruct r as [|g r].
  - simpl. rewrite <- (app_nil_r (quoteField f)).
    rewrite parse_quoteField by (left; reflexivity). reflexivity.
  - simpl map. rewrite join_cons2. simpl app at 2.
    rewrite parse_quoteField by (right; eexists; reflexivity).
    rewrite parse_comma. simpl map in IH. rewrite IH by discriminate.
    now rewrite <- app_assoc.
Qed.

Lemma parse_encoded (fields : list jsstring) :
  fields <> [] ->
  parseCSVLine (join [COMMA] (map quoteField fields)) = fields.
Proof.
  intros Hne. unfold parseCSVLine.
  now rewrite parse_encoded_from.
Qed.

(** C6 (as amended): for every non-empty list of field strings,
    [parseCSVLine] applied to the line made by quoting each field by the
    encoder's rule and joining with commas returns exactly the fields,
    embedded commas and doubled quotes included. *)
Theorem parseCSVLine_encoded (fields : list jsstring) :
  fields <> [] ->
  parseCSVLine (join [COMMA] (map quoteField fields)) = fields.
Proof. apply parse_encoded. Qed.

Lemma parseCSVLine_encoded_witness :
  parseCSVLine
    (join [COMMA] (map quoteField [lit "a,b"; [QUOTE]; []; lit "x y"]))
  = [lit "a,b"; [QUOTE]; []; lit "x y"].
Proof. apply parseCSVLine_encoded. discriminate. Defined.

(** C6 (as stated) fails on the empty list of fields: the empty line reads
    back as one empty field. *)
Lemma parseCSVLine_encoded_no_fields :
  parseCSVLine (join [COMMA] (map quoteField [])) = [[]]
  /\ parseCSVLine (join [COMMA] (map quoteField [])) <> [].
Proof. split; [reflexivity|discriminate]. Qed.

(** ** Objects *)

Lemma insertIndex_perm (i : N) (k : jsstring) (l : list (N * jsstring)) :
  Permutation (map snd (insertIndex i k l)) (k :: map snd l).
Proof.
  induction l as [|[j k'] r IH]; simpl; [apply Permutation_refl|].
  destruct (N.leb i j); simpl; [apply Permutation_refl|].
  eapply Permutation_trans; [apply perm_skip, IH|apply perm_swap].
Qed.

(** [Object.keys] enumerates every own name once. *)
Lemma orderKeys_perm (names : list jsstring) :
  Permutation (orderKeys names) names.
Proof.
  unfold orderKeys. induction names as [|k r IH]; [apply Permutation_refl|].
  cbn [fold_right filter]. destruct (arrayIndex k) as [i|].
  - eapply Permutation_trans.
    + apply Permutation_app_tail, insertIndex_perm.
    + simpl. apply perm_skip, IH.
  - eapply Permutation_trans.
    + apply Permutation_sym, Permutation_middle.
    + apply perm_skip, IH.
Qed.

(** Names that are not array indices are enumerated in the order of
    their creation. *)
Lemma orderKeys_plain (names : list jsstring) :
  Forall (fun k => arrayIndex k = None) names -> orderKeys names = names.
Proof.
  intros H. unfold orderKeys.
  assert (E : fold_right (fun k acc => match arrayIndex k with
                                       | Some i => insertIndex i k acc
                                       | None => acc
                                       end) [] names = []).
  { induction H as [|k r Hk _ IH]; [reflexivity|].
    simpl. now rewrite Hk. }
  rewrite E. simpl. clear E.
  induction H as [|k r Hk _ IH]; [reflexivity|].
  simpl. now rewrite Hk, IH.
Qed.

Section ObjectFacts.
Context {NumOps : JsNumber}.

Lemma getOwn_set_eq (o : object) (k : jsstring) (v : jsvalue) :
  getOwn (set o k v) k = Some v.
Proof.
  induction o as [|[k' v'] o IH]; simpl.
  - now rewrite str_eqb_refl.
  - destruct (str_eqb k' k) eqn:E; simpl; rewrite E; auto.
Qed.

Lemma getOwn_set_neq (o : object) (k k' : jsstring) (v : jsvalue) :
  k <> k' -> getOwn (set o k v) k' = getOwn o k'.
Proof.
  intros Hk. induction o as [|[k0 v0] o IH]; simpl.
  - apply str_eqb_neq in Hk. now rewrite Hk.
  - destruct (str_eqb k0 k) eqn:E; simpl.
    + apply str_eqb_eq in E; subst k0.
      apply str_eqb_neq in Hk. now rewrite Hk.
    + destruct (str_eqb k0 k'); auto.
Qed.

Lemma get_set_eq (o : object) (k : jsstring) (v : jsvalue) :
  get (set o k v) k = v.
Proof. unfold get. now rewrite getOwn_set_eq. Qed.

Lemma get_set_neq (o : object) (k k' : jsstring) (v : jsvalue) :
  k <> k' -> get (set o k v) k' = get o k'.
Proof. intros Hk. unfold get. now rewrite getOwn_set_neq. Qed.

Lemma get_head (k : jsstring) (v : jsvalue) (o : object) :
  get ((k, v) :: o) k = v.
Proof. unfold get. simpl. now rewrite str_eqb_refl. Qed.

Lemma get_tail (k k' : jsstring) (v : jsvalue) (o : object) :
  k <> k' -> get ((k, v) :: o) k' = get o k'.
Proof.
  intros Hk. unfold get. simpl. apply str_eqb_neq in Hk. now rewrite Hk.
Qed.

Lemma getOwn_missing (o : object) (k : jsstring) :
  ~ In k (ownNames o) -> getOwn o k = None.
Proof.
  induction o as [|[k' v'] o IH]; simpl; intros H; [reflexivity|].
  destruct (str_eqb k' k) eqn:E.
  - apply str_eqb_eq in E. exfalso. apply H. now left.
  - apply IH. intros Hin. apply H. now right.
Qed.

(** An object has one property under each of its names, so a property
    that is listed is the one a read finds. *)
Lemma getOwn_In (o : object) (k : jsstring) (v : jsvalue) :
  NoDup (map fst o) -> In (k, v) o -> getOwn o k = Some v.
Proof.
  induction o as [|[k' v'] o IH]; simpl; intros Hnd Hin; [destruct Hin|].
  inversion Hnd as [|? ? Hk Ho]; subst.
  destruct Hin as [E|Hin].
  - injection E as -> ->. now rewrite str_eqb_refl.
  - destruct (str_eqb k' k) eqn:E; [|now apply IH].
    apply str_eqb_eq in E; subst k'. exfalso. apply Hk.
    apply in_map_iff. now exists (k, v).
Qed.

Lemma get_keys (o : object) :
  NoDup (ownNames o) -> map (get o) (ownNames o) = map snd o.
Proof.
  induction o as [|[k v] o IH]; intros H; [reflexivity|].
  inversion H as [|? ? Hk Ho]; subst.
  change (map (get ((k, v) :: o)) (ownNames ((k, v) :: o)))
    with (get ((k, v) :: o) k :: map (get ((k, v) :: o)) (ownNames o)).
  change (map snd ((k, v) :: o)) with (v :: map snd o).
  rewrite get_head. f_equal.
  rewrite <- (IH Ho). apply map_ext_in.
  intros h Hin. apply get_tail. intros ->. contradiction.
Qed.

End ObjectFacts.

(** ** recordsToCSV *)

Lemma join_separated (sep : jsstring) (parts : list jsstring) :
  join sep parts = separated sep parts.
Proof.
  destruct parts as [|x r]; [reflexivity|].
  revert x. induction r as [|y r IH]; intros x.
  - simpl. now rewrite app_nil_r.
  - rewrite join_cons2, IH. unfold separated. cbn [flat_map].
    now rewrite <- app_assoc.
Qed.

Lemma doubleQuotes_flat_map (s : jsstring) :
  doubleQuotes s
  = flat_map (fun u => if N.eqb u 34 then [34%N; 34%N] else [u]) s.
Proof.
  induction s as [|c r IH]; [reflexivity|].
  simpl. unfold QUOTE. destruct (N.eqb c 34); simpl; now rewrite IH.
Qed.

Lemma Forall2_map_right (A B : Type) (P : A -> B -> Prop) (f : A -> B)
      (l : list A) :
  (forall x, In x l -> P x (f x)) -> Forall2 P l (map f l).
Proof.
  induction l as [|x l IH]; intros H; simpl; constructor.
  - apply H. now left.
  - apply IH. intros y Hy. apply H. now right.
Qed.

Section EncoderFacts.
Context {NumOps : JsNumber} {Host : JsHost}.

(** C10: [recordsToCSV] of the empty list is the empty string, so no
    header row is written for an empty input. *)
Theorem recordsToCSV_empty : recordsToCSV [] = [].
Proof. reflexivity. Qed.

(** C5: the text [recordsToCSV] writes is the header line and one row per
    record, with line feeds between them, and a row is one cell per key of
    the first record, with commas between them.  The cell of a string that
    has a comma or a quote is the string between two quotes with every
    quote of it written twice; the cell of any other string is the string
    itself, the cell of a number is its text, and the cell of [null], of
    [undefined] and of a property the record does not have is empty (for
    a name that every object inherits from [Object.prototype], the cell
    of a record without such a property is the text of that member). *)
Theorem recordsToCSV_cells (firstRecord : object) (others : list object) :
  let records := firstRecord :: others in
  let headers := keys firstRecord in
  Forall (fun record => NoDup (map fst record)) records ->
  exists rows : list (list jsstring),
    recordsToCSV records
    = separated [10%N]
        (separated [44%N] headers :: map (separated [44%N]) rows)
    /\ Forall2
         (fun record cells =>
            Forall2
              (fun header c =>
                 (forall s, In (header, VString s) record ->
                    c = if existsb (N.eqb 44) s || existsb (N.eqb 34) s
                        then [34%N]
                               ++ flat_map (fun u => if N.eqb u 34
                                                     then [34%N; 34%N]
                                                     else [u]) s
                               ++ [34%N]
                        else s)
                 /\ (forall n, In (header, VNumber n) record ->
                               c = numberToString n)
                 /\ (In (header, VNull) record -> c = [])
                 /\ (In (header, VUndefined) record -> c = [])
                 /\ (forall name, In (header, VMember name) record ->
                                  c = memberText name)
                 /\ (~ In header (map fst record) ->
                     (In header objectPrototypeNames ->
                      c = memberText header)
                     /\ (~ In header objectPrototypeNames -> c = [])))
              headers cells)
         records rows.
Proof.
  intros records headers Hnd.
  exists (map (fun record => map (fun header => cell (get record header))
                                 headers) records).
  split.
  - unfold records, headers, recordsToCSV. cbv zeta.
    rewrite !join_separated. unfold LF, COMMA. f_equal. f_equal.
    rewrite map_map. apply map_ext. intros record.
    unfold csvRow. apply join_separated.
  - apply Forall2_map_right. intros record Hrec.
    rewrite Forall_forall in Hnd. specialize (Hnd record Hrec).
    apply Forall2_map_right. intros header _.
    repeat split.
    + intros s Hin. unfold get. rewrite (getOwn_In _ _ _ Hnd Hin).
      unfold cell, quoteField, includes, COMMA, QUOTE.
      now rewrite doubleQuotes_flat_map.
    + intros n Hin. unfold get. now rewrite (getOwn_In _ _ _ Hnd Hin).
    + intros Hin. unfold get. now rewrite (getOwn_In _ _ _ Hnd Hin).
    + intros Hin. unfold get. now rewrite (getOwn_In _ _ _ Hnd Hin).
    + intros name Hin. unfold get. now rewrite (getOwn_In _ _ _ Hnd Hin).
    + intros Hp. unfold get. rewrite (getOwn_missing _ _ H).
      unfold isInherited.
      destruct (existsb (str_eqb header) objectPrototypeNames) eqn:E;
        [reflexivity|].
      exfalso. apply Bool.not_true_iff_false in E. apply E.
      apply existsb_exists. exists header.
      split; [exact Hp|apply str_eqb_refl].
    + intros Hp. unfold get. rewrite (getOwn_missing _ _ H).
      unfold isInherited.
      destruct (existsb (str_eqb header) objectPrototypeNames) eqn:E;
        [|reflexivity].
      exfalso. apply Hp. apply existsb_exists in E as [x [Hx Ex]].
      apply str_eqb_eq in Ex. now subst x.
Qed.

End EncoderFacts.

(** ** parseCSVToRecords *)

Section DecoderFacts.
Context {NumOps : JsNumber} {Host : JsHost}.

Lemma get_forEach_other (headers : list jsstring) (index : nat)
      (values : list jsstring) (record : object) (k : jsstring) :
  (forall h, In h headers -> fieldKey h <> k) ->
  get (forEachHeader headers index values record) k = get record k.
Proof.
  revert index record. induction headers as [|h r IH]; intros index record H;
    [reflexivity|].
  simpl. rewrite IH by (intros; apply H; now right).
  apply get_set_neq. apply H. now left.
Qed.

(** The property a header writes is read back with the decoded value of
    its own column, unless a later header writes the same property. *)
Lemma get_forEach_at (headers : list jsstring) (start index : nat)
      (values : list jsstring) (record : object) (header : jsstring) :
  nth_error headers index = Some header ->
  (forall j h, index < j -> nth_error headers j = Some h ->
               fieldKey h <> fieldKey header) ->
  get (forEachHeader headers start values record) (fieldKey header)
  = decodeValue (fieldNameOf header)
                (option_map trim (nth_error values (start + index))).
Proof.
  revert start index record.
  induction headers as [|h r IH]; intros start index record Hn Hlater.
  - destruct index; discriminate.
  - destruct index as [|index]; simpl in Hn.
    + injection Hn as ->. simpl.
      rewrite get_forEach_other.
      * unfold fieldKey. rewrite get_set_eq. now rewrite Nat.add_0_r.
      * intros h' Hin. apply In_nth_error in Hin as [j Hj].
        apply (Hlater (S j)); [lia|exact Hj].
    + simpl. rewrite (IH (S start) index); [|exact Hn|].
      * now rewrite Nat.add_succ_r.
      * intros j h' Hj Hh'. apply (Hlater (S j)); [lia|exact Hh'].
Qed.

(** A decoded row holds the cells of its line. *)
Lemma decodeRow_holdsCells (headers cells : list jsstring) :
  holdsCells headers cells (decodeRow headers cells).
Proof.
  intros index header text Hheader Htext Hlater. unfold decodeRow.
  rewrite (get_forEach_at headers 0 index cells [] header Hheader Hlater).
  simpl Nat.add. rewrite Htext. simpl option_map.
  unfold decodeValue.
  destruct (isNumericField (fieldNameOf header)); [|reflexivity].
  destruct (isEmpty (trim text)); reflexivity.
Qed.

Lemma rowsLoop_filter (headers lines : list jsstring) (records : list object) :
  rowsLoop headers lines records
  = records
      ++ map (fun line => decodeRow headers (parseCSVLine line))
             (filter (keepsRow headers) lines).
Proof.
  revert records. induction lines as [|line rest IH]; intros records.
  - simpl. now rewrite app_nil_r.
  - simpl. unfold keepsRow at 1.
    destruct (isEmpty line); simpl; [apply IH|].
    destruct (Nat.eqb (length (parseCSVLine line)) (length headers)); simpl.
    + rewrite IH. now rewrite <- app_assoc.
    + apply IH.
Qed.

(** The records are the decoded rows of the lines that pass the test of
    the loop, in order. *)
Lemma parseCSVToRecords_rows (csvData line0 : jsstring)
      (dataLines : list jsstring) :
  split LF (trim csvData) = line0 :: dataLines ->
  dataLines <> [] -> line0 <> [] ->
  let headers := map trim (split COMMA line0) in
  parseCSVToRecords csvData
  = map (fun line => decodeRow headers (parseCSVLine line))
        (filter (keepsRow headers) dataLines).
Proof.
  intros Hs Hd H0. unfold parseCSVToRecords. rewrite Hs.
  destruct dataLines as [|l ls]; [congruence|].
  destruct line0 as [|c line0]; [congruence|].
  simpl length. simpl orb. cbv iota. cbv zeta.
  now rewrite rowsLoop_filter.
Qed.

Lemma filter_skip (headers before after : list jsstring) (bad : jsstring) :
  length (parseCSVLine bad) <> length headers ->
  filter (keepsRow headers) (before ++ bad :: after)
  = filter (keepsRow headers) (before ++ after).
Proof.
  intros Hbad. rewrite !filter_app. f_equal. simpl.
  unfold keepsRow at 1. apply Nat.eqb_neq in Hbad. rewrite Hbad.
  now rewrite andb_false_r.
Qed.

Lemma filter_all (A : Type) (f : A -> bool) (l : list A) :
  Forall (fun x => f x = true) l -> filter f l = l.
Proof.
  induction 1 as [|x l Hx _ IH]; simpl; [reflexivity|].
  now rewrite Hx, IH.
Qed.

(** Each record of the result holds the cells of its row: the rows that
    are decoded are the non-empty lines with the header's column count, in
    order. *)
Lemma parseCSVToRecords_holds (csvData header : jsstring)
      (rows : list jsstring) :
  split LF (trim csvData) = header :: rows ->
  rows <> [] -> header <> [] ->
  let headers := map trim (split COMMA header) in
  Forall2 (fun line record => holdsCells headers (parseCSVLine line) record)
          (filter (keepsRow headers) rows)
          (parseCSVToRecords csvData).
Proof.
  intros Hs Hr Hh headers.
  rewrite (parseCSVToRecords_rows csvData _ _ Hs Hr Hh). fold headers.
  apply Forall2_map_right. intros line _. apply decodeRow_holdsCells.
Qed.

(** C3 (as amended): for every CSV text, with the lines taken as the
    decoder splits them, a data row is passed over when it is empty or
    when its parsed column count differs from the header's; every other
    row is decoded, in order, into a record that holds the cells of the
    row.  So a header with well-formed rows and one row with an extra or a
    missing column decodes to as many records as there are well-formed
    rows (3 for 3). *)
Theorem parseCSVToRecords_skips_mismatched_rows
        (csvData header : jsstring) (rows : list jsstring) :
  split LF (trim csvData) = header :: rows ->
  rows <> [] -> header <> [] ->
  let headers := map trim (split COMMA header) in
  let columns := fun line => length (parseCSVLine line) in
  let decoded :=
    fun lines =>
      filter (fun line => match line with
                          | [] => false
                          | _ :: _ => Nat.eqb (columns line) (length headers)
                          end) lines in
  Forall2 (fun line record => holdsCells headers (parseCSVLine line) record)
          (decoded rows) (parseCSVToRecords csvData)
  /\ (forall before bad after,
         rows = before ++ bad :: after ->
         columns bad <> length headers ->
         decoded rows = decoded (before ++ after)
         /\ (Forall (fun line => line <> []
                                 /\ columns line = length headers)
                    (before ++ after) ->
             decoded rows = before ++ after
             /\ length (parseCSVToRecords csvData)
                = length (before ++ after))).
Proof.
  intros Hs Hr Hh headers columns decoded.
  assert (Ed : forall lines, decoded lines = filter (keepsRow headers) lines).
  { intros lines. unfold decoded. apply filter_ext.
    intros line. unfold keepsRow, columns. now destruct line. }
  pose proof (parseCSVToRecords_holds csvData _ _ Hs Hr Hh) as E.
  cbv zeta in E. fold headers in E. rewrite <- (Ed rows) in E.
  split; [exact E|].
  intros before bad after Hrows Hbad.
  assert (E' : decoded rows = decoded (before ++ after)).
  { rewrite !Ed, Hrows. now apply filter_skip. }
  split; [exact E'|].
  intros Hall.
  assert (Ek : decoded (before ++ after) = before ++ after).
  { rewrite Ed. apply filter_all. eapply Forall_impl; [|exact Hall].
    intros line [Hne Hc]. unfold keepsRow. unfold columns in Hc.
    rewrite Hc, Nat.eqb_refl. destruct line; [congruence|reflexivity]. }
  split; [now rewrite E'|].
  apply Forall2_length in E. rewrite <- E, E', Ek. reflexivity.
Qed.

(** C4 (as amended): [parseCSVToRecords] decodes every non-empty row that
    has the header's column count, whatever its cells hold, into one
    record, in order.  In that record a numeric-typed field (one of the
    eight named ones) is [null] when the trimmed cell is empty and
    otherwise the number [parseFloat] gives for the trimmed cell; every
    other field is the trimmed cell as text, the empty cell giving the
    empty string and not [null].  When several headers name the same
    field, this is the cell of the last of them.  The labels of the table
    name their fields, and a header that is not in the table names
    itself, unless it is a name that objects inherit from
    [Object.prototype]: the field of such a header is not numeric and its
    key is the text of the inherited member. *)
Theorem parseCSVToRecords_field_values
        (csvData headerLine : jsstring) (rows : list jsstring) :
  split LF (trim csvData) = headerLine :: rows ->
  rows <> [] -> headerLine <> [] ->
  let headers := map trim (split COMMA headerLine) in
  let decoded :=
    filter (fun line => match line with
                        | [] => false
                        | _ :: _ =>
                            Nat.eqb (length (parseCSVLine line))
                                    (length headers)
                        end) rows in
  length (parseCSVToRecords csvData) = length decoded
  /\ (forall i line record index header text,
         nth_error decoded i = Some line ->
         nth_error (parseCSVToRecords csvData) i = Some record ->
         nth_error headers index = Some header ->
         nth_error (parseCSVLine line) index = Some text ->
         (forall j h, index < j -> nth_error headers j = Some h ->
                      fieldKey h <> fieldKey header) ->
         let value := trim text in
         get record (fieldKey header)
         = if isNumericField (fieldNameOf header)
           then (if isEmpty value then VNull
                 else VNumber (parseFloat value))
           else VString value)
  /\ (forall name,
         isNumericField (VString name) = true
         <-> In name [ lit "enrollmentActual"; lit "enrollmentMaximum";
                       lit "enrollmentSeatsAvailable";
                       lit "waitlistCapacity"; lit "waitlistActual";
                       lit "waitlistSeatsAvailable"; lit "roomCapacity";
                       lit "loss" ])
  /\ map fieldNameOf
         [ lit "Term"; lit "Subject"; lit "Course"; lit "CRN";
           lit "Section"; lit "Start Time"; lit "End Time"; lit "Days";
           lit "Building"; lit "Room"; lit "Primary Instructor(s)";
           lit "Additional Instructor(s)"; lit "Enrollment Actual";
           lit "Enrollment Maximum"; lit "Enrollment Seats Available";
           lit "Waitlist Capacity"; lit "Waitlist Actual";
           lit "Waitlist Seats Available"; lit "Building Code";
           lit "Room Capacity"; lit "Loss" ]
     = map VString
           [ lit "term"; lit "subject"; lit "course"; lit "crn";
             lit "section"; lit "startTime"; lit "endTime"; lit "days";
             lit "building"; lit "room"; lit "primaryInstructors";
             lit "additionalInstructors"; lit "enrollmentActual";
             lit "enrollmentMaximum"; lit "enrollmentSeatsAvailable";
             lit "waitlistCapacity"; lit "waitlistActual";
             lit "waitlistSeatsAvailable"; lit "buildingCode";
             lit "roomCapacity"; lit "loss" ]
  /\ (forall header,
         ~ In header (map fst headerMap) ->
         ~ In header objectPrototypeNames ->
         fieldNameOf header = VString header)
  /\ (forall header,
         In header objectPrototypeNames ->
         fieldNameOf header = VMember header
         /\ fieldKey header = memberText header).
Proof.
  intros Hs Hr Hh headers decoded.
  assert (Ed : decoded = filter (keepsRow headers) rows).
  { unfold decoded. apply filter_ext.
    intros line. unfold keepsRow. now destruct line. }
  pose proof (parseCSVToRecords_holds csvData _ _ Hs Hr Hh) as E.
  cbv zeta in E. fold headers in E. rewrite <- Ed in E.
  split; [symmetry; exact (Forall2_length E)|].
  split; [|split; [|split; [|split]]].
  - intros i line record index header text Hline Hrecord.
    clear -E Hline Hrecord. revert i Hline Hrecord.
    induction E as [|l r ls rs Hlr _ IH]; intros i Hline Hrecord.
    + destruct i; discriminate.
    + destruct i as [|i]; simpl in Hline, Hrecord.
      * injection Hline as ->. injection Hrecord as ->.
        intros Hheader Htext Hlater value.
        exact (Hlr index header text Hheader Htext Hlater).
      * now apply (IH i).
  - intros name. unfold isNumericField, numericFields.
    rewrite existsb_exists. split.
    + intros [x [Hx Ex]]. apply str_eqb_eq in Ex. now subst x.
    + intros Hin. exists name. split; [exact Hin|apply str_eqb_refl].
  - reflexivity.
  - intros header Hown Hproto. unfold fieldNameOf, get.
    rewrite (getOwn_missing _ _ Hown). unfold isInherited.
    destruct (existsb (str_eqb header) objectPrototypeNames) eqn:Ex;
      [|reflexivity].
    exfalso. apply Hproto. apply existsb_exists in Ex as [x [Hx Ex]].
    apply str_eqb_eq in Ex. now subst x.
  - intros header Hin. unfold objectPrototypeNames in Hin. simpl in Hin.
    repeat (destruct Hin as [<-|Hin]; [split; reflexivity|]).
    destruct Hin.
Qed.

End DecoderFacts.

(** The text of three well-formed rows and a row with a third column. *)
Lemma parseCSVToRecords_skips_mismatched_rows_witness :
  length (parseCSVToRecords (NumOps := IntNumber.ops) (Host := V8.host)
            (join [LF] [lit "a,b"; lit "1,2"; lit "3,4,5"; lit "x,y";
                        lit "p,q"]))
  = 3.
Proof.
  destruct (parseCSVToRecords_skips_mismatched_rows
              (NumOps := IntNumber.ops) (Host := V8.host)
              (join [LF] [lit "a,b"; lit "1,2"; lit "3,4,5"; lit "x,y";
                          lit "p,q"])
              (lit "a,b")
              [lit "1,2"; lit "3,4,5"; lit "x,y"; lit "p,q"]
              eq_refl ltac:(discriminate) ltac:(discriminate))
    as [_ Hskip].
  destruct (Hskip [lit "1,2"] (lit "3,4,5") [lit "x,y"; lit "p,q"]
                  eq_refl ltac:(vm_compute; discriminate))
    as [_ Hall].
  destruct Hall as [_ Hlen].
  - repeat constructor; discriminate.
  - exact Hlen.
Defined.

(** C3 (as stated) fails: under a header of one column an empty row has
    the header's column count, one, and yet it is passed over: of the
    three rows 1, the empty row and 2 only two are decoded. *)
Lemma parseCSVToRecords_skips_empty_row :
  split LF (trim (join [LF] [lit "a"; lit "1"; []; lit "2"]))
  = [lit "a"; lit "1"; []; lit "2"]
  /\ Forall (fun row => length (parseCSVLine row)
                        = length (map trim (split COMMA (lit "a"))))
            [lit "1"; []; lit "2"]
  /\ length (parseCSVToRecords (NumOps := IntNumber.ops) (Host := V8.host)
               (join [LF] [lit "a"; lit "1"; []; lit "2"]))
     = 2.
Proof.
  split; [reflexivity|]. split; [|reflexivity].
  repeat constructor.
Qed.

(** The row [12, ,abc] under the header [Loss,Room,Term]: the field of the
    first column is the number 12. *)
Lemma parseCSVToRecords_field_values_witness :
  get (decodeRow (NumOps := IntNumber.ops) (Host := V8.host)
         [lit "Loss"; lit "Room"; lit "Term"]
         (parseCSVLine (lit "12, ,abc")))
      (lit "loss")
  = @VNumber IntNumber.ops (IntNumber.Int 12).
Proof.
  destruct (parseCSVToRecords_field_values
              (NumOps := IntNumber.ops) (Host := V8.host)
              (join [LF] [lit "Loss,Room,Term"; lit "12, ,abc"])
              (lit "Loss,Room,Term")
              [lit "12, ,abc"]
              eq_refl ltac:(discriminate) ltac:(discriminate))
    as [_ [Hfield _]].
  exact (Hfield 0 (lit "12, ,abc") _ 0 (lit "Loss") (lit "12")
                eq_refl eq_refl eq_refl eq_refl
                ltac:(intros [|[|[|[|j]]]] h Hj Hh; try lia;
                      vm_compute in Hh; try discriminate;
                      injection Hh as <-; vm_compute; discriminate)).
Defined.

(** C4 (as stated) fails: the row whose [Loss] cell is the text abc is not
    rejected, it is decoded with [NaN] in the field. *)
Lemma parseCSVToRecords_keeps_non_numeric :
  parseCSVToRecords (NumOps := IntNumber.ops) (Host := V8.host)
    (join [LF] [lit "Loss"; lit "abc"])
  = [[(lit "loss", @VNumber IntNumber.ops IntNumber.NaN)]]
  /\ parseCSVToRecords (NumOps := IntNumber.ops) (Host := V8.host)
       (join [LF] [lit "Loss"; lit "abc"]) <> [].
Proof. split; [reflexivity|discriminate]. Qed.

(** ** The round trip of the codec *)

Lemma distinct_NoDup (l : list jsstring) : distinct l = true -> NoDup l.
Proof.
  induction l as [|x r IH]; simpl; intros H; constructor.
  - apply andb_true_iff in H as [H _]. intros Hin.
    apply negb_true_iff in H.
    assert (E : existsb (str_eqb x) r = true).
    { apply existsb_exists. exists x. split; [exact Hin|apply str_eqb_refl]. }
    congruence.
  - apply andb_true_iff in H as [_ H]. auto.
Qed.

Lemma join_not_nil (sep x : jsstring) (r : list jsstring) :
  x <> [] -> join sep (x :: r) <> [].
Proof.
  intros Hx. destruct r as [|y r]; [exact Hx|].
  rewrite join_cons2. destruct x; [congruence|discriminate].
Qed.

Lemma join_sep_not_nil (sep x y : jsstring) (r : list jsstring) :
  sep <> [] -> join sep (x :: y :: r) <> [].
Proof.
  intros Hs. rewrite join_cons2. intros E.
  apply app_eq_nil in E as [_ E]. apply app_eq_nil in E as [E _].
  congruence.
Qed.

Lemma startsClean_join (sep x : jsstring) (r : list jsstring) :
  x <> [] -> startsClean x = true -> startsClean (join sep (x :: r)) = true.
Proof.
  intros Hx Hc. destruct r as [|y r]; [exact Hc|].
  rewrite join_cons2. now apply startsClean_app.
Qed.

(** The join of cells that end cleanly, with a separator that does, ends
    cleanly: it ends with the last cell or, when that is empty, with the
    separator. *)
Lemma endsClean_join_cells (sep : jsstring) (cells : list jsstring) :
  sep <> [] -> endsClean sep = true ->
  Forall (fun c => endsClean c = true) cells ->
  endsClean (join sep cells) = true.
Proof.
  intros Hs Hsc. induction cells as [|x r IH]; intros H; [reflexivity|].
  inversion H as [|? ? Hx Hr]; subst.
  destruct r as [|y r]; [exact Hx|].
  rewrite join_cons2. apply endsClean_app.
  - destruct sep; [congruence|discriminate].
  - apply endsClean_app_nil_or; [exact Hsc|]. apply IH, Hr.
Qed.

(** The join of non-empty lines that end cleanly ends cleanly, whatever
    the separator. *)
Lemma endsClean_join_lines (sep : jsstring) (lines : list jsstring) :
  Forall (fun l => l <> [] /\ endsClean l = true) lines ->
  endsClean (join sep lines) = true.
Proof.
  induction lines as [|x r IH]; intros H; [reflexivity|].
  inversion H as [|? ? [Hx Hxc] Hr]; subst.
  destruct r as [|y r]; [exact Hxc|].
  rewrite join_cons2. rewrite app_assoc. apply endsClean_app.
  - inversion Hr as [|? ? [Hy _] _]; subst. now apply join_not_nil.
  - apply IH, Hr.
Qed.

Section RoundTrip.
Context {NumOps : JsNumber} {Host : JsHost}.

Lemma cell_raw (kv : jsstring * jsvalue) :
  fieldOk kv -> cell (snd kv) = quoteField (raw (snd kv)).
Proof.
  destruct kv as [k [| |s|n|m]]; unfold fieldOk; simpl; try reflexivity;
    try contradiction.
  intros [_ [H _]]. unfold quoteField.
  apply andb_true_iff in H as [H _]. apply andb_true_iff in H as [H Hq].
  apply andb_true_iff in H as [_ Hc].
  apply negb_true_iff in Hc. apply negb_true_iff in Hq.
  now rewrite Hc, Hq.
Qed.

Lemma raw_no_LF (kv : jsstring * jsvalue) :
  fieldOk kv -> includes LF (raw (snd kv)) = false.
Proof.
  destruct kv as [k [| |s|n|m]]; unfold fieldOk; simpl; try reflexivity;
    try contradiction.
  - intros [_ H]. apply andb_true_iff in H as [_ H].
    now apply negb_true_iff in H.
  - intros [_ [H _]]. apply andb_true_iff in H as [_ H].
    apply andb_true_iff in H as [_ H]. now apply negb_true_iff in H.
Qed.

Lemma raw_trimmed (kv : jsstring * jsvalue) :
  fieldOk kv -> isTrimmed (raw (snd kv)) = true.
Proof.
  destruct kv as [k [| |s|n|m]]; unfold fieldOk; simpl; try reflexivity;
    try contradiction.
  - intros [_ H]. now apply andb_true_iff in H as [H _].
  - intros [_ [H _]]. apply andb_true_iff in H as [_ H].
    now apply andb_true_iff in H as [H _].
Qed.

(** A well-formed value is decoded back from its own text. *)
Lemma decodeValue_raw (k : jsstring) (v : jsvalue) :
  fieldOk (k, v) -> decodeValue (VString k) (Some (trim (raw v))) = v.
Proof.
  intros H. pose proof (raw_trimmed _ H) as Ht. cbn [snd] in Ht.
  rewrite (trim_trimmed _ Ht). unfold decodeValue.
  destruct v as [| |s|n|m]; unfold fieldOk in H; cbn [fst snd] in H.
  - contradiction.
  - now rewrite H.
  - destruct H as [H _]. now rewrite H.
  - destruct H as [Hn [Hc Hp]]. rewrite Hn. cbn [raw].
    apply andb_true_iff in Hc as [Hc _]. apply andb_true_iff in Hc as [Hc _].
    apply andb_true_iff in Hc as [Hc _]. rewrite Hc. now rewrite Hp.
  - contradiction.
Qed.

Lemma quoteField_no_LF (s : jsstring) :
  includes LF s = false -> includes LF (quoteField s) = false.
Proof.
  intros H. unfold quoteField.
  destruct (includes COMMA s || includes QUOTE s); [|exact H].
  rewrite !includes_app, includes_doubleQuotes by discriminate.
  now rewrite H.
Qed.

Lemma quoteField_endsClean (s : jsstring) :
  isTrimmed s = true -> endsClean (quoteField s) = true.
Proof.
  intros H. unfold quoteField.
  destruct (includes COMMA s || includes QUOTE s).
  - rewrite app_assoc. apply endsClean_app; [discriminate|reflexivity].
  - now apply andb_true_iff in H as [_ H].
Qed.

Lemma keyOk_facts (k : jsstring) :
  keyOk k = true ->
  fieldNameOf k = VString k /\ k <> [] /\ includes COMMA k = false
  /\ isTrimmed k = true /\ includes LF k = false
  /\ arrayIndex k = None.
Proof.
  unfold keyOk, cleanText, namedField. intros H.
  apply andb_true_iff in H as [H Hc]. apply andb_true_iff in Hc as [Ht Hl].
  apply andb_true_iff in H as [H Hco]. apply andb_true_iff in H as [H He].
  apply andb_true_iff in H as [Hf Hi].
  apply negb_true_iff in Hl. apply negb_true_iff in Hco.
  assert (Hname : fieldNameOf k = VString k).
  { destruct (fieldNameOf k) as [| |s|n|m]; try discriminate.
    apply str_eqb_eq in Hf. now subst s. }
  assert (Hidx : arrayIndex k = None)
    by (destruct (arrayIndex k); [discriminate|reflexivity]).
  repeat split; try assumption.
  destruct k; [discriminate|discriminate].
Qed.

Lemma keysOk_facts (ks : list jsstring) :
  keysOk ks = true ->
  2 <= length ks /\ NoDup ks /\ Forall (fun k => keyOk k = true) ks.
Proof.
  unfold keysOk. intros H.
  apply andb_true_iff in H as [H Hk]. apply andb_true_iff in H as [Hl Hd].
  repeat split.
  - now apply Nat.leb_le.
  - now apply distinct_NoDup.
  - apply Forall_forall. now apply forallb_forall.
Qed.

(** Well-formed names are enumerated in the order of their creation. *)
Lemma keysOk_order (ks : list jsstring) :
  keysOk ks = true -> orderKeys ks = ks.
Proof.
  intros H. destruct (keysOk_facts _ H) as [_ [_ Hk]].
  apply orderKeys_plain. eapply Forall_impl; [|exact Hk].
  intros k Hok. now destruct (keyOk_facts _ Hok) as [_ [_ [_ [_ [_ Hi]]]]].
Qed.

Lemma csvRow_encoded (o : object) :
  NoDup (ownNames o) -> Forall fieldOk o ->
  csvRow (ownNames o) o = join [COMMA] (map quoteField (rawCells o)).
Proof.
  intros Hnd Hok. unfold csvRow, rawCells.
  rewrite <- (map_map (get o) cell), (get_keys o Hnd).
  f_equal. rewrite !map_map.
  apply map_ext_in. intros kv Hin.
  apply cell_raw. rewrite Forall_forall in Hok. now apply Hok.
Qed.

Lemma set_fresh (o : object) (k : jsstring) (v : jsvalue) :
  ~ In k (ownNames o) -> set o k v = o ++ [(k, v)].
Proof.
  induction o as [|[k' v'] o IH]; simpl; intros H; [reflexivity|].
  destruct (str_eqb k' k) eqn:E.
  - apply str_eqb_eq in E. exfalso. apply H. now left.
  - f_equal. apply IH. intros Hin. apply H. now right.
Qed.

(** Decoding the raw cells of well-formed properties under their own
    names appends exactly these properties. *)
Lemma forEach_fresh (entries : object) (pre : list jsstring)
      (record : object) :
  NoDup (ownNames record ++ ownNames entries) ->
  Forall fieldOk entries ->
  Forall (fun k => keyOk k = true) (ownNames entries) ->
  forEachHeader (ownNames entries) (length pre) (pre ++ rawCells entries)
                record
  = record ++ entries.
Proof.
  revert pre record.
  induction entries as [|[k v] es IH]; intros pre record Hnd Hok Hks.
  - simpl. now rewrite app_nil_r.
  - inversion Hok as [|? ? Hkv Hes]; subst.
    change (ownNames ((k, v) :: es)) with (k :: ownNames es) in *.
    inversion Hks as [|? ? Hk Hks']; subst.
    destruct (keyOk_facts _ Hk) as [Hname _].
    change (rawCells ((k, v) :: es)) with (raw v :: rawCells es).
    cbn [forEachHeader]. rewrite Hname. cbn [toPropertyKey].
    rewrite nth_error_app2, Nat.sub_diag by lia. simpl nth_error.
    simpl option_map. rewrite (decodeValue_raw k v Hkv).
    rewrite set_fresh.
    + replace (pre ++ raw v :: rawCells es)
        with ((pre ++ [raw v]) ++ rawCells es)
        by now rewrite <- app_assoc.
      replace (S (length pre)) with (length (pre ++ [raw v]))
        by (rewrite length_app; simpl; lia).
      rewrite IH; [now rewrite <- app_assoc| |assumption|assumption].
      unfold ownNames. rewrite map_app. simpl map.
      rewrite <- app_assoc. exact Hnd.
    + intros Hin. apply NoDup_remove_2 in Hnd.
      apply Hnd. apply in_or_app. now left.
Qed.

(** What the row of a well-formed object is and how it reads back. *)
Lemma row_facts (o : object) :
  keysOk (ownNames o) = true -> Forall fieldOk o ->
  let row := csvRow (ownNames o) o in
  row <> [] /\ includes LF row = false /\ endsClean row = true
  /\ keepsRow (ownNames o) row = true
  /\ decodeRow (ownNames o) (parseCSVLine row) = o.
Proof.
  intros Hks Hok row.
  destruct (keysOk_facts _ Hks) as [Hlen [Hnd Hkeys]].
  assert (Hrow : row = join [COMMA] (map quoteField (rawCells o)))
    by now apply csvRow_encoded.
  assert (Hcells : length (rawCells o) = length (ownNames o))
    by (unfold rawCells, ownNames; now rewrite !length_map).
  assert (Hne : row <> []).
  { rewrite Hrow. destruct (rawCells o) as [|c1 [|c2 cs]] eqn:E;
      simpl in Hcells; try lia.
    simpl map. apply join_sep_not_nil. discriminate. }
  assert (Hparse : parseCSVLine row = rawCells o).
  { rewrite Hrow. apply parse_encoded.
    intros E. rewrite E in Hcells. simpl in Hcells. lia. }
  repeat split.
  - exact Hne.
  - rewrite Hrow. apply includes_join; [reflexivity|].
    unfold rawCells. rewrite map_map. apply Forall_map.
    eapply Forall_impl; [|exact Hok].
    intros kv Hkv. apply quoteField_no_LF. now apply raw_no_LF.
  - rewrite Hrow. apply endsClean_join_cells;
      [discriminate|reflexivity|].
    unfold rawCells. rewrite map_map. apply Forall_map.
    eapply Forall_impl; [|exact Hok].
    intros kv Hkv. apply quoteField_endsClean. now apply raw_trimmed.
  - unfold keepsRow. rewrite Hparse, Hcells, Nat.eqb_refl.
    destruct row; [congruence|reflexivity].
  - rewrite Hparse. unfold decodeRow.
    apply (forEach_fresh o [] []); simpl; assumption.
Qed.

End RoundTrip.

Section RoundTripOfRecords.
Context {NumOps : JsNumber} {Host : JsHost}.

(** Objects with the same well-formed property names, in the same order,
    and well-formed values are decoded back from their encoding. *)
Lemma roundtrip_objects (ks : list jsstring) (os : list object) :
  keysOk ks = true ->
  os <> [] ->
  Forall (fun o => ownNames o = ks /\ Forall fieldOk o) os ->
  parseCSVToRecords (recordsToCSV os) = os.
Proof.
  intros Hks Hne Hos.
  destruct (keysOk_facts _ Hks) as [Hlen [Hnd Hkeys]].
  destruct os as [|o0 os']; [congruence|]. clear Hne.
  assert (Hk0 : keys o0 = ks).
  { unfold keys. inversion Hos as [|? ? [H _] _]. rewrite H.
    now apply keysOk_order. }
  unfold recordsToCSV. cbv zeta. rewrite Hk0.
  set (headerLine := join [COMMA] ks).
  set (rowsText := map (csvRow ks) (o0 :: os')).
  (* the rows *)
  assert (Hrows : Forall (fun o =>
             let row := csvRow ks o in
             row <> [] /\ includes LF row = false /\ endsClean row = true
             /\ keepsRow ks row = true
             /\ decodeRow ks (parseCSVLine row) = o) (o0 :: os')).
  { eapply Forall_impl; [|exact Hos].
    intros o [Hko Hfo]. rewrite <- Hko.
    apply row_facts; [now rewrite Hko|exact Hfo]. }
  (* the header line *)
  assert (HkF : Forall (fun k => fieldNameOf k = VString k /\ k <> []
                                 /\ includes COMMA k = false
                                 /\ isTrimmed k = true
                                 /\ includes LF k = false) ks).
  { eapply Forall_impl; [|exact Hkeys]. intros k Hk.
    destruct (keyOk_facts _ Hk) as [H1 [H2 [H3 [H4 [H5 _]]]]].
    repeat split; assumption. }
  destruct ks as [|k1 [|k2 ks']]; simpl in Hlen; try lia.
  assert (Hh_ne : headerLine <> [])
    by (apply join_sep_not_nil; discriminate).
  assert (Hh_lf : includes LF headerLine = false).
  { apply includes_join; [reflexivity|].
    eapply Forall_impl; [|exact HkF]. intros k H. apply H. }
  assert (Hh_start : startsClean headerLine = true).
  { inversion HkF as [|? ? [_ [Hn [_ [Ht _]]]] _]; subst.
    apply startsClean_join; [exact Hn|].
    now apply andb_true_iff in Ht as [Ht _]. }
  assert (Hh_end : endsClean headerLine = true).
  { apply endsClean_join_cells; [discriminate|reflexivity|].
    eapply Forall_impl; [|exact HkF].
    intros k [_ [_ [_ [Ht _]]]]. now apply andb_true_iff in Ht as [_ Ht]. }
  assert (Hheaders : map trim (split COMMA headerLine) = k1 :: k2 :: ks').
  { unfold headerLine. rewrite split_join.
    - clear -HkF. induction HkF as [|k l [_ [_ [_ [Ht _]]]] _ IH];
        [reflexivity|].
      simpl. now rewrite (trim_trimmed _ Ht), IH.
    - discriminate.
    - eapply Forall_impl; [|exact HkF]. intros k H. apply H. }
  (* the text is already trimmed and splits into its lines *)
  assert (Htrim : trim (join [LF] (headerLine :: rowsText))
                  = join [LF] (headerLine :: rowsText)).
  { apply trim_trimmed. unfold isTrimmed. apply andb_true_iff. split.
    - now apply startsClean_join.
    - apply endsClean_join_lines. constructor; [now split|].
      unfold rowsText. apply Forall_map.
      eapply Forall_impl; [|exact Hrows].
      intros o [H1 [_ [H3 _]]]. now split. }
  assert (Hsplit : split LF (join [LF] (headerLine :: rowsText))
                   = headerLine :: rowsText).
  { apply split_join; [discriminate|].
    constructor; [exact Hh_lf|].
    unfold rowsText. apply Forall_map.
    eapply Forall_impl; [|exact Hrows].
    intros o [_ [H2 _]]. exact H2. }
  rewrite (parseCSVToRecords_rows _ headerLine rowsText).
  - cbv zeta. rewrite Hheaders.
    rewrite filter_all.
    + unfold rowsText. rewrite map_map.
      clear -Hrows. induction Hrows as [|o l [_ [_ [_ [_ H]]]] _ IH];
        [reflexivity|].
      simpl. now rewrite H, IH.
    + unfold rowsText. apply Forall_map.
      eapply Forall_impl; [|exact Hrows].
      intros o [_ [_ [_ [H _]]]]. exact H.
  - now rewrite Htrim.
  - discriminate.
  - exact Hh_ne.
Qed.

Lemma keys_toObject (r : EnrollmentRecord) :
  ownNames (toObject r) = recordKeys.
Proof. reflexivity. Qed.

Lemma recordKeys_ok : keysOk recordKeys = true.
Proof. vm_compute. reflexivity. Qed.

Lemma nullable_fieldOk (k : jsstring) (n : option number) :
  isNumericField (VString k) = true -> nullableRoundTrips n ->
  fieldOk (k, ofNullable n).
Proof.
  intros Hk Hn. destruct n as [x|]; unfold fieldOk; simpl; auto.
Qed.

Lemma toObject_fieldOk (r : EnrollmentRecord) :
  recordRoundTrips r -> Forall fieldOk (toObject r).
Proof.
  intros [Ht Hn]. unfold textFields in Ht. unfold numericValues in Hn.
  repeat match goal with
         | H : Forall _ (_ :: _) |- _ =>
             let a := fresh "Ha" in
             let b := fresh "Hb" in
             apply Forall_cons_iff in H as [a b]
         end.
  unfold toObject.
  repeat (apply Forall_cons;
          [ first [ apply nullable_fieldOk; [reflexivity|assumption]
                  | split; [reflexivity|assumption] ] | ]).
  apply Forall_nil.
Qed.

(** C1 (as amended): for every sequence of EnrollmentRecord values whose
    text fields have no white space at either end and no line feed, and
    whose numeric fields are [null] or numbers that [parseFloat] reads back
    from their text, decoding the CSV text that [recordsToCSV] writes
    gives exactly the original sequence; [null] numeric fields and text
    fields with commas and quotes are included. *)
Theorem codec_roundtrip (records : list EnrollmentRecord) :
  Forall recordRoundTrips records ->
  parseCSVToRecords (recordsToCSV (map toObject records))
  = map toObject records.
Proof.
  intros H. destruct records as [|r rs]; [reflexivity|].
  apply (roundtrip_objects recordKeys).
  - exact recordKeys_ok.
  - discriminate.
  - apply Forall_map. eapply Forall_impl; [|exact H].
    intros x Hx. split; [apply keys_toObject|now apply toObject_fieldOk].
Qed.

End RoundTripOfRecords.

Lemma codec_roundtrip_witness :
  parseCSVToRecords (NumOps := IntNumber.ops) (Host := V8.host)
    (recordsToCSV (Host := V8.host)
       (map toObject [sampleRecord1; sampleRecord2]))
  = map toObject [sampleRecord1; sampleRecord2].
Proof.
  apply (codec_roundtrip (NumOps := IntNumber.ops) (Host := V8.host)).
  repeat constructor.
Defined.

Lemma recordsToCSV_cells_witness :
  recordsToCSV (NumOps := IntNumber.ops) (Host := V8.host) [smallRecord]
  = lit "name,seats,loss" ++ [LF]
      ++ [QUOTE] ++ lit "a," ++ [QUOTE; QUOTE] ++ lit "b" ++ [QUOTE]
      ++ lit ",,7".
Proof.
  destruct (recordsToCSV_cells (NumOps := IntNumber.ops) (Host := V8.host)
              smallRecord [])
    as [rows [E F]].
  - repeat constructor; simpl; intuition discriminate.
  - change (keys smallRecord) with [lit "name"; lit "seats"; lit "loss"]
      in F.
    inversion F as [|r cells rs rows' Hc Hrest]; subst.
    inversion Hrest; subst.
    inversion Hc as [|h1 c1 hs cs H1 Hc1]; subst.
    inversion Hc1 as [|h2 c2 hs2 cs2 H2 Hc2]; subst.
    inversion Hc2 as [|h3 c3 hs3 cs3 H3 Hc3]; subst.
    inversion Hc3; subst.
    destruct H1 as [H1 _]. destruct H2 as [_ [_ [H2 _]]].
    destruct H3 as [_ [H3 _]].
    rewrite E, (H1 _ (or_introl eq_refl)),
      (H2 (or_intror (or_introl eq_refl))),
      (H3 _ (or_intror (or_intror (or_introl eq_refl)))).
    reflexivity.
Defined.

(** C1 (as stated) fails: the decoder trims every cell, so a record whose
    [term] starts with a space comes back without the space; and the
    encoder leaves a line feed as it is, so a record with one in a text
    field is written on two lines, neither of which is decoded. *)
Lemma codec_roundtrip_loses_padding :
  map (fun o => get o (lit "term"))
      (parseCSVToRecords (NumOps := IntNumber.ops) (Host := V8.host)
         (recordsToCSV (Host := V8.host) [toObject paddedRecord]))
  = [VString (lit "Fall 2024")]
  /\ parseCSVToRecords (NumOps := IntNumber.ops) (Host := V8.host)
       (recordsToCSV (Host := V8.host) [toObject paddedRecord])
     <> [toObject paddedRecord]
  /\ parseCSVToRecords (NumOps := IntNumber.ops) (Host := V8.host)
       (recordsToCSV (Host := V8.host) [toObject twoLineRecord])
     = []
  /\ parseCSVToRecords (NumOps := IntNumber.ops) (Host := V8.host)
       (recordsToCSV (Host := V8.host) [toObject twoLineRecord])
     <> [toObject twoLineRecord].
Proof.
  split; [reflexivity|]. split; [|split; [reflexivity|]].
  - intros H.
    apply (f_equal (map (fun o => get o (lit "term")))) in H.
    vm_compute in H. discriminate H.
  - intros H.
    apply (f_equal (@length _)) in H.
    vm_compute in H. discriminate H.
Qed.

(** ** The polling client *)

Lemma statusReads_app (a b : list Event) :
  statusReads (a ++ b) = statusReads a + statusReads b.
Proof. unfold statusReads. now rewrite filter_app, length_app. Qed.

Lemma progressValues_app (a b : list Event) :
  progressValues (a ++ b) = progressValues a ++ progressValues b.
Proof. apply flat_map_app. Qed.

Lemma orElse_stored (m : jsstring) (d : jsstring) :
  m <> [] -> orElse (Some m) d = m.
Proof. destruct m; [congruence|reflexivity]. Qed.

Lemma TIMEOUT_not_job_failed : TIMEOUT_MESSAGE <> lit "Job failed".
Proof. vm_compute. discriminate. Qed.

(** The text of a failed job is the timeout text only when the server
    stored that very text. *)
Lemma failed_text_not_timeout (stored : option jsstring) :
  orElse stored (lit "Job failed") = TIMEOUT_MESSAGE ->
  stored = Some TIMEOUT_MESSAGE.
Proof.
  destruct stored as [[|c m]|]; simpl.
  - intros H. symmetry in H. now apply TIMEOUT_not_job_failed in H.
  - now intros ->.
  - intros H. symmetry in H. now apply TIMEOUT_not_job_failed in H.
Qed.

Lemma nonDecreasing_tail (x : Z) (l : list Z) :
  nonDecreasing (x :: l) -> nonDecreasing l.
Proof. destruct l as [|y l]; simpl; [trivial|]. now intros [_ H]. Qed.

Lemma nonDecreasing_prefix (a b : list Z) :
  nonDecreasing (a ++ b) -> nonDecreasing a.
Proof.
  induction a as [|x a IH]; intros H; [exact I|].
  destruct a as [|y a]; [exact I|].
  simpl in H. destruct H as [Hxy H]. split; [exact Hxy|].
  apply IH. exact H.
Qed.

Lemma nonDecreasing_lower (x : Z) (l : list Z) :
  nonDecreasing (x :: l) -> Forall (fun p => (x <= p)%Z) l.
Proof.
  revert x. induction l as [|y l IH]; intros x H; constructor.
  - simpl in H. apply H.
  - simpl in H. destruct H as [Hxy H].
    eapply Forall_impl; [|apply (IH y H)]. intros p Hp. simpl in Hp. lia.
Qed.

Lemma nonDecreasing_snoc (x m : Z) (l : list Z) :
  nonDecreasing (x :: l) -> Forall (fun p => (p <= m)%Z) (x :: l) ->
  nonDecreasing ((x :: l) ++ [m]).
Proof.
  revert x. induction l as [|y l IH]; intros x H Hm.
  - simpl. inversion Hm; subst. split; [assumption|exact I].
  - simpl in H. destruct H as [Hxy H].
    inversion Hm as [|? ? _ Hm']; subst.
    change ((x :: y :: l) ++ [m]) with (x :: ((y :: l) ++ [m])).
    change (nonDecreasing (x :: (y :: l) ++ [m]))
      with ((x <= y)%Z /\ nonDecreasing ((y :: l) ++ [m])).
    split; [exact Hxy|]. now apply IH.
Qed.

(** The values 0 and 5, the values shown for the reads and, at the end,
    nothing or 100 never go down and stay within 0 and 100 exactly when
    the values shown never go down from 5 and stay at 100 or below. *)
Lemma steady_values (shown last : list Z) :
  last = [] \/ last = [100%Z] ->
  (nonDecreasing ([0; 5]%Z ++ shown ++ last)
   /\ Forall (fun p => (0 <= p <= 100)%Z) ([0; 5]%Z ++ shown ++ last))
  <-> (nonDecreasing (5%Z :: shown)
       /\ Forall (fun p => (p <= 100)%Z) shown).
Proof.
  intros Hlast. split.
  - intros [Hn Hb]. split.
    + apply nonDecreasing_tail in Hn.
      change (nonDecreasing ((5%Z :: shown) ++ last)) in Hn.
      now apply nonDecreasing_prefix in Hn.
    + inversion Hb as [|? ? _ Hb1]; subst.
      inversion Hb1 as [|? ? _ Hb2]; subst.
      apply Forall_app in Hb2 as [Hb2 _].
      eapply Forall_impl; [|exact Hb2]. intros p Hp. simpl in Hp. lia.
  - intros [Hn Hb].
    pose proof (nonDecreasing_lower _ _ Hn) as Hlo.
    assert (Hn' : nonDecreasing ((5%Z :: shown) ++ last)).
    { destruct Hlast as [->| ->].
      - now rewrite app_nil_r.
      - apply nonDecreasing_snoc; [exact Hn|].
        constructor; [lia|exact Hb]. }
    split.
    + change (nonDecreasing (0%Z :: (5%Z :: shown) ++ last)).
      change ((5%Z :: shown) ++ last) with (5%Z :: (shown ++ last)) in *.
      split; [lia|exact Hn'].
    + constructor; [lia|]. constructor; [lia|].
      apply Forall_app. split.
      * rewrite Forall_forall in *. intros p Hp.
        specialize (Hlo p Hp). specialize (Hb p Hp). simpl in *. lia.
      * destruct Hlast as [->| ->]; repeat constructor; lia.
Qed.

Lemma progressValues_read (ms : nat) (id : jsstring) (t : list Event) :
  progressValues (Sleep ms :: StatusRead id :: t) = progressValues t.
Proof. reflexivity. Qed.

Lemma progressValues_submit (t : list Event) :
  progressValues (SubmitJob :: t) = progressValues t.
Proof. reflexivity. Qed.

Lemma progressValues_logged (A : Type) (k : list Event * Outcome A) :
  progressValues (fst (logged k)) = progressValues (fst k).
Proof.
  unfold logged. destruct k as [t [a|e]]; simpl; [reflexivity|].
  rewrite progressValues_app. simpl. now rewrite app_nil_r.
Qed.

Lemma progressValues_andThen (A : Type) (pre : list Event)
      (k : list Event * Outcome A) :
  progressValues (fst (andThen pre k))
  = progressValues pre ++ progressValues (fst k).
Proof. unfold andThen. simpl. apply progressValues_app. Qed.

Module Part001Facts.
Import Part001.

Section Facts.
Context {NumOps : JsNumber} {Host : JsHost}.
Variable server : Server.
Variable onProgress : bool.
Variable replies : nat -> JobStatusResponse.

(** While the status reads return non-terminal statuses the loop goes
    round: [j] such passes, then the loop from there. *)
Lemma pollLoop_passes_001 (id : jsstring) (j remaining attempts : nat) :
  (forall n, attempts < n <= attempts + j ->
             pollJobStatus server n = Resolved (replies n)
             /\ isTerminal (status (replies n)) = false) ->
  pollLoop server onProgress id (j + remaining) attempts
  = andThen (flat_map (pass onProgress id replies) (seq (S attempts) j))
            (pollLoop server onProgress id remaining (attempts + j)).
Proof.
  revert attempts. induction j as [|j IH]; intros attempts H.
  - simpl. rewrite Nat.add_0_r. unfold andThen. simpl.
    now destruct (pollLoop server onProgress id remaining attempts).
  - destruct (H (S attempts) ltac:(lia)) as [Hr Hs].
    change (S j + remaining) with (S (j + remaining)).
    simpl pollLoop. rewrite Hr.
    rewrite IH by (intros n Hn; apply H; lia).
    replace (S attempts + j) with (attempts + S j) by lia.
    destruct (status (replies (S attempts))); try discriminate;
      unfold andThen; simpl; now rewrite <- !app_assoc.
Qed.

Lemma statusReads_passes_001 (id : jsstring) (first j : nat) :
  statusReads (flat_map (pass onProgress id replies) (seq first j)) = j.
Proof.
  revert first. induction j as [|j IH]; intros first; [reflexivity|].
  cbn [seq flat_map]. rewrite statusReads_app, IH.
  unfold pass, notify. destruct onProgress; reflexivity.
Qed.

Lemma statusReads_prologue_001 : statusReads (prologue onProgress) = 0.
Proof. unfold prologue, notify. destruct onProgress; reflexivity. Qed.

(** After an accepted submission the execution is the events before the
    loop, then the loop, and the [catch] block around both. *)
Lemma fetch_unfold_001 (maxAttempts : nat) (request : EnrollmentRequest)
      (submitResponse : JobSubmitResponse) :
  submitEnrollmentJob server request = Resolved submitResponse ->
  truthy (job_id submitResponse) = true ->
  fetchEnrollmentDataWith server onProgress maxAttempts request
  = logged (andThen (prologue onProgress)
              (pollLoop server onProgress
                 (orElse (job_id submitResponse) []) maxAttempts 0)).
Proof.
  intros Hs Hj. unfold fetchEnrollmentDataWith.
  rewrite Hs, Hj. simpl negb. cbv iota.
  unfold andThen, prologue. simpl fst. simpl snd.
  now rewrite <- !app_assoc.
Qed.

Lemma run_times_out_001 (id : jsstring) (maxAttempts : nat) :
  (forall n, pollJobStatus server n = Resolved (replies n)
             /\ isTerminal (status (replies n)) = false) ->
  logged (andThen (prologue onProgress)
            (pollLoop server onProgress id maxAttempts 0))
  = (prologue onProgress
       ++ flat_map (pass onProgress id replies) (seq 1 maxAttempts)
       ++ [ConsoleError TIMEOUT_MESSAGE],
     Rejected TIMEOUT_MESSAGE).
Proof.
  intros H.
  replace maxAttempts with (maxAttempts + 0) at 1 by lia.
  rewrite pollLoop_passes_001 by (intros n _; apply H).
  unfold logged, andThen. simpl.
  now rewrite app_nil_r, <- app_assoc.
Qed.



Lemma progressValues_notify_001 (p : Z) (m : jsstring) :
  progressValues (notify onProgress p m) = if onProgress then [p] else [].
Proof. unfold notify. now destruct onProgress. Qed.

Lemma onCompleted_silent_001 (r : JobStatusResponse) :
  progressValues (fst (onCompleted server r)) = [].
Proof.
  unfold onCompleted.
  destruct (truthy (csv_data r)); [reflexivity|].
  destruct (truthy (download_url r)); [|reflexivity].
  destruct (fetchUrl server _) as [c|e]; [|reflexivity].
  destruct (negb (ok c)); reflexivity.
Qed.

(** A pass of the loop whose status read returns calls the callback right
    after the read. *)
Lemma pass_notifies_001 (id : jsstring) (remaining attempts : nat)
      (r : JobStatusResponse) :
  pollJobStatus server (S attempts) = Resolved r ->
  exists rest,
    fst (pollLoop server true id (S remaining) attempts)
    = Sleep POLL_INTERVAL_MS :: StatusRead id
        :: OnProgress (shownProgress r) (elapsedMessage (S attempts))
        :: rest.
Proof.
  intros Hr. simpl pollLoop. rewrite Hr.
  eexists. unfold andThen. simpl fst. reflexivity.
Qed.

(** The same exhaustion of the attempt budget in this revision. *)
Lemma fetchEnrollmentData_times_out_001
      (maxAttempts : nat) (request : EnrollmentRequest)
      (submitResponse : JobSubmitResponse) :
  submitEnrollmentJob server request = Resolved submitResponse ->
  truthy (job_id submitResponse) = true ->
  (forall n, pollJobStatus server n = Resolved (replies n)
             /\ isTerminal (status (replies n)) = false) ->
  let job := orElse (job_id submitResponse) [] in
  let run := fetchEnrollmentDataWith server onProgress maxAttempts request in
  snd run = Rejected TIMEOUT_MESSAGE
  /\ fst run
     = prologue onProgress
         ++ flat_map (pass onProgress job replies) (seq 1 maxAttempts)
         ++ [ConsoleError TIMEOUT_MESSAGE]
  /\ statusReads (fst run) = maxAttempts.
Proof.
  intros Hs Hj H job run.
  assert (E : run
              = (prologue onProgress
                   ++ flat_map (pass onProgress job replies)
                               (seq 1 maxAttempts)
                   ++ [ConsoleError TIMEOUT_MESSAGE],
                 Rejected TIMEOUT_MESSAGE)).
  { unfold run. rewrite (fetch_unfold_001 _ _ _ Hs Hj). fold job.
    now apply run_times_out_001. }
  rewrite E. cbn [fst snd].
  repeat split.
  rewrite !statusReads_app, statusReads_prologue_001, statusReads_passes_001.
  unfold statusReads. simpl. lia.
Qed.

End Facts.
End Part001Facts.

Module Part002Facts.
Import Part002.

Section Facts.
Context {NumOps : JsNumber}.
Variable server : Server.
Variable onProgress : bool.
Variable replies : nat -> JobStatusResponse.

(** While the status reads return non-terminal statuses the loop goes
    round: [j] such passes, then the loop from there. *)
Lemma pollLoop_passes_002 (id : jsstring) (j remaining attempts : nat) :
  (forall n, attempts < n <= attempts + j ->
             pollJobStatus server n = Resolved (replies n)
             /\ isTerminal (status (replies n)) = false) ->
  pollLoop server onProgress id (j + remaining) attempts
  = andThen (flat_map (pass onProgress id replies) (seq (S attempts) j))
            (pollLoop server onProgress id remaining (attempts + j)).
Proof.
  revert attempts. induction j as [|j IH]; intros attempts H.
  - simpl. rewrite Nat.add_0_r. unfold andThen. simpl.
    now destruct (pollLoop server onProgress id remaining attempts).
  - destruct (H (S attempts) ltac:(lia)) as [Hr Hs].
    change (S j + remaining) with (S (j + remaining)).
    simpl pollLoop. rewrite Hr.
    rewrite IH by (intros n Hn; apply H; lia).
    replace (S attempts + j) with (attempts + S j) by lia.
    destruct (status (replies (S attempts))); try discriminate;
      unfold andThen; simpl; now rewrite <- !app_assoc.
Qed.

Lemma statusReads_passes_002 (id : jsstring) (first j : nat) :
  statusReads (flat_map (pass onProgress id replies) (seq first j)) = j.
Proof.
  revert first. induction j as [|j IH]; intros first; [reflexivity|].
  cbn [seq flat_map]. rewrite statusReads_app, IH.
  unfold pass, notify. destruct onProgress; reflexivity.
Qed.

Lemma statusReads_prologue_002 : statusReads (prologue onProgress) = 0.
Proof. unfold prologue, notify. destruct onProgress; reflexivity. Qed.

(** After an accepted submission the execution is the events before the
    loop, then the loop, and the [catch] block around both. *)
Lemma fetch_unfold_002 (maxAttempts : nat) (request : EnrollmentRequest)
      (submitResponse : JobSubmitResponse) :
  submitEnrollmentJob server request = Resolved submitResponse ->
  embedded submitResponse = None ->
  truthy (jobId submitResponse) = true ->
  fetchEnrollmentDataWith server onProgress maxAttempts request
  = logged (andThen (prologue onProgress)
              (pollLoop server onProgress
                 (orElse (jobId submitResponse) []) maxAttempts 0)).
Proof.
  intros Hs He Hj. unfold fetchEnrollmentDataWith.
  rewrite Hs, He, Hj. simpl negb. cbv iota.
  unfold andThen, prologue. simpl fst. simpl snd.
  now rewrite <- !app_assoc.
Qed.

Lemma run_times_out_002 (id : jsstring) (maxAttempts : nat) :
  (forall n, pollJobStatus server n = Resolved (replies n)
             /\ isTerminal (status (replies n)) = false) ->
  logged (andThen (prologue onProgress)
            (pollLoop server onProgress id maxAttempts 0))
  = (prologue onProgress
       ++ flat_map (pass onProgress id replies) (seq 1 maxAttempts)
       ++ [ConsoleError TIMEOUT_MESSAGE],
     Rejected TIMEOUT_MESSAGE).
Proof.
  intros H.
  replace maxAttempts with (maxAttempts + 0) at 1 by lia.
  rewrite pollLoop_passes_002 by (intros n _; apply H).
  unfold logged, andThen. simpl.
  now rewrite app_nil_r, <- app_assoc.
Qed.

Lemma run_fails_002 (id : jsstring) (before remaining : nat) :
  (forall n, 1 <= n <= before ->
             pollJobStatus server n = Resolved (replies n)
             /\ isTerminal (status (replies n)) = false) ->
  pollJobStatus server (S before) = Resolved (replies (S before)) ->
  status (replies (S before)) = failed ->
  let text := orElse (message (replies (S before))) (lit "Job failed") in
  logged (andThen (prologue onProgress)
            (pollLoop server onProgress id (before + S remaining) 0))
  = (prologue onProgress
       ++ flat_map (pass onProgress id replies) (seq 1 (S before))
       ++ [ConsoleError text],
     Rejected text).
Proof.
  intros H Hr Hf text.
  rewrite pollLoop_passes_002 by (intros n Hn; apply H; lia).
  simpl Nat.add. simpl pollLoop. rewrite Hr, Hf.
  rewrite seq_S, flat_map_app. simpl flat_map.
  unfold logged, andThen. simpl fst. simpl snd. fold text.
  cbv iota. f_equal. now rewrite <- !app_assoc.
Qed.

(** On a [failed] status the loop stops: the execution has made as many
    status reads as passes, and rejects with the stored message, or with
    the fallback text when the message is missing or empty. *)
Lemma failed_job_rejects_002
      (maxAttempts before : nat) (request : EnrollmentRequest)
      (submitResponse : JobSubmitResponse) :
  submitEnrollmentJob server request = Resolved submitResponse ->
  embedded submitResponse = None ->
  truthy (jobId submitResponse) = true ->
  before < maxAttempts ->
  (forall n, 1 <= n <= before ->
             pollJobStatus server n = Resolved (replies n)
             /\ isTerminal (status (replies n)) = false) ->
  pollJobStatus server (S before) = Resolved (replies (S before)) ->
  status (replies (S before)) = failed ->
  let stored := message (replies (S before)) in
  let run := fetchEnrollmentDataWith server onProgress maxAttempts request in
  snd run = Rejected (orElse stored (lit "Job failed"))
  /\ statusReads (fst run) = S before
  /\ (forall text, stored = Some text -> text <> [] ->
                   snd run = Rejected text)
  /\ (stored = None \/ stored = Some [] ->
      snd run = Rejected (lit "Job failed")).
Proof.
  intros Hs He Hj Hlt H Hr Hf stored run.
  assert (E : run
              = (prologue onProgress
                   ++ flat_map (pass onProgress
                                  (orElse (jobId submitResponse) []) replies)
                               (seq 1 (S before))
                   ++ [ConsoleError (orElse stored (lit "Job failed"))],
                 Rejected (orElse stored (lit "Job failed")))).
  { unfold run. rewrite (fetch_unfold_002 _ _ _ Hs He Hj).
    replace maxAttempts with (before + S (maxAttempts - S before)) by lia.
    now apply run_fails_002. }
  rewrite E. cbn [fst snd].
  split; [reflexivity|]. split; [|split].
  - rewrite !statusReads_app, statusReads_prologue_002,
      statusReads_passes_002.
    unfold statusReads. simpl. lia.
  - intros text Ht Hne. rewrite Ht. now rewrite orElse_stored.
  - intros [Hn|Hn]; now rewrite Hn.
Qed.

Lemma times_out_002
      (maxAttempts : nat) (request : EnrollmentRequest)
      (submitResponse : JobSubmitResponse) :
  submitEnrollmentJob server request = Resolved submitResponse ->
  embedded submitResponse = None ->
  truthy (jobId submitResponse) = true ->
  (forall n, pollJobStatus server n = Resolved (replies n)
             /\ isTerminal (status (replies n)) = false) ->
  let job := orElse (jobId submitResponse) [] in
  let run := fetchEnrollmentDataWith server onProgress maxAttempts request in
  snd run = Rejected TIMEOUT_MESSAGE
  /\ fst run
     = prologue onProgress
         ++ flat_map (pass onProgress job replies) (seq 1 maxAttempts)
         ++ [ConsoleError TIMEOUT_MESSAGE]
  /\ statusReads (fst run) = maxAttempts.
Proof.
  intros Hs He Hj H job run.
  assert (E : run
              = (prologue onProgress
                   ++ flat_map (pass onProgress job replies)
                               (seq 1 maxAttempts)
                   ++ [ConsoleError TIMEOUT_MESSAGE],
                 Rejected TIMEOUT_MESSAGE)).
  { unfold run. rewrite (fetch_unfold_002 _ _ _ Hs He Hj). fold job.
    now apply run_times_out_002. }
  rewrite E. simpl fst. simpl snd.
  repeat split.
  rewrite !statusReads_app, statusReads_prologue_002, statusReads_passes_002.
  unfold statusReads. simpl. lia.
Qed.

Lemma progressValues_notify_002 (p : Z) (m : jsstring) :
  progressValues (notify onProgress p m) = if onProgress then [p] else [].
Proof. unfold notify. now destruct onProgress. Qed.

(** A pass of the loop whose status read returns calls the callback right
    after the read. *)
Lemma pass_notifies_002 (id : jsstring) (remaining attempts : nat)
      (r : JobStatusResponse) :
  pollJobStatus server (S attempts) = Resolved r ->
  exists rest,
    fst (pollLoop server true id (S remaining) attempts)
    = Sleep POLL_INTERVAL_MS :: StatusRead id
        :: OnProgress (shownProgress r (S attempts))
                      (orElse (message r) (elapsedMessage (S attempts)))
        :: rest.
Proof.
  intros Hr. simpl pollLoop. rewrite Hr.
  eexists. unfold andThen. simpl fst. reflexivity.
Qed.

End Facts.

(** C2 (as amended): if every status read returns a non-terminal status,
    [fetchEnrollmentData] sleeps the fixed interval and reads the status
    exactly as many times as the attempt budget allows (150 for
    [MAX_POLL_ATTEMPTS]), and then rejects with the timeout message.  That
    message is not the fallback text of a failed job; an execution that
    ends on a [failed] status rejects with the same error as the timeout
    exactly when the message stored in that status response is the timeout
    text itself, and with a different error otherwise. *)
Theorem fetchEnrollmentData_times_out {NumOps : JsNumber}
        (server : Server) (onProgress : bool)
        (replies : nat -> JobStatusResponse)
        (maxAttempts : nat) (request : EnrollmentRequest)
        (submitResponse : JobSubmitResponse) :
  submitEnrollmentJob server request = Resolved submitResponse ->
  embedded submitResponse = None ->
  truthy (jobId submitResponse) = true ->
  (forall n, pollJobStatus server n = Resolved (replies n)
             /\ isTerminal (status (replies n)) = false) ->
  let job := orElse (jobId submitResponse) [] in
  let run := fetchEnrollmentDataWith server onProgress maxAttempts request in
  snd run = Rejected TIMEOUT_MESSAGE
  /\ fst run
     = prologue onProgress
         ++ flat_map (pass onProgress job replies) (seq 1 maxAttempts)
         ++ [ConsoleError TIMEOUT_MESSAGE]
  /\ statusReads (fst run) = maxAttempts
  /\ fetchEnrollmentData server onProgress request
     = fetchEnrollmentDataWith server onProgress 150 request
  /\ POLL_INTERVAL_MS = 2000
  /\ TIMEOUT_MESSAGE <> lit "Job failed"
  /\ (forall (failing : Server) (answers : nat -> JobStatusResponse)
             (budget before : nat) (failingRequest : EnrollmentRequest)
             (accepted : JobSubmitResponse),
         submitEnrollmentJob failing failingRequest = Resolved accepted ->
         embedded accepted = None ->
         truthy (jobId accepted) = true ->
         before < budget ->
         (forall n, 1 <= n <= before ->
                    pollJobStatus failing n = Resolved (answers n)
                    /\ isTerminal (status (answers n)) = false) ->
         pollJobStatus failing (S before) = Resolved (answers (S before)) ->
         status (answers (S before)) = failed ->
         (snd (fetchEnrollmentDataWith failing onProgress budget
                 failingRequest)
          = snd run
          <-> message (answers (S before)) = Some TIMEOUT_MESSAGE)).
Proof.
  intros Hs He Hj H job run.
  destruct (times_out_002 server onProgress replies maxAttempts request
              submitResponse Hs He Hj H) as [H1 [H2 H3]].
  fold run in H1, H2, H3. fold job in H2.
  split; [exact H1|]. split; [exact H2|]. split; [exact H3|].
  split; [reflexivity|]. split; [reflexivity|].
  split; [exact TIMEOUT_not_job_failed|].
  intros failing answers budget before failingRequest accepted
         Fs Fe Fj Flt Fbefore Fr Ff.
  destruct (failed_job_rejects_002 failing onProgress answers budget before
              failingRequest accepted Fs Fe Fj Flt Fbefore Fr Ff)
    as [Hfail _].
  rewrite Hfail, H1. split.
  - intros E. injection E as E. now apply failed_text_not_timeout.
  - intros ->. reflexivity.
Qed.

End Part002Facts.


(** ** The queue settings *)

(** C9: whatever the stack configuration, the processing queue has a
    dead-letter queue with [maxReceiveCount] 3, and the one event source
    of the worker function reads that processing queue with batch size
    1. *)
Theorem processing_queue_settings (config : Infra.StackConfig) :
  let stack := Infra.newEnrollmentStack config in
  (exists redrive,
      Infra.deadLetterQueue (Infra.processingQueue stack) = Some redrive
      /\ Infra.maxReceiveCount redrive = 3
      /\ Infra.queueName (Infra.queue redrive)
         = lit "gatech-enrollment-dlq-" ++ Infra.environment config
      /\ Infra.deadLetterQueue (Infra.queue redrive) = None)
  /\ map Infra.source (Infra.eventSources (Infra.dataProcessingFunction stack))
     = [Infra.processingQueue stack]
  /\ map Infra.batchSize
         (Infra.eventSources (Infra.dataProcessingFunction stack))
     = [1].
Proof.
  split; [|split; reflexivity].
  eexists. repeat split.
Qed.

(** ** The statements at concrete servers *)

Lemma fetchEnrollmentData_times_out_witness :
  snd (Part002.fetchEnrollmentData (NumOps := IntNumber.ops)
         (server002 busyReplies002) true sampleRequest)
  = Rejected TIMEOUT_MESSAGE
  /\ statusReads
       (fst (Part002.fetchEnrollmentData (NumOps := IntNumber.ops)
               (server002 busyReplies002) true sampleRequest))
     = 150
  /\ statusReads
       (fst (Part002.fetchEnrollmentDataWith (NumOps := IntNumber.ops)
               (server002 busyReplies002) true 3 sampleRequest))
     = 3.
Proof.
  destruct (Part002Facts.fetchEnrollmentData_times_out (NumOps := IntNumber.ops)
              (server002 busyReplies002) true busyReplies002
              150 sampleRequest accepted002
              eq_refl eq_refl eq_refl (fun n => conj eq_refl eq_refl))
    as [H1 [_ [H2 _]]].
  destruct (Part002Facts.fetchEnrollmentData_times_out (NumOps := IntNumber.ops)
              (server002 busyReplies002) true busyReplies002
              3 sampleRequest accepted002
              eq_refl eq_refl eq_refl (fun n => conj eq_refl eq_refl))
    as [_ [_ [H3 _]]].
  split; [exact H1|]. split; [exact H2|exact H3].
Defined.

(** C2 (as stated) fails: a job that fails at its first status read with
    the timeout text as its stored message gives the very error of a job
    that never leaves [processing]. *)
Lemma failed_job_gives_timeout_error :
  Part002.status (impostorReplies002 (NumOps := IntNumber.ops) 1) = failed
  /\ snd (Part002.fetchEnrollmentData (NumOps := IntNumber.ops)
            (server002 impostorReplies002) true sampleRequest)
     = snd (Part002.fetchEnrollmentData (NumOps := IntNumber.ops)
              (server002 busyReplies002) true sampleRequest)
  /\ statusReads
       (fst (Part002.fetchEnrollmentData (NumOps := IntNumber.ops)
               (server002 impostorReplies002) true sampleRequest))
     = 1
  /\ statusReads
       (fst (Part002.fetchEnrollmentData (NumOps := IntNumber.ops)
               (server002 busyReplies002) true sampleRequest))
     = 150.
Proof. vm_compute. repeat split. Qed.


(** * The rest of the client: properties *)

(** ** More on the codec *)

Lemma trimStart_spaces (pre s : jsstring) :
  isAllWhiteSpace pre = true -> trimStart (pre ++ s) = trimStart s.
Proof.
  induction pre as [|c pre IH]; simpl; intros H; [reflexivity|].
  apply andb_true_iff in H as [Hc Hpre]. rewrite Hc. auto.
Qed.

Lemma trimStart_all_spaces (s : jsstring) :
  isAllWhiteSpace s = true -> trimStart s = [].
Proof.
  intros H. rewrite <- (app_nil_r s). now rewrite trimStart_spaces.
Qed.

Lemma isAllWhiteSpace_rev (s : jsstring) :
  isAllWhiteSpace s = true -> isAllWhiteSpace (rev s) = true.
Proof.
  unfold isAllWhiteSpace. rewrite !forallb_forall.
  intros H x Hx. apply H. now apply in_rev.
Qed.

Lemma trimEnd_spaces (s post : jsstring) :
  isAllWhiteSpace post = true -> trimEnd (s ++ post) = trimEnd s.
Proof.
  intros H. unfold trimEnd. rewrite rev_app_distr.
  now rewrite trimStart_spaces by now apply isAllWhiteSpace_rev.
Qed.

Lemma trimStart_keeps_tail (s post : jsstring) :
  trimStart s <> [] -> trimStart (s ++ post) = trimStart s ++ post.
Proof.
  induction s as [|c s IH]; simpl; [congruence|].
  destruct (isWhiteSpace c); [exact IH|reflexivity].
Qed.

(** White space around a text does not change its trimmed form. *)
Lemma trim_surrounded (pre s post : jsstring) :
  isAllWhiteSpace pre = true -> isAllWhiteSpace post = true ->
  trim (pre ++ s ++ post) = trim s.
Proof.
  intros Hpre Hpost. unfold trim. rewrite trimStart_spaces by assumption.
  destruct (trimStart s) as [|c r] eqn:E.
  - assert (Hall : trimStart (s ++ post) = []).
    { clear -E Hpost. induction s as [|x s IH]; simpl in *.
      - now apply trimStart_all_spaces.
      - destruct (isWhiteSpace x); [auto|discriminate]. }
    now rewrite Hall.
  - rewrite trimStart_keeps_tail by (rewrite E; discriminate).
    rewrite E. now apply trimEnd_spaces.
Qed.

Section CodecExtras.
Context {NumOps : JsNumber} {Host : JsHost}.

(** What the decoder returns in terms of the lines of the trimmed text. *)
Lemma parseCSVToRecords_lines (csvData line0 : jsstring)
      (dataLines : list jsstring) :
  split LF (trim csvData) = line0 :: dataLines ->
  parseCSVToRecords csvData
  = if isEmpty line0 then []
    else let headers := map trim (split COMMA line0) in
         map (fun line => decodeRow headers (parseCSVLine line))
             (filter (keepsRow headers) dataLines).
Proof.
  intros Hs. unfold parseCSVToRecords. rewrite Hs.
  destruct dataLines as [|l ls].
  - simpl. now destruct (isEmpty line0).
  - simpl length. simpl Nat.ltb. simpl orb.
    destruct (isEmpty line0); [reflexivity|].
    cbv zeta. now rewrite rowsLoop_filter.
Qed.

(** A text that after trimming has a single line (the empty text, a text
    of white space, a header with no rows) decodes to no records. *)
Theorem parseCSVToRecords_without_rows (csvData : jsstring) :
  includes LF (trim csvData) = false ->
  parseCSVToRecords csvData = [].
Proof.
  intros H. unfold parseCSVToRecords.
  rewrite (split_clean _ _ H). simpl. reflexivity.
Qed.

(** White space and line breaks before and after the text are ignored. *)
Theorem parseCSVToRecords_ignores_surroundings (pre csvData post : jsstring) :
  isAllWhiteSpace pre = true -> isAllWhiteSpace post = true ->
  parseCSVToRecords (pre ++ csvData ++ post) = parseCSVToRecords csvData.
Proof.
  intros Hpre Hpost. unfold parseCSVToRecords.
  now rewrite trim_surrounded.
Qed.

(** An empty line among the rows changes nothing: the text decodes as the
    text without it. *)
Theorem parseCSVToRecords_skips_blank_lines
        (csvData csvData' header : jsstring) (before after : list jsstring) :
  split LF (trim csvData) = header :: before ++ [] :: after ->
  split LF (trim csvData') = header :: before ++ after ->
  parseCSVToRecords csvData = parseCSVToRecords csvData'.
Proof.
  intros H H'.
  rewrite (parseCSVToRecords_lines _ _ _ H),
    (parseCSVToRecords_lines _ _ _ H').
  destruct (isEmpty header); [reflexivity|]. cbv zeta.
  rewrite !filter_app. reflexivity.
Qed.

Lemma prependToFirst_nil (pieces : list jsstring) :
  pieces <> [] -> prependToFirst [] pieces = pieces.
Proof. destruct pieces; [congruence|reflexivity]. Qed.

Lemma parse_unquoted_from (line : jsstring) (result : list jsstring)
      (current : jsstring) :
  includes QUOTE line = false ->
  parseCSVLine_from line result current false
  = result ++ prependToFirst current (split COMMA line).
Proof.
  revert result current.
  induction line as [|c r IH]; intros result current H.
  - simpl. now rewrite app_nil_r.
  - rewrite includes_cons in H. apply orb_false_iff in H as [Hc Hr].
    rewrite N.eqb_sym in Hc. simpl parseCSVLine_from. rewrite Hc.
    simpl split. destruct (N.eqb c COMMA) eqn:E.
    + simpl andb. cbv iota. rewrite (IH _ _ Hr).
      rewrite prependToFirst_nil by apply split_not_nil.
      simpl. now rewrite app_nil_r, <- app_assoc.
    + simpl andb. cbv iota. rewrite (IH _ _ Hr).
      destruct (split COMMA r) as [|h t] eqn:Es.
      * exfalso. now apply (split_not_nil COMMA r).
      * simpl. now rewrite <- app_assoc.
Qed.

(** On a line without a quote character [parseCSVLine] is the plain split
    at commas, the one the decoder applies to the header line. *)
Theorem parseCSVLine_unquoted (line : jsstring) :
  includes QUOTE line = false ->
  parseCSVLine line = split COMMA line.
Proof.
  intros H. unfold parseCSVLine. rewrite parse_unquoted_from by assumption.
  simpl. apply prependToFirst_nil, split_not_nil.
Qed.

Lemma cell_quotable (v : jsvalue) :
  quotable v = true -> cell v = quoteField (raw v).
Proof.
  destruct v as [| |s|n|m]; simpl; try reflexivity.
  - intros H. apply andb_true_iff in H as [Hc Hq].
    apply negb_true_iff in Hc. apply negb_true_iff in Hq.
    unfold quoteField. now rewrite Hc, Hq.
  - intros H. apply andb_true_iff in H as [Hc Hq].
    apply negb_true_iff in Hc. apply negb_true_iff in Hq.
    unfold quoteField. now rewrite Hc, Hq.
Qed.

(** Every row the encoder writes for at least one header reads back, with
    [parseCSVLine], as the texts of its cells, one per header, whatever
    the strings hold (commas, quotes, line feeds, white space); the
    numbers are those whose text has no comma and no quote.  With no
    header at all the row is the empty text, which reads back as one
    empty cell: a row has as many columns as there are headers, but
    never fewer than one. *)
Theorem csvRow_reads_back (headers : list jsstring) (record : object) :
  (forall h, In h headers -> quotable (get record h) = true) ->
  parseCSVLine (csvRow headers record)
  = match headers with
    | [] => [[]]
    | _ :: _ => map (fun h => raw (get record h)) headers
    end
  /\ length (parseCSVLine (csvRow headers record))
     = Nat.max 1 (length headers).
Proof.
  intros Hq. destruct headers as [|h0 hs]; [split; reflexivity|].
  assert (E : parseCSVLine (csvRow (h0 :: hs) record)
              = map (fun h => raw (get record h)) (h0 :: hs)).
  { unfold csvRow.
    rewrite (map_ext_in _ (fun h => quoteField (raw (get record h)))).
    - rewrite <- (map_map (fun h => raw (get record h)) quoteField).
      apply parse_encoded. discriminate.
    - intros h Hin. apply cell_quotable. now apply Hq. }
  split; [exact E|]. rewrite E, length_map. reflexivity.
Qed.

(** *** The shape of a decoded record *)

Lemma keys_set_in (o : object) (k k' : jsstring) (v : jsvalue) :
  In k' (ownNames (set o k v)) <-> k' = k \/ In k' (ownNames o).
Proof.
  induction o as [|[k0 v0] o IH]; simpl.
  - intuition.
  - destruct (str_eqb k0 k) eqn:E; simpl.
    + apply str_eqb_eq in E. subst k0. intuition.
    + rewrite IH. intuition.
Qed.

Lemma NoDup_keys_set (o : object) (k : jsstring) (v : jsvalue) :
  NoDup (ownNames o) -> NoDup (ownNames (set o k v)).
Proof.
  induction o as [|[k0 v0] o IH]; simpl; intros H.
  - constructor; [intros []|constructor].
  - inversion H as [|? ? Hk Ho]; subst.
    destruct (str_eqb k0 k) eqn:E; simpl.
    + constructor; assumption.
    + constructor; [|now apply IH].
      intros Hin. apply keys_set_in in Hin as [->|Hin].
      * now rewrite str_eqb_refl in E.
      * contradiction.
Qed.

Lemma defined_set (o : object) (k : jsstring) (v : jsvalue) :
  isDefined v = true ->
  Forall (fun kv => isDefined (snd kv) = true) o ->
  Forall (fun kv => isDefined (snd kv) = true) (set o k v).
Proof.
  intros Hv. induction o as [|[k0 v0] o IH]; simpl; intros H.
  - now constructor.
  - inversion H as [|? ? H0 Ho]; subst.
    destruct (str_eqb k0 k); constructor; auto.
Qed.

Lemma decodeValue_defined (fieldName : jsvalue) (value : option jsstring) :
  isDefined (decodeValue fieldName value) = true.
Proof.
  unfold decodeValue. destruct (isNumericField fieldName), value as [v|];
    try reflexivity.
  now destruct (negb (isEmpty v)).
Qed.

Lemma forEachHeader_shape (headers : list jsstring) (index : nat)
      (values : list jsstring) (record : object) :
  NoDup (ownNames record) ->
  Forall (fun kv => isDefined (snd kv) = true) record ->
  let result := forEachHeader headers index values record in
  NoDup (ownNames result)
  /\ (forall k, In k (ownNames result)
                <-> In k (ownNames record) \/ In k (map fieldKey headers))
  /\ Forall (fun kv => isDefined (snd kv) = true) result.
Proof.
  revert index record.
  induction headers as [|h r IH]; intros index record Hnd Hdef; simpl.
  - repeat split; try assumption; intuition.
  - destruct (IH (S index)
                (set record (toPropertyKey (fieldNameOf h))
                     (decodeValue (fieldNameOf h)
                        (option_map trim (nth_error values index))))
                (NoDup_keys_set _ _ _ Hnd)
                (defined_set _ _ _ (decodeValue_defined _ _) Hdef))
      as [H1 [H2 H3]].
    repeat split; try assumption.
    + intros Hin. apply H2 in Hin as [Hin|Hin]; [|tauto].
      apply keys_set_in in Hin. intuition.
    + intros [Hin|[Hin|Hin]]; apply H2.
      * left. apply keys_set_in. now right.
      * left. apply keys_set_in. left. now symmetry.
      * now right.
Qed.

(** Every record the decoder returns has one property for each property
    key the headers of the header line stand for and no other, none of
    them twice, and no value of it is [undefined]: all records of a
    result have the same properties.  The key of a header is the field
    name the table gives it, the header itself when it is neither in the
    table nor a name that objects inherit from [Object.prototype], and
    the text of the inherited member otherwise. *)
Theorem parseCSVToRecords_record_shape
        (csvData header : jsstring) (rows : list jsstring) (record : object) :
  split LF (trim csvData) = header :: rows ->
  In record (parseCSVToRecords csvData) ->
  let headers := map trim (split COMMA header) in
  NoDup (keys record)
  /\ (forall k, In k (keys record) <-> In k (map fieldKey headers))
  /\ Forall (fun kv => isDefined (snd kv) = true) record
  /\ (forall h,
         (forall name, In (h, VString name) headerMap -> fieldKey h = name)
         /\ (~ In h (map fst headerMap) ->
             (In h objectPrototypeNames -> fieldKey h = memberText h)
             /\ (~ In h objectPrototypeNames -> fieldKey h = h))).
Proof.
  intros Hs Hin headers.
  rewrite (parseCSVToRecords_lines _ _ _ Hs) in Hin.
  destruct (isEmpty header); [destruct Hin|].
  cbv zeta in Hin. fold headers in Hin.
  apply in_map_iff in Hin as [line [<- _]].
  destruct (forEachHeader_shape headers 0 (parseCSVLine line) []
              (NoDup_nil _) (Forall_nil _)) as [H1 [H2 H3]].
  unfold decodeRow, keys.
  pose proof (orderKeys_perm
                (ownNames (forEachHeader headers 0 (parseCSVLine line) [])))
    as Hp.
  split; [|split; [|split]].
  - apply (Permutation_NoDup (Permutation_sym Hp)). exact H1.
  - intros k. split.
    + intros Hk. apply (Permutation_in _ Hp) in Hk.
      apply H2 in Hk as [[]|Hk]. exact Hk.
    + intros Hk. apply (Permutation_in _ (Permutation_sym Hp)).
      apply H2. now right.
  - exact H3.
  - intros h. unfold fieldKey, fieldNameOf, get. split.
    + intros name Hname.
      assert (Hnd : NoDup (map fst headerMap))
        by (apply distinct_NoDup; reflexivity).
      rewrite (getOwn_In _ _ _ Hnd Hname).
      assert (Hne : name <> []).
      { intros ->. unfold headerMap in Hname. simpl in Hname.
        repeat (destruct Hname as [Hname|Hname];
                [discriminate Hname|]).
        exact Hname. }
      destruct name; [congruence|reflexivity].
    + intros Hown. rewrite (getOwn_missing _ _ Hown). unfold isInherited.
      destruct (existsb (str_eqb h) objectPrototypeNames) eqn:Ex.
      * split; [reflexivity|]. intros Hp'. exfalso. apply Hp'.
        apply existsb_exists in Ex as [x [Hx Ex]].
        apply str_eqb_eq in Ex. now subst x.
      * split; [|reflexivity]. intros Hp'. exfalso.
        apply Bool.not_true_iff_false in Ex. apply Ex.
        apply existsb_exists. exists h. split; [exact Hp'|apply str_eqb_refl].
Qed.

End CodecExtras.

(** ** The round trip of the download *)

Section DownloadRoundTrip.
Context {NumOps : JsNumber} {Host : JsHost}.

Lemma labelOk_facts (k : jsstring) :
  labelOk k = true ->
  k <> [] /\ includes COMMA k = false
  /\ isTrimmed k = true /\ includes LF k = false
  /\ arrayIndex k = None.
Proof.
  unfold labelOk, cleanText. intros H.
  apply andb_true_iff in H as [H Hi].
  apply andb_true_iff in H as [H Hc]. apply andb_true_iff in Hc as [Ht Hl].
  apply andb_true_iff in H as [He Hco].
  apply negb_true_iff in Hl. apply negb_true_iff in Hco.
  repeat split; try assumption.
  - destruct k; discriminate.
  - destruct (arrayIndex k); [discriminate|reflexivity].
Qed.

(** A well-formed property is under a header that names its field by a
    string. *)
Lemma labelledOk_named (kv : jsstring * jsvalue) :
  labelledOk kv ->
  exists name, fieldNameOf (fst kv) = VString name
               /\ fieldKey (fst kv) = name /\ fieldOk (name, snd kv).
Proof.
  unfold labelledOk, namedField, fieldKey.
  destruct (fieldNameOf (fst kv)) as [| |s|n|m]; try contradiction.
  intros H. exists s. repeat split. exact H.
Qed.

Lemma csvRow_labelled (o : object) :
  NoDup (ownNames o) -> Forall labelledOk o ->
  csvRow (ownNames o) o = join [COMMA] (map quoteField (rawCells o)).
Proof.
  intros Hnd Hok. unfold csvRow, rawCells.
  rewrite <- (map_map (get o) cell), (get_keys o Hnd).
  f_equal. rewrite !map_map.
  apply map_ext_in. intros kv Hin.
  rewrite Forall_forall in Hok.
  destruct (labelledOk_named kv (Hok kv Hin)) as [name [_ [_ H]]].
  apply (cell_raw (name, snd kv)). exact H.
Qed.

Lemma forEach_renamed (entries : object) (pre : list jsstring)
      (record : object) :
  NoDup (ownNames record ++ map fieldKey (ownNames entries)) ->
  Forall labelledOk entries ->
  forEachHeader (ownNames entries) (length pre) (pre ++ rawCells entries)
                record
  = record ++ rename entries.
Proof.
  revert pre record.
  induction entries as [|[k v] es IH]; intros pre record Hnd Hok.
  - simpl. now rewrite app_nil_r.
  - inversion Hok as [|? ? Hkv Hes]; subst.
    change (ownNames ((k, v) :: es)) with (k :: ownNames es) in *.
    change (rawCells ((k, v) :: es)) with (raw v :: rawCells es).
    change (rename ((k, v) :: es)) with ((fieldKey k, v) :: rename es).
    simpl map in Hnd. cbn [forEachHeader].
    rewrite nth_error_app2, Nat.sub_diag by lia. simpl nth_error.
    simpl option_map.
    destruct (labelledOk_named _ Hkv) as [name [Hname [Hkey Hfield]]].
    cbn [fst snd] in Hname, Hkey, Hfield.
    rewrite Hname. cbn [toPropertyKey]. rewrite Hkey in *.
    rewrite (decodeValue_raw name v Hfield).
    rewrite set_fresh.
    + replace (pre ++ raw v :: rawCells es)
        with ((pre ++ [raw v]) ++ rawCells es)
        by now rewrite <- app_assoc.
      replace (S (length pre)) with (length (pre ++ [raw v]))
        by (rewrite length_app; simpl; lia).
      rewrite IH; [now rewrite <- app_assoc| |assumption].
      unfold ownNames at 1. rewrite map_app. simpl map.
      rewrite <- app_assoc. exact Hnd.
    + intros Hin. apply NoDup_remove_2 in Hnd.
      apply Hnd. apply in_or_app. now left.
Qed.

Lemma labelsOk_facts (ks : list jsstring) :
  labelsOk ks = true ->
  2 <= length ks /\ NoDup (map fieldKey ks) /\ NoDup ks
  /\ Forall (fun k => labelOk k = true) ks.
Proof.
  unfold labelsOk. intros H.
  apply andb_true_iff in H as [H Hk]. apply andb_true_iff in H as [Hl Hd].
  assert (Hnd : NoDup (map fieldKey ks)) by now apply distinct_NoDup.
  repeat split.
  - now apply Nat.leb_le.
  - exact Hnd.
  - now apply NoDup_map_inv in Hnd.
  - apply Forall_forall. now apply forallb_forall.
Qed.

Lemma labelsOk_order (ks : list jsstring) :
  labelsOk ks = true -> orderKeys ks = ks.
Proof.
  intros H. destruct (labelsOk_facts _ H) as [_ [_ [_ Hk]]].
  apply orderKeys_plain. eapply Forall_impl; [|exact Hk].
  intros k Hok. now destruct (labelOk_facts _ Hok) as [_ [_ [_ [_ Hi]]]].
Qed.

Lemma row_facts_labelled (o : object) :
  labelsOk (ownNames o) = true -> Forall labelledOk o ->
  let row := csvRow (ownNames o) o in
  row <> [] /\ includes LF row = false /\ endsClean row = true
  /\ keepsRow (ownNames o) row = true
  /\ decodeRow (ownNames o) (parseCSVLine row) = rename o.
Proof.
  intros Hks Hok row.
  destruct (labelsOk_facts _ Hks) as [Hlen [Hndf [Hnd Hkeys]]].
  assert (Hrow : row = join [COMMA] (map quoteField (rawCells o)))
    by now apply csvRow_labelled.
  assert (Hcells : length (rawCells o) = length (ownNames o))
    by (unfold rawCells, ownNames; now rewrite !length_map).
  assert (Hne : row <> []).
  { rewrite Hrow. destruct (rawCells o) as [|c1 [|c2 cs]] eqn:E;
      simpl in Hcells; try lia.
    simpl map. apply join_sep_not_nil. discriminate. }
  assert (Hparse : parseCSVLine row = rawCells o).
  { rewrite Hrow. apply parse_encoded.
    intros E. rewrite E in Hcells. simpl in Hcells. lia. }
  repeat split.
  - exact Hne.
  - rewrite Hrow. apply includes_join; [reflexivity|].
    unfold rawCells. rewrite map_map. apply Forall_map.
    eapply Forall_impl; [|exact Hok].
    intros kv Hkv. apply quoteField_no_LF.
    destruct (labelledOk_named kv Hkv) as [name [_ [_ H]]].
    exact (raw_no_LF (name, snd kv) H).
  - rewrite Hrow. apply endsClean_join_cells;
      [discriminate|reflexivity|].
    unfold rawCells. rewrite map_map. apply Forall_map.
    eapply Forall_impl; [|exact Hok].
    intros kv Hkv. apply quoteField_endsClean.
    destruct (labelledOk_named kv Hkv) as [name [_ [_ H]]].
    exact (raw_trimmed (name, snd kv) H).
  - unfold keepsRow. rewrite Hparse, Hcells, Nat.eqb_refl.
    destruct row; [congruence|reflexivity].
  - rewrite Hparse. unfold decodeRow.
    apply (forEach_renamed o [] []); simpl; assumption.
Qed.

(** Objects that share well-formed headers, in the same order, and have
    well-formed values are decoded back from their encoding, each property
    under the field name of its header. *)
Lemma roundtrip_labelled (ks : list jsstring) (os : list object) :
  labelsOk ks = true ->
  os <> [] ->
  Forall (fun o => ownNames o = ks /\ Forall labelledOk o) os ->
  parseCSVToRecords (recordsToCSV os) = map rename os.
Proof.
  intros Hks Hne Hos.
  destruct (labelsOk_facts _ Hks) as [Hlen [_ [Hnd Hkeys]]].
  destruct os as [|o0 os']; [congruence|]. clear Hne.
  assert (Hk0 : keys o0 = ks).
  { unfold keys. inversion Hos as [|? ? [H _] _]. rewrite H.
    now apply labelsOk_order. }
  unfold recordsToCSV. cbv zeta. rewrite Hk0.
  set (headerLine := join [COMMA] ks).
  set (rowsText := map (csvRow ks) (o0 :: os')).
  assert (Hrows : Forall (fun o =>
             let row := csvRow ks o in
             row <> [] /\ includes LF row = false /\ endsClean row = true
             /\ keepsRow ks row = true
             /\ decodeRow ks (parseCSVLine row) = rename o) (o0 :: os')).
  { eapply Forall_impl; [|exact Hos].
    intros o [Hko Hfo]. rewrite <- Hko.
    apply row_facts_labelled; [now rewrite Hko|exact Hfo]. }
  assert (HkF : Forall (fun k => k <> [] /\ includes COMMA k = false
                                 /\ isTrimmed k = true
                                 /\ includes LF k = false) ks).
  { eapply Forall_impl; [|exact Hkeys]. intros k Hk.
    destruct (labelOk_facts _ Hk) as [H1 [H2 [H3 [H4 _]]]].
    repeat split; assumption. }
  destruct ks as [|k1 [|k2 ks']]; simpl in Hlen; try lia.
  assert (Hh_ne : headerLine <> [])
    by (apply join_sep_not_nil; discriminate).
  assert (Hh_lf : includes LF headerLine = false).
  { apply includes_join; [reflexivity|].
    eapply Forall_impl; [|exact HkF]. intros k H. apply H. }
  assert (Hh_start : startsClean headerLine = true).
  { inversion HkF as [|? ? [Hn [_ [Ht _]]] _]; subst.
    apply startsClean_join; [exact Hn|].
    now apply andb_true_iff in Ht as [Ht _]. }
  assert (Hh_end : endsClean headerLine = true).
  { apply endsClean_join_cells; [discriminate|reflexivity|].
    eapply Forall_impl; [|exact HkF].
    intros k [_ [_ [Ht _]]]. now apply andb_true_iff in Ht as [_ Ht]. }
  assert (Hheaders : map trim (split COMMA headerLine) = k1 :: k2 :: ks').
  { unfold headerLine. rewrite split_join.
    - clear -HkF. induction HkF as [|k l [_ [_ [Ht _]]] _ IH];
        [reflexivity|].
      simpl. now rewrite (trim_trimmed _ Ht), IH.
    - discriminate.
    - eapply Forall_impl; [|exact HkF]. intros k H. apply H. }
  assert (Htrim : trim (join [LF] (headerLine :: rowsText))
                  = join [LF] (headerLine :: rowsText)).
  { apply trim_trimmed. unfold isTrimmed. apply andb_true_iff. split.
    - now apply startsClean_join.
    - apply endsClean_join_lines. constructor; [now split|].
      unfold rowsText. apply Forall_map.
      eapply Forall_impl; [|exact Hrows].
      intros o [H1 [_ [H3 _]]]. now split. }
  assert (Hsplit : split LF (join [LF] (headerLine :: rowsText))
                   = headerLine :: rowsText).
  { apply split_join; [discriminate|].
    constructor; [exact Hh_lf|].
    unfold rowsText. apply Forall_map.
    eapply Forall_impl; [|exact Hrows].
    intros o [_ [H2 _]]. exact H2. }
  rewrite (parseCSVToRecords_rows _ headerLine rowsText).
  - cbv zeta. rewrite Hheaders.
    rewrite filter_all.
    + unfold rowsText. rewrite map_map.
      clear -Hrows. induction Hrows as [|o l [_ [_ [_ [_ H]]]] _ IH];
        [reflexivity|].
      simpl. now rewrite H, IH.
    + unfold rowsText. apply Forall_map.
      eapply Forall_impl; [|exact Hrows].
      intros o [_ [_ [_ [H _]]]]. exact H.
  - now rewrite Htrim.
  - discriminate.
  - exact Hh_ne.
Qed.

Lemma keys_csvRecord (r : EnrollmentRecord) :
  ownNames (csvRecord r) = recordLabels.
Proof. reflexivity. Qed.

Lemma recordLabels_ok : labelsOk recordLabels = true.
Proof. vm_compute. reflexivity. Qed.

Lemma rename_csvRecord (r : EnrollmentRecord) :
  rename (csvRecord r) = toObject r.
Proof. reflexivity. Qed.

Lemma labelled_from (k name : jsstring) (v : jsvalue) :
  namedField k = Some name -> fieldOk (name, v) -> labelledOk (k, v).
Proof. intros Hk H. unfold labelledOk. cbn [fst snd]. now rewrite Hk. Qed.

Lemma csvRecord_labelledOk (r : EnrollmentRecord) :
  recordRoundTrips r -> Forall labelledOk (csvRecord r).
Proof.
  intros [Ht Hn]. unfold textFields in Ht. unfold numericValues in Hn.
  repeat match goal with
         | H : Forall _ (_ :: _) |- _ =>
             let a := fresh "Ha" in
             let b := fresh "Hb" in
             apply Forall_cons_iff in H as [a b]
         end.
  unfold csvRecord.
  repeat (apply Forall_cons;
          [ eapply labelled_from;
            [ reflexivity
            | first [ apply nullable_fieldOk; [reflexivity|assumption]
                    | split; [reflexivity|assumption] ] ] | ]).
  apply Forall_nil.
Qed.

(** With no results [handleDownload] downloads nothing.  With results
    it downloads a text, with the labels of [headerMap] as its header
    row, that decodes back to the records it was made of, each value under
    its field name again. *)
Theorem handleDownload_roundtrip :
  handleDownload [] = None
  /\ (forall results : list EnrollmentRecord,
         results <> [] ->
         Forall recordRoundTrips results ->
         exists csv,
           handleDownload results = Some csv
           /\ csv = recordsToCSV (map csvRecord results)
           /\ parseCSVToRecords csv = map toObject results).
Proof.
  split; [reflexivity|].
  intros results Hne H. destruct results as [|r rs]; [congruence|].
  eexists. split; [reflexivity|]. split; [reflexivity|].
  rewrite (roundtrip_labelled recordLabels).
  - rewrite map_map. apply map_ext. intros x. apply rename_csvRecord.
  - exact recordLabels_ok.
  - discriminate.
  - apply Forall_map. eapply Forall_impl; [|exact H].
    intros x Hx. split; [apply keys_csvRecord|now apply csvRecord_labelledOk].
Qed.

End DownloadRoundTrip.

(** ** More on the polling client *)






Lemma snd_andThen (A : Type) (pre : list Event)
      (k : list Event * Outcome A) :
  snd (andThen pre k) = snd k.
Proof. reflexivity. Qed.



Lemma snd_logged (A : Type) (k : list Event * Outcome A) :
  snd (logged k) = snd k.
Proof. unfold logged. now destruct k as [t [a|e]]. Qed.



Module Part001More.
Import Part001.

Section More.
Context {NumOps : JsNumber} {Host : JsHost}.
Variable server : Server.
Variable onProgress : bool.
Variable replies : nat -> JobStatusResponse.





(** A submission that is rejected, or accepted without a job id, ends the
    execution at once: no sleep, no status read. *)
Lemma fetch_fails_fast_001 (maxAttempts : nat) (request : EnrollmentRequest) :
  let run := fetchEnrollmentDataWith server onProgress maxAttempts request in
  (forall e, submitEnrollmentJob server request = Rejected e ->
             run = (notify onProgress 0 (lit "Submitting request...")
                      ++ [SubmitJob; ConsoleError e],
                    Rejected e))
  /\ (forall submitResponse,
         submitEnrollmentJob server request = Resolved submitResponse ->
         truthy (job_id submitResponse) = false ->
         run = (notify onProgress 0 (lit "Submitting request...")
                  ++ [SubmitJob;
                      ConsoleError (lit "No job ID returned from server")],
                Rejected (lit "No job ID returned from server"))).
Proof.
  cbv zeta. unfold fetchEnrollmentDataWith. split.
  - intros e He. rewrite He. unfold logged, andThen. simpl.
    now rewrite app_nil_r, <- app_assoc.
  - intros sr Hs Hj. rewrite Hs, Hj. unfold logged, andThen. simpl.
    now rewrite app_nil_r, <- app_assoc.
Qed.

(** After passes with a non-terminal status, a pass that reads
    [completed] calls the callback with 100 and goes on to the result. *)
Lemma run_completes_001 (id : jsstring) (before remaining : nat) :
  (forall n, 1 <= n <= before ->
             pollJobStatus server n = Resolved (replies n)
             /\ isTerminal (status (replies n)) = false) ->
  pollJobStatus server (S before) = Resolved (replies (S before)) ->
  status (replies (S before)) = completed ->
  andThen (prologue onProgress)
          (pollLoop server onProgress id (before + S remaining) 0)
  = andThen (prologue onProgress
               ++ flat_map (pass onProgress id replies) (seq 1 (S before))
               ++ notify onProgress 100 (lit "Complete!"))
            (onCompleted server (replies (S before))).
Proof.
  intros H Hr Hc.
  rewrite (Part001Facts.pollLoop_passes_001 server onProgress replies)
    by (intros n Hn; apply H; lia).
  simpl Nat.add. simpl pollLoop. rewrite Hr, Hc.
  rewrite seq_S, flat_map_app. simpl flat_map.
  unfold andThen. cbn [fst snd]. f_equal.
  rewrite app_nil_r. repeat rewrite <- app_assoc. reflexivity.
Qed.

(** A pass whose status read is rejected ends the execution with that
    error: the callback is not called for the pass and no read follows. *)
Lemma fetch_read_error_001
        (maxAttempts before : nat) (request : EnrollmentRequest)
        (submitResponse : JobSubmitResponse) (e : jsstring) :
  submitEnrollmentJob server request = Resolved submitResponse ->
  truthy (job_id submitResponse) = true ->
  before < maxAttempts ->
  (forall n, 1 <= n <= before ->
             pollJobStatus server n = Resolved (replies n)
             /\ isTerminal (status (replies n)) = false) ->
  pollJobStatus server (S before) = Rejected e ->
  let id := orElse (job_id submitResponse) [] in
  fetchEnrollmentDataWith server onProgress maxAttempts request
  = (prologue onProgress
       ++ flat_map (pass onProgress id replies) (seq 1 before)
       ++ [Sleep POLL_INTERVAL_MS; StatusRead id; ConsoleError e],
     Rejected e).
Proof.
  intros Hs Hj Hlt H Hr id.
  rewrite (Part001Facts.fetch_unfold_001 _ _ _ _ _ Hs Hj). fold id.
  replace maxAttempts with (before + S (maxAttempts - S before)) by lia.
  rewrite (Part001Facts.pollLoop_passes_001 server onProgress replies)
    by (intros n Hn; apply H; lia).
  simpl Nat.add. simpl pollLoop. rewrite Hr.
  unfold logged, andThen. cbn [fst snd]. f_equal.
  now rewrite <- !app_assoc.
Qed.

Lemma fetch_completed_001
      (maxAttempts before : nat) (request : EnrollmentRequest)
      (submitResponse : JobSubmitResponse) :
  submitEnrollmentJob server request = Resolved submitResponse ->
  truthy (job_id submitResponse) = true ->
  before < maxAttempts ->
  (forall n, 1 <= n <= before ->
             pollJobStatus server n = Resolved (replies n)
             /\ isTerminal (status (replies n)) = false) ->
  pollJobStatus server (S before) = Resolved (replies (S before)) ->
  status (replies (S before)) = completed ->
  fetchEnrollmentDataWith server onProgress maxAttempts request
  = logged
      (andThen (prologue onProgress
                  ++ flat_map (pass onProgress
                                 (orElse (job_id submitResponse) []) replies)
                              (seq 1 (S before))
                  ++ notify onProgress 100 (lit "Complete!"))
               (onCompleted server (replies (S before)))).
Proof.
  intros Hs Hj Hlt H Hr Hc.
  rewrite (Part001Facts.fetch_unfold_001 _ _ _ _ _ Hs Hj).
  replace maxAttempts with (before + S (maxAttempts - S before)) by lia.
  now rewrite run_completes_001.
Qed.

(** When a status read returns [completed] with CSV text in [csv_data],
    the execution calls the callback with 100 and resolves with the
    records decoded from that text; it makes no further read and no
    download, whether or not a [download_url] is present as well. *)
Theorem fetch_inline_csv_001
        (maxAttempts before : nat) (request : EnrollmentRequest)
        (submitResponse : JobSubmitResponse) (csv : jsstring) :
  submitEnrollmentJob server request = Resolved submitResponse ->
  truthy (job_id submitResponse) = true ->
  before < maxAttempts ->
  (forall n, 1 <= n <= before ->
             pollJobStatus server n = Resolved (replies n)
             /\ isTerminal (status (replies n)) = false) ->
  pollJobStatus server (S before) = Resolved (replies (S before)) ->
  status (replies (S before)) = completed ->
  csv_data (replies (S before)) = Some csv ->
  csv <> [] ->
  fetchEnrollmentDataWith server onProgress maxAttempts request
  = (prologue onProgress
       ++ flat_map (pass onProgress (orElse (job_id submitResponse) [])
                      replies)
                   (seq 1 (S before))
       ++ notify onProgress 100 (lit "Complete!"),
     Resolved {| success := true;
                 data := parseCSVToRecords csv;
                 fileName := lit "enrollment_data.csv";
                 message := Some (lit "Data retrieved successfully") |}).
Proof.
  intros Hs Hj Hlt H Hr Hc Hcsv Hne.
  rewrite (fetch_completed_001 _ _ _ _ Hs Hj Hlt H Hr Hc).
  unfold onCompleted. rewrite Hcsv.
  destruct csv as [|c csv]; [congruence|].
  unfold logged, andThen, csvResult. simpl.
  now rewrite app_nil_r.
Qed.

(** When a status read returns [completed] with no CSV text but a
    [download_url], the execution fetches that URL once: a response that
    is ok resolves with the records decoded from its body, one that is not
    ok rejects with a fixed message, and a failed fetch rejects with its
    own error. *)
Theorem fetch_download_001
        (maxAttempts before : nat) (request : EnrollmentRequest)
        (submitResponse : JobSubmitResponse) (url : jsstring) :
  submitEnrollmentJob server request = Resolved submitResponse ->
  truthy (job_id submitResponse) = true ->
  before < maxAttempts ->
  (forall n, 1 <= n <= before ->
             pollJobStatus server n = Resolved (replies n)
             /\ isTerminal (status (replies n)) = false) ->
  pollJobStatus server (S before) = Resolved (replies (S before)) ->
  status (replies (S before)) = completed ->
  truthy (csv_data (replies (S before))) = false ->
  download_url (replies (S before)) = Some url ->
  url <> [] ->
  let done :=
    prologue onProgress
      ++ flat_map (pass onProgress (orElse (job_id submitResponse) [])
                     replies)
                  (seq 1 (S before))
      ++ notify onProgress 100 (lit "Complete!") in
  fetchEnrollmentDataWith server onProgress maxAttempts request
  = match fetchUrl server url with
    | Rejected e => (done ++ [Download url; ConsoleError e], Rejected e)
    | Resolved csvResponse =>
        if ok csvResponse
        then (done ++ [Download url],
              Resolved {| success := true;
                          data := parseCSVToRecords (text csvResponse);
                          fileName := lit "enrollment_data.csv";
                          message :=
                            Some (lit "Data downloaded successfully") |})
        else (done ++ [Download url;
                       ConsoleError (lit "Failed to download CSV file")],
              Rejected (lit "Failed to download CSV file"))
    end.
Proof.
  intros Hs Hj Hlt H Hr Hc Hcsv Hurl Hne done.
  rewrite (fetch_completed_001 _ _ _ _ Hs Hj Hlt H Hr Hc). fold done.
  unfold onCompleted. rewrite Hcsv, Hurl.
  destruct url as [|c url]; [congruence|].
  cbn [truthy orElse].
  destruct (fetchUrl server (c :: url)) as [r|e].
  - destruct (ok r); unfold logged, andThen, csvResult; cbn [fst snd negb];
      [reflexivity|]. now rewrite <- app_assoc.
  - unfold logged, andThen. cbn [fst snd]. now rewrite <- app_assoc.
Qed.

(** When a status read returns [completed] with neither CSV text nor a
    download URL, the execution rejects, after it has called the callback
    with 100. *)
Theorem fetch_completed_without_data_001
        (maxAttempts before : nat) (request : EnrollmentRequest)
        (submitResponse : JobSubmitResponse) :
  submitEnrollmentJob server request = Resolved submitResponse ->
  truthy (job_id submitResponse) = true ->
  before < maxAttempts ->
  (forall n, 1 <= n <= before ->
             pollJobStatus server n = Resolved (replies n)
             /\ isTerminal (status (replies n)) = false) ->
  pollJobStatus server (S before) = Resolved (replies (S before)) ->
  status (replies (S before)) = completed ->
  truthy (csv_data (replies (S before))) = false ->
  truthy (download_url (replies (S before))) = false ->
  fetchEnrollmentDataWith server onProgress maxAttempts request
  = (prologue onProgress
       ++ flat_map (pass onProgress (orElse (job_id submitResponse) [])
                      replies)
                   (seq 1 (S before))
       ++ notify onProgress 100 (lit "Complete!")
       ++ [ConsoleError (lit "Job completed but no data returned")],
     Rejected (lit "Job completed but no data returned")).
Proof.
  intros Hs Hj Hlt H Hr Hc Hcsv Hurl.
  rewrite (fetch_completed_001 _ _ _ _ Hs Hj Hlt H Hr Hc).
  unfold onCompleted. rewrite Hcsv, Hurl.
  unfold logged, andThen. cbn [fst snd].
  rewrite app_nil_r. now rewrite <- !app_assoc.
Qed.

End More.
End Part001More.

Module Part002More.
Import Part002.

Section More.
Context {NumOps : JsNumber}.
Variable server : Server.
Variable onProgress : bool.
Variable replies : nat -> JobStatusResponse.




Lemma fetch_fails_fast_002 (maxAttempts : nat) (request : EnrollmentRequest) :
  let run := fetchEnrollmentDataWith server onProgress maxAttempts request in
  (forall e, submitEnrollmentJob server request = Rejected e ->
             run = (notify onProgress 0 (lit "Submitting request...")
                      ++ [SubmitJob; ConsoleError e],
                    Rejected e))
  /\ (forall submitResponse,
         submitEnrollmentJob server request = Resolved submitResponse ->
         embedded submitResponse = None ->
         truthy (jobId submitResponse) = false ->
         run = (notify onProgress 0 (lit "Submitting request...")
                  ++ [SubmitJob;
                      ConsoleError (lit "No job ID returned from server")],
                Rejected (lit "No job ID returned from server"))).
Proof.
  cbv zeta. unfold fetchEnrollmentDataWith. split.
  - intros e He. rewrite He. unfold logged, andThen. simpl.
    now rewrite app_nil_r, <- app_assoc.
  - intros sr Hs He Hj. rewrite Hs, He, Hj. unfold logged, andThen. simpl.
    now rewrite app_nil_r, <- app_assoc.
Qed.

Lemma fast_path_002
      (maxAttempts : nat) (request : EnrollmentRequest)
      (submitResponse : JobSubmitResponse) (r : EnrollmentResponse) :
  submitEnrollmentJob server request = Resolved submitResponse ->
  embedded submitResponse = Some r ->
  fetchEnrollmentDataWith server onProgress maxAttempts request
  = (notify onProgress 0 (lit "Submitting request...") ++ [SubmitJob],
     Resolved r).
Proof.
  intros Hs He. unfold fetchEnrollmentDataWith. rewrite Hs, He.
  unfold logged, andThen. simpl. now rewrite app_nil_r.
Qed.

(** When the answer to the submission already carries the result (it has
    a [data] and a [success] property), the execution returns it as it is:
    the callback has been called once, with 0, and no status is read,
    whether or not the answer has a job id. *)
Theorem fetch_fast_path_002
        (maxAttempts : nat) (request : EnrollmentRequest)
        (submitResponse : JobSubmitResponse) (r : EnrollmentResponse) :
  submitEnrollmentJob server request = Resolved submitResponse ->
  embedded submitResponse = Some r ->
  fetchEnrollmentDataWith server onProgress maxAttempts request
  = (notify onProgress 0 (lit "Submitting request...") ++ [SubmitJob],
     Resolved r).
Proof. apply fast_path_002. Qed.

Lemma fetch_read_error_002
      (maxAttempts before : nat) (request : EnrollmentRequest)
      (submitResponse : JobSubmitResponse) (e : jsstring) :
  submitEnrollmentJob server request = Resolved submitResponse ->
  embedded submitResponse = None ->
  truthy (jobId submitResponse) = true ->
  before < maxAttempts ->
  (forall n, 1 <= n <= before ->
             pollJobStatus server n = Resolved (replies n)
             /\ isTerminal (status (replies n)) = false) ->
  pollJobStatus server (S before) = Rejected e ->
  let id := orElse (jobId submitResponse) [] in
  fetchEnrollmentDataWith server onProgress maxAttempts request
  = (prologue onProgress
       ++ flat_map (pass onProgress id replies) (seq 1 before)
       ++ [Sleep POLL_INTERVAL_MS; StatusRead id; ConsoleError e],
     Rejected e).
Proof.
  intros Hs He Hj Hlt H Hr id.
  rewrite (Part002Facts.fetch_unfold_002 _ _ _ _ _ Hs He Hj). fold id.
  replace maxAttempts with (before + S (maxAttempts - S before)) by lia.
  rewrite (Part002Facts.pollLoop_passes_002 server onProgress replies)
    by (intros n Hn; apply H; lia).
  simpl Nat.add. simpl pollLoop. rewrite Hr.
  unfold logged, andThen. cbn [fst snd]. f_equal.
  now rewrite <- !app_assoc.
Qed.

(** When a status read returns [completed], the execution calls the
    callback with 100 and resolves with the [result] of that response as
    it is; without a [result] it rejects.  No further read is made. *)
Theorem fetch_completed_002
        (maxAttempts before : nat) (request : EnrollmentRequest)
        (submitResponse : JobSubmitResponse) :
  submitEnrollmentJob server request = Resolved submitResponse ->
  embedded submitResponse = None ->
  truthy (jobId submitResponse) = true ->
  before < maxAttempts ->
  (forall n, 1 <= n <= before ->
             pollJobStatus server n = Resolved (replies n)
             /\ isTerminal (status (replies n)) = false) ->
  pollJobStatus server (S before) = Resolved (replies (S before)) ->
  status (replies (S before)) = completed ->
  let done :=
    prologue onProgress
      ++ flat_map (pass onProgress (orElse (jobId submitResponse) [])
                     replies)
                  (seq 1 (S before))
      ++ notify onProgress 100 (lit "Complete!") in
  fetchEnrollmentDataWith server onProgress maxAttempts request
  = match result (replies (S before)) with
    | Some r => (done, Resolved r)
    | None =>
        (done ++ [ConsoleError (lit "Job completed but no result returned")],
         Rejected (lit "Job completed but no result returned"))
    end.
Proof.
  intros Hs He Hj Hlt H Hr Hc done.
  rewrite (Part002Facts.fetch_unfold_002 _ _ _ _ _ Hs He Hj).
  replace maxAttempts with (before + S (maxAttempts - S before)) by lia.
  rewrite (Part002Facts.pollLoop_passes_002 server onProgress replies)
    by (intros n Hn; apply H; lia).
  simpl Nat.add. simpl pollLoop. rewrite Hr, Hc.
  unfold done. rewrite seq_S, flat_map_app. simpl flat_map.
  destruct (result (replies (S before))) as [r|];
    unfold logged, andThen; cbn [fst snd]; f_equal;
    rewrite ?app_nil_r; repeat rewrite <- app_assoc; reflexivity.
Qed.

End More.
End Part002More.


(** ** The store *)

Module StoreFacts.
Import Store.

(** What [Math.min(100, Math.max(0, p))] is: [p] brought to the nearer of
    the two bounds, [NaN] staying [NaN]. *)
Lemma clamp_spec (p : MathNumber.num) :
  let stored :=
    MathNumber.min (MathNumber.ofZ 100)
                   (MathNumber.max (MathNumber.ofZ 0) p) in
  match p with
  | MathNumber.NaN => stored = MathNumber.NaN
  | MathNumber.NegInfinity => stored = MathNumber.ofZ 0
  | MathNumber.Infinity => stored = MathNumber.ofZ 100
  | MathNumber.Finite q =>
      (QArith_base.Qlt q (QArith_base.inject_Z 0) ->
       stored = MathNumber.ofZ 0)
      /\ (QArith_base.Qle (QArith_base.inject_Z 0) q ->
          QArith_base.Qlt q (QArith_base.inject_Z 100) ->
          stored = MathNumber.Finite q)
      /\ (QArith_base.Qle (QArith_base.inject_Z 100) q ->
          stored = MathNumber.ofZ 100)
  end.
Proof.
  destruct p as [| |q|]; try reflexivity.
  cbv zeta. unfold MathNumber.min, MathNumber.max, MathNumber.ofZ.
  cbn [MathNumber.isNaN MathNumber.leb orb].
  destruct (QArith_base.Qle_bool (QArith_base.inject_Z 0) q) eqn:E0;
    cbn [MathNumber.isNaN MathNumber.leb orb].
  - apply QArith_base.Qle_bool_iff in E0.
    destruct (QArith_base.Qle_bool (QArith_base.inject_Z 100) q) eqn:E1.
    + apply QArith_base.Qle_bool_iff in E1. split; [|split].
      * intros H. exfalso. exact (QArith_base.Qlt_not_le _ _ H E0).
      * intros _ H. exfalso. exact (QArith_base.Qlt_not_le _ _ H E1).
      * reflexivity.
    + split; [|split].
      * intros H. exfalso. exact (QArith_base.Qlt_not_le _ _ H E0).
      * reflexivity.
      * intros H. apply QArith_base.Qle_bool_iff in H. congruence.
  - change (QArith_base.Qle_bool (QArith_base.inject_Z 100)
              (QArith_base.inject_Z 0)) with false.
    split; [reflexivity|split].
    + intros H. apply QArith_base.Qle_bool_iff in H. congruence.
    + intros H. exfalso.
      assert (H0 : QArith_base.Qle (QArith_base.inject_Z 0) q).
      { eapply QArith_base.Qle_trans; [|exact H].
        unfold QArith_base.Qle. simpl. lia. }
      apply QArith_base.Qle_bool_iff in H0. congruence.
Qed.

Lemma clamp_inRange (p : MathNumber.num) :
  p <> MathNumber.NaN ->
  MathNumber.inRange
    (MathNumber.min (MathNumber.ofZ 100)
                    (MathNumber.max (MathNumber.ofZ 0) p)).
Proof.
  intros Hp. pose proof (clamp_spec p) as H. cbv zeta in H.
  assert (I0 : MathNumber.inRange (MathNumber.ofZ 0))
    by (unfold MathNumber.inRange, MathNumber.ofZ, QArith_base.Qle;
        simpl; lia).
  assert (I100 : MathNumber.inRange (MathNumber.ofZ 100))
    by (unfold MathNumber.inRange, MathNumber.ofZ, QArith_base.Qle;
        simpl; lia).
  destruct p as [| |q|]; [congruence|now rewrite H| |now rewrite H].
  destruct H as [H1 [H2 H3]].
  destruct (QArith_base.Qlt_le_dec q (QArith_base.inject_Z 0)) as [L0|L0].
  - now rewrite (H1 L0).
  - destruct (QArith_base.Qlt_le_dec q (QArith_base.inject_Z 100))
      as [L1|L1].
    + rewrite (H2 L0 L1). split; [exact L0|].
      now apply QArith_base.Qlt_le_weak.
    + now rewrite (H3 L1).
Qed.

Section Facts.
Context {NumOps : JsNumber}.

Lemma initial_inRange : MathNumber.inRange (progress (status initial)).
Proof.
  unfold MathNumber.inRange, initial, MathNumber.ofZ, QArith_base.Qle.
  simpl. lia.
Qed.

Lemma sound_step (s : State) (a : Action) : sound s -> sound (step s a).
Proof.
  intros [Hp He]. destruct a as [data| |isLoading m|e|p|]; simpl;
    unfold sound; simpl; try (split; assumption).
  - split; [assumption|]. intros ->. reflexivity.
  - split; [assumption|discriminate].
  - split; [|assumption].
    destruct p as [| |q|]; [now left| | |]; right; apply clamp_inRange;
      discriminate.
  - split; [right; exact initial_inRange|discriminate].
Qed.

Lemma sound_fold (actions : list Action) (s : State) :
  sound s -> sound (fold_left step actions s).
Proof.
  revert s. induction actions as [|a r IH]; intros s H; [exact H|].
  simpl. apply IH. now apply sound_step.
Qed.

Lemma sound_initial : sound initial.
Proof. split; [right; exact initial_inRange|discriminate]. Qed.

Lemma inRange_step (s : State) (a : Action) :
  definite a -> MathNumber.inRange (progress (status s)) ->
  MathNumber.inRange (progress (status (step s a))).
Proof.
  intros Ha H. destruct a as [data| |isLoading m|e|p|]; simpl;
    try assumption.
  - apply clamp_inRange. intros ->. exact Ha.
  - exact initial_inRange.
Qed.

Lemma inRange_fold (actions : list Action) (s : State) :
  Forall definite actions -> MathNumber.inRange (progress (status s)) ->
  MathNumber.inRange (progress (status (fold_left step actions s))).
Proof.
  revert s. induction actions as [|a r IH]; intros s Ha H; [exact H|].
  inversion Ha; subst. simpl. apply IH; [assumption|].
  now apply inRange_step.
Qed.

(** After any sequence of calls the stored progress is [NaN] or a finite
    number within 0 and 100, and it is within 0 and 100 when no call was
    [setProgress(NaN)].  [setProgress] stores its argument brought to the
    nearer bound: the argument itself when it lies within 0 and 100, 0
    when it is below (or minus infinity), 100 when it is above (or
    infinity), and [NaN] for [NaN]. *)
Theorem progress_stays_in_range (actions : list Action) :
  (progress (status (after actions)) = MathNumber.NaN
   \/ MathNumber.inRange (progress (status (after actions))))
  /\ (Forall definite actions ->
      MathNumber.inRange (progress (status (after actions))))
  /\ (forall (s : State) (p : MathNumber.num),
         let stored := progress (status (setProgress p s)) in
         match p with
         | MathNumber.NaN => stored = MathNumber.NaN
         | MathNumber.NegInfinity => stored = MathNumber.ofZ 0
         | MathNumber.Infinity => stored = MathNumber.ofZ 100
         | MathNumber.Finite q =>
             (QArith_base.Qlt q (QArith_base.inject_Z 0) ->
              stored = MathNumber.ofZ 0)
             /\ (QArith_base.Qle (QArith_base.inject_Z 0) q ->
                 QArith_base.Qlt q (QArith_base.inject_Z 100) ->
                 stored = MathNumber.Finite q)
             /\ (QArith_base.Qle (QArith_base.inject_Z 100) q ->
                 stored = MathNumber.ofZ 100)
         end).
Proof.
  split; [|split].
  - apply (sound_fold actions initial sound_initial).
  - intros H. apply (inRange_fold actions initial H initial_inRange).
  - intros s p. exact (clamp_spec p).
Qed.

(** After any sequence of calls the store is never loading with an error
    set: [setLoading(true)] clears the error and [setError] ends the
    loading. *)
Theorem never_loading_with_error (actions : list Action) :
  loading (status (after actions)) = true ->
  error (status (after actions)) = None.
Proof.
  apply (sound_fold actions initial sound_initial).
Qed.

End Facts.
End StoreFacts.

(** ** The paging of the results table *)

Module ResultsTableFacts.
Import ResultsTable.

Lemma firstn_plus (A : Type) (a b : nat) (l : list A) :
  firstn (a + b) l = firstn a l ++ firstn b (skipn a l).
Proof.
  revert l. induction a as [|a IH]; intros l; [reflexivity|].
  destruct l as [|x l]; simpl.
  - now rewrite firstn_nil.
  - now rewrite IH.
Qed.

Lemma firstn_min_length (A : Type) (n : nat) (l : list A) :
  firstn (Nat.min n (length l)) l = firstn n l.
Proof.
  destruct (Nat.le_ge_cases n (length l)) as [H|H].
  - now rewrite Nat.min_l.
  - rewrite Nat.min_r by assumption.
    now rewrite firstn_all, firstn_all2.
Qed.

(** Page [i + 1] is the [i]-th run of 25 records. *)
Lemma page_chunk (A : Type) (records : list A) (i : nat) :
  paginatedRecords records (Z.of_nat (S i))
  = firstn 25 (skipn (i * 25) records).
Proof.
  unfold paginatedRecords, slice, sliceIndex, pageSize.
  destruct (Z.ltb_spec ((Z.of_nat (S i) - 1) * 25) 0) as [H|H]; [lia|].
  destruct (Z.ltb_spec ((Z.of_nat (S i) - 1) * 25 + 25) 0) as [H'|H'];
    [lia|].
  destruct (Nat.le_gt_cases (i * 25) (length records)) as [Hle|Hgt].
  - replace (Z.to_nat (Z.min ((Z.of_nat (S i) - 1) * 25)
                             (Z.of_nat (length records))))
      with (i * 25) by lia.
    replace (Z.to_nat (Z.min ((Z.of_nat (S i) - 1) * 25 + 25)
                             (Z.of_nat (length records))) - i * 25)
      with (Nat.min 25 (length (skipn (i * 25) records)))
      by (rewrite length_skipn; lia).
    apply firstn_min_length.
  - replace (Z.to_nat (Z.min ((Z.of_nat (S i) - 1) * 25)
                             (Z.of_nat (length records))))
      with (length records) by lia.
    replace (Z.to_nat (Z.min ((Z.of_nat (S i) - 1) * 25 + 25)
                             (Z.of_nat (length records))) - length records)
      with 0 by lia.
    rewrite (skipn_all2 (n := i * 25) records) by lia.
    now rewrite firstn_nil.
Qed.

Lemma chunks_concat (A : Type) (records : list A) (n : nat) :
  concat (map (fun i => firstn 25 (skipn (i * 25) records)) (seq 0 n))
  = firstn (n * 25) records.
Proof.
  induction n as [|n IH]; [reflexivity|].
  rewrite seq_S, map_app, concat_app, IH.
  cbn [Nat.add map concat]. rewrite app_nil_r.
  replace (S n * 25) with (n * 25 + 25) by lia.
  now rewrite firstn_plus.
Qed.

Lemma totalPages_covers (len : nat) :
  len <= Z.to_nat (totalPages len) * 25
  /\ (0 < len -> (Z.of_nat len > (totalPages len - 1) * 25)%Z)
  /\ (0 <= totalPages len)%Z.
Proof.
  unfold totalPages, pageSize.
  pose proof (Z.div_mod (Z.of_nat len + (25 - 1)) 25 ltac:(lia)) as E.
  pose proof (Z.mod_pos_bound (Z.of_nat len + (25 - 1)) 25 ltac:(lia)) as B.
  repeat split; lia.
Qed.

(** The pages 1 to [totalPages], one after the other, are the records: no
    record is lost or shown twice.  No page has more than 25 records, and
    a page beyond the last is empty. *)
Theorem pages_partition (A : Type) (records : list A) :
  concat (map (fun p => paginatedRecords records (Z.of_nat p))
              (seq 1 (Z.to_nat (totalPages (length records)))))
  = records
  /\ (forall p : Z, length (paginatedRecords records p) <= 25)
  /\ (forall p : Z, (totalPages (length records) < p)%Z ->
                    paginatedRecords records p = []).
Proof.
  destruct (totalPages_covers (length records)) as [Hc [_ Hpos]].
  split; [|split].
  - rewrite <- seq_shift, map_map.
    rewrite (map_ext _ (fun i => firstn 25 (skipn (i * 25) records)))
      by (intros i; apply page_chunk).
    rewrite chunks_concat. now apply firstn_all2.
  - intros p. unfold paginatedRecords, slice.
    rewrite length_firstn. unfold sliceIndex, pageSize.
    destruct (Z.ltb_spec ((p - 1) * 25) 0),
      (Z.ltb_spec ((p - 1) * 25 + 25) 0); lia.
  - intros p Hp.
    assert (E : p = Z.of_nat (S (Z.to_nat (p - 1)))) by lia.
    rewrite E, page_chunk. rewrite skipn_all2; [apply firstn_nil|]. lia.
Qed.

Lemma click_in_range (len : nat) (page : Z) (c : Click) :
  (1 <= page <= Z.max 1 (totalPages len))%Z ->
  (1 <= click len page c <= Z.max 1 (totalPages len))%Z.
Proof.
  intros H. destruct c; simpl; unfold prevPage, nextPage.
  - destruct (Z.ltb_spec 1 page); lia.
  - destruct (Z.ltb_spec page (totalPages len)); lia.
Qed.

Lemma pageAfter_in_range (len : nat) (clicks : list Click) (page : Z) :
  (1 <= page <= Z.max 1 (totalPages len))%Z ->
  (1 <= fold_left (click len) clicks page <= Z.max 1 (totalPages len))%Z.
Proof.
  revert page. induction clicks as [|c r IH]; intros page H; [exact H|].
  simpl. apply IH. now apply click_in_range.
Qed.

(** Whatever the sequence of clicks on Previous and Next, the current
    page stays between 1 and the number of pages, and, when there are
    records, the page shown is not empty. *)
Theorem navigation_stays_on_a_page (A : Type) (records : list A)
        (clicks : list Click) :
  let page := pageAfter (length records) clicks in
  (1 <= page <= Z.max 1 (totalPages (length records)))%Z
  /\ (records <> [] -> paginatedRecords records page <> []).
Proof.
  cbv zeta.
  assert (H : (1 <= pageAfter (length records) clicks
               <= Z.max 1 (totalPages (length records)))%Z).
  { apply pageAfter_in_range. lia. }
  split; [exact H|].
  intros Hne.
  destruct (totalPages_covers (length records)) as [_ [Hlt _]].
  assert (Hlen : 0 < length records)
    by (destruct records; [congruence|simpl; lia]).
  specialize (Hlt Hlen).
  set (page := pageAfter (length records) clicks) in *.
  assert (E : page = Z.of_nat (S (Z.to_nat (page - 1)))) by lia.
  rewrite E, page_chunk.
  intros Hnil. apply (f_equal (@length A)) in Hnil.
  rewrite length_firstn, length_skipn in Hnil.
  change (length (@nil A)) with 0 in Hnil. lia.
Qed.

End ResultsTableFacts.

(** ** Term names *)

Lemma parseInt10_two_digits (d1 d2 : nat) :
  d1 < 10 -> d2 < 10 ->
  parseInt10 [digit d1; digit d2] = Some (Z.of_nat (10 * d1 + d2)).
Proof.
  intros H1 H2.
  do 10 (destruct d1 as [|d1];
         [do 10 (destruct d2 as [|d2]; [reflexivity|]); lia|]).
  lia.
Qed.

(** A term code of four code units for the year and two decimal digits
    for the month is named Spring for the months 00 to 04, Summer for 05
    to 07 and Fall for all others, followed by the year; a code with no
    more than the year is named Fall. *)
Theorem parseTermName_names :
  (forall (year : jsstring) (d1 d2 : nat),
      length year = 4 -> d1 < 10 -> d2 < 10 ->
      parseTermName (year ++ [digit d1; digit d2])
      = (if Nat.ltb (10 * d1 + d2) 5 then lit "Spring"
         else if Nat.ltb (10 * d1 + d2) 8 then lit "Summer"
         else lit "Fall")
          ++ lit " " ++ year)
  /\ (forall term : jsstring,
         length term <= 4 -> parseTermName term = lit "Fall " ++ term).
Proof.
  split.
  - intros year d1 d2 Hy H1 H2. unfold parseTermName.
    rewrite firstn_app, skipn_app, Hy. simpl Nat.sub.
    rewrite firstn_all2, skipn_all2 by lia.
    cbn [firstn skipn app]. rewrite app_nil_r.
    rewrite parseInt10_two_digits by assumption.
    unfold semesterOf.
    destruct (Nat.ltb_spec (10 * d1 + d2) 5), (Z.ltb_spec (Z.of_nat (10 * d1 + d2)) 5);
      try lia; [reflexivity|].
    destruct (Nat.ltb_spec (10 * d1 + d2) 8), (Z.ltb_spec (Z.of_nat (10 * d1 + d2)) 8);
      try lia; reflexivity.
  - intros term H. unfold parseTermName.
    rewrite firstn_all2, skipn_all2 by lia. reflexivity.
Qed.

(** ** The form *)

Module EnrollmentFormFacts.
Import EnrollmentForm.

Lemma uintToString_digits (d : Decimal.uint) :
  forallb isDigit (uintToString d) = true.
Proof. induction d; simpl; auto. Qed.

Lemma to_uint_not_nil (n : nat) : Nat.to_uint n <> Decimal.Nil.
Proof.
  intros E. pose proof (Stdlib.Numbers.DecimalNat.Unsigned.of_to n) as H.
  rewrite E in H. simpl in H. subst n. discriminate E.
Qed.

Lemma natToString_not_nil (n : nat) : natToString n <> [].
Proof.
  unfold natToString. pose proof (to_uint_not_nil n) as H.
  destruct (Nat.to_uint n); try discriminate. congruence.
Qed.

Lemma decimalValue_acc (d : Decimal.uint) (acc : nat) :
  fold_left (fun a c => (10 * a + Z.of_N (c - 48))%Z) (uintToString d)
            (Z.of_nat acc)
  = Z.of_nat (Nat.of_uint_acc d acc).
Proof.
  revert acc.
  induction d; intros acc; cbn [uintToString fold_left Nat.of_uint_acc];
    [reflexivity| | | | | | | | | |];
    rewrite <- IHd; f_equal; rewrite Nat.tail_mul_spec;
    match goal with
    | |- context [Z.of_N ?e] =>
        let v := eval vm_compute in (Z.of_N e) in
        change (Z.of_N e) with v
    end; lia.
Qed.

(** An integer below 2^53 is a binary64 number. *)
Lemma toBinary64_small (z : Z) :
  (0 <= z < 2 ^ 53)%Z -> toBinary64 z = z.
Proof.
  intros [H0 H1]. unfold toBinary64.
  destruct (Z.leb_spec (Z.log2 z + 1) 53) as [_|H]; [reflexivity|].
  exfalso. destruct (Z.eq_dec z 0) as [->|Hz]; [simpl in H; lia|].
  assert (Hl : (Z.log2 z < 53)%Z) by (apply Z.log2_lt_pow2; lia).
  lia.
Qed.

Lemma toBinary64_nonneg (z : Z) : (0 <= z)%Z -> (0 <= toBinary64 z)%Z.
Proof.
  intros H. unfold toBinary64.
  destruct (Z.leb (Z.log2 z + 1) 53); [exact H|].
  apply Z.shiftl_nonneg.
  assert (Hq : (0 <= Z.shiftr z (Z.log2 z + 1 - 53))%Z)
    by now apply Z.shiftr_nonneg.
  destruct (_ || _); lia.
Qed.

(** The digits [natToString] writes for a number below 2^53 are read back
    as the number. *)
Lemma decimalValue_natToString (n : nat) :
  (Z.of_nat n < 2 ^ 53)%Z -> decimalValue (natToString n) = Z.of_nat n.
Proof.
  intros H. unfold decimalValue, natToString.
  pose proof (eq_trans (decimalValue_acc (Nat.to_uint n) 0)
                (f_equal Z.of_nat
                   (Stdlib.Numbers.DecimalNat.Unsigned.of_to n))) as E.
  change (Z.of_nat 0) with 0%Z in E. rewrite E.
  apply toBinary64_small. lia.
Qed.

Lemma spanDigits_run (ds rest : jsstring) (c : N) :
  forallb isDigit ds = true -> isDigit c = false ->
  spanDigits (ds ++ c :: rest) = (ds, c :: rest).
Proof.
  intros Hd Hc. induction ds as [|x ds IH]; simpl.
  - now rewrite Hc.
  - simpl in Hd. apply andb_true_iff in Hd as [Hx Hd].
    rewrite Hx, (IH Hd). reflexivity.
Qed.

Lemma matchRange_formatRange (r : nat * nat) :
  matchRange (formatRange r)
  = Some (natToString (fst r), natToString (snd r)).
Proof.
  unfold matchRange, formatRange. simpl app.
  rewrite spanDigits_run by (try apply uintToString_digits; reflexivity).
  pose proof (natToString_not_nil (fst r)) as H1.
  pose proof (natToString_not_nil (snd r)) as H2.
  destruct (natToString (fst r)) as [|a x] eqn:E1; [congruence|].
  rewrite N.eqb_refl.
  unfold natToString at 2. rewrite uintToString_digits.
  destruct (natToString (snd r)) as [|b y] eqn:E2; [congruence|].
  reflexivity.
Qed.

Lemma rangesOf_formatted (rs : list (nat * nat)) (ranges : list Range) :
  Forall (fun r => (Z.of_nat (fst r) < 2 ^ 53)%Z
                   /\ (Z.of_nat (snd r) < 2 ^ 53)%Z) rs ->
  rangesOf (map formatRange rs) ranges = ranges ++ map rangeOf rs.
Proof.
  intros H. revert ranges.
  induction H as [|r rs [H1 H2] _ IH]; intros ranges; cbn [map rangesOf].
  - now rewrite app_nil_r.
  - rewrite matchRange_formatRange, IH, <- app_assoc.
    unfold rangeOf. now rewrite !decimalValue_natToString.
Qed.

Lemma splitRuns_from_not_nil (s : jsstring) (b : bool) :
  splitRuns_from s b <> [].
Proof.
  revert b. induction s as [|c r IH]; intros b; simpl; [discriminate|].
  destruct (isSeparator c).
  - destruct b; [apply IH|discriminate].
  - destruct (splitRuns_from r false); discriminate.
Qed.

Lemma splitRuns_from_word (word rest : jsstring) :
  forallb (fun c => negb (isSeparator c)) word = true ->
  splitRuns_from (word ++ rest) false
  = prependToFirst word (splitRuns_from rest false).
Proof.
  intros H. induction word as [|c w IH]; simpl.
  - destruct (splitRuns_from rest false) eqn:E; [|reflexivity].
    now apply splitRuns_from_not_nil in E.
  - simpl in H. apply andb_true_iff in H as [Hc Hw].
    apply negb_true_iff in Hc. rewrite Hc, (IH Hw).
    destruct (splitRuns_from rest false) eqn:E; [|reflexivity].
    now apply splitRuns_from_not_nil in E.
Qed.

Lemma splitRuns_from_after_run (s : jsstring) :
  startsClean s = true -> s <> [] ->
  (match s with c :: _ => isSeparator c | [] => true end) = false ->
  splitRuns_from s true = splitRuns_from s false.
Proof.
  intros _ _ H. destruct s as [|c r]; [discriminate|].
  simpl. now rewrite H.
Qed.

Lemma word_head (w rest : jsstring) :
  isWord w ->
  splitRuns_from (w ++ rest) true = splitRuns_from (w ++ rest) false.
Proof.
  intros [Hne Hw]. destruct w as [|c w]; [congruence|].
  simpl in Hw. apply andb_true_iff in Hw as [Hc _].
  apply negb_true_iff in Hc. simpl. now rewrite Hc.
Qed.

Lemma join_head (sep x : jsstring) (r : list jsstring) :
  exists rest, join sep (x :: r) = x ++ rest.
Proof.
  destruct r as [|y r].
  - exists []. simpl. now rewrite app_nil_r.
  - eexists. apply join_cons2.
Qed.

(** Words joined by a comma and a space split back into the words. *)
Lemma splitRuns_join (words : list jsstring) :
  words <> [] -> Forall isWord words ->
  splitRuns (join (lit ", ") words) = words.
Proof.
  unfold splitRuns. induction words as [|w r IH]; [congruence|].
  intros _ H. inversion H as [|? ? Hw Hr]; subst.
  destruct r as [|v r].
  - simpl. rewrite <- (app_nil_r w) at 1.
    rewrite splitRuns_from_word by apply Hw. simpl.
    now rewrite app_nil_r.
  - rewrite join_cons2.
    rewrite splitRuns_from_word by apply Hw.
    change (lit ", " ++ join (lit ", ") (v :: r))
      with (COMMA :: 32%N :: join (lit ", ") (v :: r)).
    cbn [splitRuns_from]. change (isSeparator COMMA) with true.
    change (isSeparator 32) with true. cbv iota.
    destruct (join_head (lit ", ") v r) as [rest E].
    assert (Hv : isWord v) by (inversion Hr; assumption).
    rewrite E, (word_head v rest Hv), <- E.
    rewrite IH by (try discriminate; assumption).
    simpl. now rewrite app_nil_r.
Qed.

Lemma word_not_blank (w : jsstring) :
  isWord w -> isTrimmed w = true /\ trim w <> [].
Proof.
  intros [Hne Hw].
  assert (Hall : forall c, In c w -> isWhiteSpace c = false).
  { intros c Hc. rewrite forallb_forall in Hw. specialize (Hw c Hc).
    apply negb_true_iff in Hw. unfold isSeparator in Hw.
    now apply orb_false_iff in Hw as [_ Hw]. }
  assert (Ht : isTrimmed w = true).
  { unfold isTrimmed, endsClean. apply andb_true_iff. split.
    - destruct w as [|c w]; [reflexivity|]. simpl.
      rewrite Hall; [reflexivity|now left].
    - destruct (rev w) as [|c w'] eqn:E; [reflexivity|]. simpl.
      rewrite Hall; [reflexivity|]. apply in_rev. rewrite E. now left. }
  split; [exact Ht|]. now rewrite trim_trimmed.
Qed.

Lemma formatRange_word (r : nat * nat) : isWord (formatRange r).
Proof.
  unfold isWord, formatRange. split.
  - pose proof (natToString_not_nil (fst r)).
    destruct (natToString (fst r)); [congruence|discriminate].
  - rewrite !forallb_app. simpl.
    assert (D : forall s, forallb isDigit s = true ->
                          forallb (fun c => negb (isSeparator c)) s = true).
    { intros s Hs. rewrite forallb_forall in *. intros c Hc.
      specialize (Hs c Hc). unfold isDigit in Hs.
      apply andb_true_iff in Hs as [H1 H2].
      apply N.leb_le in H1. apply N.leb_le in H2.
      unfold isSeparator, isWhiteSpace, COMMA. simpl.
      repeat match goal with
             | |- context [N.eqb c ?k] =>
                 destruct (N.eqb_spec c k); [lia|]
             end.
      reflexivity. }
    unfold natToString. now rewrite !D by apply uintToString_digits.
Qed.

(** A list of ranges written as lower-upper, separated by a comma and a
    space, with every bound below 2^53 (so that it is a binary64 number),
    is read back as the same ranges in the same order. *)
Theorem parseCourseRanges_formatted (rs : list (nat * nat)) :
  rs <> [] ->
  Forall (fun r => (Z.of_nat (fst r) < 2 ^ 53)%Z
                   /\ (Z.of_nat (snd r) < 2 ^ 53)%Z) rs ->
  parseCourseRanges (join (lit ", ") (map formatRange rs)) = map rangeOf rs.
Proof.
  intros Hne Hsmall.
  assert (Hw : Forall isWord (map formatRange rs)).
  { apply Forall_map, Forall_forall. intros r _. apply formatRange_word. }
  assert (Hm : map formatRange rs <> [])
    by (destruct rs; [congruence|discriminate]).
  unfold parseCourseRanges.
  assert (Ht : trim (join (lit ", ") (map formatRange rs))
               = join (lit ", ") (map formatRange rs)).
  { apply trim_trimmed. unfold isTrimmed. apply andb_true_iff. split.
    - destruct (map formatRange rs) as [|w ws] eqn:E; [congruence|].
      inversion Hw as [|? ? Hw1 _]; subst.
      apply startsClean_join; [apply Hw1|].
      destruct (word_not_blank w Hw1) as [H _].
      now apply andb_true_iff in H as [H _].
    - apply endsClean_join_lines.
      eapply Forall_impl; [|exact Hw].
      intros w Hw1. split; [apply Hw1|].
      destruct (word_not_blank w Hw1) as [H _].
      now apply andb_true_iff in H as [_ H]. }
  rewrite Ht.
  destruct (join (lit ", ") (map formatRange rs)) as [|c s] eqn:Ej.
  { destruct (map formatRange rs) as [|w ws] eqn:E; [congruence|].
    inversion Hw as [|? ? [Hw1 _] _]; subst.
    exfalso. now apply (join_not_nil (lit ", ") w ws). }
  cbn [isEmpty]. rewrite <- Ej. rewrite splitRuns_join by assumption.
  rewrite filter_all.
  - rewrite rangesOf_formatted by assumption. simpl.
    destruct rs as [|r rs']; [congruence|reflexivity].
  - eapply Forall_impl; [|exact Hw].
    intros w Hw1. destruct (word_not_blank w Hw1) as [_ H].
    destruct (trim w); [congruence|reflexivity].
Qed.

Lemma digits_nonneg (digits : jsstring) (acc : Z) :
  (0 <= acc)%Z ->
  (0 <= fold_left (fun a c => (10 * a + Z.of_N (c - 48))%Z) digits acc)%Z.
Proof.
  revert acc. induction digits as [|c r IH]; intros acc H; [exact H|].
  cbn [fold_left]. apply IH.
  pose proof (N2Z.is_nonneg (c - 48)). lia.
Qed.

Lemma decimalValue_nonneg (digits : jsstring) :
  (0 <= decimalValue digits)%Z.
Proof. apply toBinary64_nonneg, digits_nonneg. lia. Qed.

Lemma rangesOf_nonneg (parts : list jsstring) (ranges : list Range) :
  Forall (fun r => (0 <= lower r)%Z /\ (0 <= upper r)%Z) ranges ->
  Forall (fun r => (0 <= lower r)%Z /\ (0 <= upper r)%Z)
         (rangesOf parts ranges).
Proof.
  revert ranges. induction parts as [|p r IH]; intros ranges H; [exact H|].
  simpl. destruct (matchRange p) as [[a b]|]; [|now apply IH].
  apply IH. apply Forall_app. split; [exact H|].
  constructor; [|constructor]. simpl.
  split; apply decimalValue_nonneg.
Qed.

Lemma parseCourseRanges_not_nil (courseRangeInput : jsstring) :
  parseCourseRanges courseRangeInput <> [].
Proof.
  unfold parseCourseRanges.
  destruct (isEmpty (trim courseRangeInput)); [discriminate|].
  cbv zeta. destruct (rangesOf _ []); discriminate.
Qed.

Lemma spanDigits_app (s : jsstring) :
  s = fst (spanDigits s) ++ snd (spanDigits s).
Proof.
  induction s as [|c r IH]; [reflexivity|].
  simpl. destruct (isDigit c); [|reflexivity].
  simpl. now rewrite <- IH.
Qed.

(** A part of the form digits-digits has a hyphen. *)
Lemma matchRange_hyphen (part : jsstring) (groups : jsstring * jsstring) :
  matchRange part = Some groups -> In 45%N part.
Proof.
  unfold matchRange. intros H.
  rewrite (spanDigits_app part).
  destruct (spanDigits part) as [[|d first] [|c second]]; try discriminate.
  destruct (N.eqb_spec c 45) as [->|Hc]; [|discriminate].
  apply in_or_app. right. now left.
Qed.

(** The code units of the pieces are code units of the text. *)
Lemma splitRuns_from_in (s : jsstring) (b : bool) (p : jsstring) (c : N) :
  In p (splitRuns_from s b) -> In c p -> In c s.
Proof.
  revert b p. induction s as [|x r IH]; intros b p Hp Hc; simpl in Hp.
  - destruct Hp as [<-|[]]. destruct Hc.
  - destruct (isSeparator x).
    + right. destruct b.
      * exact (IH true p Hp Hc).
      * destruct Hp as [<-|Hp]; [destruct Hc|exact (IH true p Hp Hc)].
    + destruct (splitRuns_from r false) as [|h t] eqn:E.
      * destruct Hp as [<-|[]]. destruct Hc as [<-|[]]. now left.
      * destruct Hp as [<-|Hp].
        -- destruct Hc as [<-|Hc]; [now left|right].
           apply (IH false h); [rewrite E; now left|exact Hc].
        -- right. apply (IH false p); [rewrite E; now right|exact Hc].
Qed.

Lemma rangesOf_unmatched (parts : list jsstring) (ranges : list Range) :
  Forall (fun part => matchRange part = None) parts ->
  rangesOf parts ranges = ranges.
Proof.
  intros H. revert ranges.
  induction H as [|p r Hp _ IH]; intros ranges; [reflexivity|].
  simpl. now rewrite Hp.
Qed.

(** [parseCourseRanges] never returns the empty list, and no bound it
    returns is negative.  A blank input, an input without a hyphen and,
    in general, an input none of whose parts has the form digits-digits
    give the one range from 0 to 99999. *)
Theorem parseCourseRanges_never_empty (courseRangeInput : jsstring) :
  parseCourseRanges courseRangeInput <> []
  /\ Forall (fun r => (0 <= lower r)%Z /\ (0 <= upper r)%Z)
            (parseCourseRanges courseRangeInput)
  /\ (isEmpty (trim courseRangeInput) = true ->
      parseCourseRanges courseRangeInput
      = [{| lower := 0; upper := 99999 |}])
  /\ (~ In 45%N courseRangeInput ->
      parseCourseRanges courseRangeInput
      = [{| lower := 0; upper := 99999 |}])
  /\ (Forall (fun part => matchRange part = None)
             (splitRuns courseRangeInput) ->
      parseCourseRanges courseRangeInput
      = [{| lower := 0; upper := 99999 |}]).
Proof.
  assert (D : Forall (fun r => (0 <= lower r)%Z /\ (0 <= upper r)%Z)
                     [defaultRange])
    by (constructor; [simpl; lia|constructor]).
  assert (U : Forall (fun part => matchRange part = None)
                     (splitRuns courseRangeInput) ->
              parseCourseRanges courseRangeInput
              = [{| lower := 0; upper := 99999 |}]).
  { intros H. unfold parseCourseRanges.
    destruct (isEmpty (trim courseRangeInput)); [reflexivity|]. cbv zeta.
    rewrite rangesOf_unmatched; [reflexivity|].
    apply Forall_forall. intros p Hp. apply filter_In in Hp as [Hp _].
    rewrite Forall_forall in H. now apply H. }
  split; [|split; [|split; [|split]]].
  - unfold parseCourseRanges.
    destruct (isEmpty (trim courseRangeInput)); [discriminate|].
    cbv zeta. destruct (rangesOf _ []); discriminate.
  - unfold parseCourseRanges.
    destruct (isEmpty (trim courseRangeInput)); [exact D|]. cbv zeta.
    pose proof (rangesOf_nonneg
                  (filter (fun p => negb (isEmpty (trim p)))
                          (splitRuns courseRangeInput)) []
                  (Forall_nil _)) as H.
    destruct (rangesOf _ []) as [|r rs]; [exact D|exact H].
  - intros H. unfold parseCourseRanges. now rewrite H.
  - intros H. apply U. apply Forall_forall. intros p Hp.
    destruct (matchRange p) as [groups|] eqn:E; [|reflexivity].
    exfalso. apply H.
    apply (splitRuns_from_in courseRangeInput false p 45%N Hp).
    exact (matchRange_hyphen p groups E).
  - exact U.
Qed.

(** [handleSubmit] emits a request exactly when the number of terms lies
    within 1 and 20, whatever error an earlier validation left in the
    form; the request carries that number and at least one course
    range. *)
Theorem handleSubmit_emits (toUpperCase : jsstring -> jsstring) (f : Form) :
  match snd (handleSubmit toUpperCase f) with
  | Some request =>
      (1 <= formNumTerms f <= 20)%Z
      /\ numTerms request = formNumTerms f
      /\ courseRanges request <> []
      /\ errors (fst (handleSubmit toUpperCase f)) = None
  | None =>
      ((formNumTerms f < 1)%Z \/ (20 < formNumTerms f)%Z)
      /\ errors (fst (handleSubmit toUpperCase f)) <> None
  end.
Proof.
  unfold handleSubmit, validateNumTerms, isValid.
  destruct (Z.ltb_spec (formNumTerms f) 1) as [H1|H1]; simpl.
  - split; [lia|discriminate].
  - destruct (Z.ltb_spec 20 (formNumTerms f)) as [H2|H2]; simpl.
    + split; [lia|discriminate].
    + destruct (Z.leb_spec 1 (formNumTerms f)) as [H3|H3]; [|lia]. simpl.
      repeat split; try lia.
      apply parseCourseRanges_not_nil.
Qed.

End EnrollmentFormFacts.

(** ** More on the queue settings *)

(** Whatever the environment, the dead-letter queue and the processing
    queue have different names; the processing queue hides a received
    message for as long as the worker function may run (15 minutes), and
    the dead-letter queue keeps its messages longer than the processing
    queue does. *)
Theorem queues_are_distinct (config : Infra.StackConfig) :
  let stack := Infra.newEnrollmentStack config in
  let main := Infra.processingQueue stack in
  forall redrive, Infra.deadLetterQueue main = Some redrive ->
    Infra.queueName (Infra.queue redrive) <> Infra.queueName main
    /\ Infra.visibilityTimeout main
       = Some (Infra.timeout (Infra.dataProcessingFunction stack))
    /\ Infra.retentionPeriod main
       < Infra.retentionPeriod (Infra.queue redrive).
Proof.
  intros stack main redrive H. injection H as <-.
  split; [|split].
  - cbn [Infra.queueName Infra.queue]. unfold main, stack.
    cbn [Infra.newEnrollmentStack Infra.processingQueue
         Infra.createProcessingQueue Infra.queueName].
    intros E. apply (f_equal (fun s => nth 18 s 0%N)) in E.
    vm_compute in E. discriminate E.
  - reflexivity.
  - cbn [Infra.retentionPeriod Infra.queue]. unfold main, stack.
    cbn [Infra.newEnrollmentStack Infra.processingQueue
         Infra.createProcessingQueue Infra.retentionPeriod].
    unfold Infra.days. lia.
Qed.

(** ** Both revisions of the polling client *)

(** In either revision a submission that is rejected, or accepted without
    a job id (and, in the revision with an inline result, without the
    result), ends the execution with that error at once: the callback has
    been called with 0 only, nothing sleeps and no status is read. *)
Theorem fetchEnrollmentData_fails_fast
        {NumOps : JsNumber} {Host : JsHost} :
  (forall (server : Part001.Server) (onProgress : bool)
          (maxAttempts : nat) (request : EnrollmentRequest),
      let run := Part001.fetchEnrollmentDataWith server onProgress
                   maxAttempts request in
      (forall e, Part001.submitEnrollmentJob server request = Rejected e ->
                 run = (Part001.notify onProgress 0
                          (lit "Submitting request...")
                          ++ [SubmitJob; ConsoleError e],
                        Rejected e))
      /\ (forall submitResponse,
             Part001.submitEnrollmentJob server request
             = Resolved submitResponse ->
             truthy (Part001.job_id submitResponse) = false ->
             run = (Part001.notify onProgress 0
                      (lit "Submitting request...")
                      ++ [SubmitJob;
                          ConsoleError
                            (lit "No job ID returned from server")],
                    Rejected (lit "No job ID returned from server"))))
  /\ (forall (server : Part002.Server) (onProgress : bool)
             (maxAttempts : nat) (request : EnrollmentRequest),
         let run := Part002.fetchEnrollmentDataWith server onProgress
                      maxAttempts request in
         (forall e, Part002.submitEnrollmentJob server request = Rejected e ->
                    run = (Part002.notify onProgress 0
                             (lit "Submitting request...")
                             ++ [SubmitJob; ConsoleError e],
                           Rejected e))
         /\ (forall submitResponse,
                Part002.submitEnrollmentJob server request
                = Resolved submitResponse ->
                Part002.embedded submitResponse = None ->
                truthy (Part002.jobId submitResponse) = false ->
                run = (Part002.notify onProgress 0
                         (lit "Submitting request...")
                         ++ [SubmitJob;
                             ConsoleError
                               (lit "No job ID returned from server")],
                       Rejected (lit "No job ID returned from server")))).
Proof.
  split.
  - intros. apply Part001More.fetch_fails_fast_001.
  - intros. apply Part002More.fetch_fails_fast_002.
Qed.

(** In either revision a status read that is rejected ends the execution
    with that error: the callback is not called for that pass and no
    sleep or read follows. *)
Theorem fetchEnrollmentData_read_error
        {NumOps : JsNumber} {Host : JsHost} :
  (forall (server : Part001.Server) (onProgress : bool)
          (replies : nat -> Part001.JobStatusResponse)
          (maxAttempts before : nat) (request : EnrollmentRequest)
          (submitResponse : Part001.JobSubmitResponse) (e : jsstring),
      Part001.submitEnrollmentJob server request = Resolved submitResponse ->
      truthy (Part001.job_id submitResponse) = true ->
      before < maxAttempts ->
      (forall n, 1 <= n <= before ->
                 Part001.pollJobStatus server n = Resolved (replies n)
                 /\ isTerminal (Part001.status (replies n)) = false) ->
      Part001.pollJobStatus server (S before) = Rejected e ->
      let id := orElse (Part001.job_id submitResponse) [] in
      Part001.fetchEnrollmentDataWith server onProgress maxAttempts request
      = (Part001.prologue onProgress
           ++ flat_map (Part001.pass onProgress id replies) (seq 1 before)
           ++ [Sleep Part001.POLL_INTERVAL_MS; StatusRead id; ConsoleError e],
         Rejected e))
  /\ (forall (server : Part002.Server) (onProgress : bool)
             (replies : nat -> Part002.JobStatusResponse)
             (maxAttempts before : nat) (request : EnrollmentRequest)
             (submitResponse : Part002.JobSubmitResponse) (e : jsstring),
         Part002.submitEnrollmentJob server request
         = Resolved submitResponse ->
         Part002.embedded submitResponse = None ->
         truthy (Part002.jobId submitResponse) = true ->
         before < maxAttempts ->
         (forall n, 1 <= n <= before ->
                    Part002.pollJobStatus server n = Resolved (replies n)
                    /\ isTerminal (Part002.status (replies n)) = false) ->
         Part002.pollJobStatus server (S before) = Rejected e ->
         let id := orElse (Part002.jobId submitResponse) [] in
         Part002.fetchEnrollmentDataWith server onProgress maxAttempts request
         = (Part002.prologue onProgress
              ++ flat_map (Part002.pass onProgress id replies) (seq 1 before)
              ++ [Sleep Part002.POLL_INTERVAL_MS; StatusRead id;
                  ConsoleError e],
            Rejected e)).
Proof.
  split.
  - intros server onProgress replies maxAttempts before request
           submitResponse e.
    apply Part001More.fetch_read_error_001.
  - intros server onProgress replies maxAttempts before request
           submitResponse e.
    apply Part002More.fetch_read_error_002.
Qed.

(** ** The values passed to the progress callback *)

Module Part001Progress.
Import Part001.

Section Values.
Context {NumOps : JsNumber} {Host : JsHost}.
Variable server : Server.
Variable replies : nat -> JobStatusResponse.

Lemma shownProgress_unfold_001 (r : JobStatusResponse) :
  shownProgress r
  = match progress r with
    | Some p => if Z.eqb p 0 then 10%Z else p
    | None => 10%Z
    end.
Proof. unfold shownProgress. now destruct (progress r). Qed.

Lemma progressValues_passes_001 (id : jsstring) (first k : nat) :
  progressValues (flat_map (pass true id replies) (seq first k))
  = map (fun n => shownProgress (replies n)) (seq first k).
Proof.
  revert first. induction k as [|k IH]; intros first; [reflexivity|].
  cbn [seq flat_map map]. rewrite progressValues_app, IH. reflexivity.
Qed.

(** With no attempt left, or when the next status read is rejected, the
    loop calls the callback no more. *)
Lemma loop_stops_001 (id : jsstring) (remaining attempts : nat) :
  remaining = 0 \/ (exists e, pollJobStatus server (S attempts) = Rejected e) ->
  progressValues (fst (pollLoop server true id remaining attempts)) = [].
Proof.
  intros [->|[e He]]; [reflexivity|].
  destruct remaining as [|remaining]; [reflexivity|].
  simpl pollLoop. now rewrite He.
Qed.

Lemma loop_values_001 (id : jsstring) (maxAttempts reads : nat) :
  reads <= maxAttempts ->
  (forall n, 1 <= n <= reads ->
             pollJobStatus server n = Resolved (replies n)) ->
  (forall n, 1 <= n < reads -> isTerminal (status (replies n)) = false) ->
  (reads = 0 \/ isTerminal (status (replies reads)) = false ->
   reads = maxAttempts
   \/ exists e, pollJobStatus server (S reads) = Rejected e) ->
  progressValues (fst (pollLoop server true id maxAttempts 0))
  = map (fun n => shownProgress (replies n)) (seq 1 reads)
      ++ match reads with
         | 0 => []
         | S _ => match status (replies reads) with
                  | completed => [100%Z]
                  | _ => []
                  end
         end.
Proof.
  intros Hle Hread Hgo Hend. destruct reads as [|b].
  - simpl. apply loop_stops_001.
    destruct (Hend (or_introl eq_refl)) as [E|E]; [left; lia|now right].
  - replace maxAttempts with (b + S (maxAttempts - S b)) by lia.
    rewrite (Part001Facts.pollLoop_passes_001 server true replies)
      by (intros n Hn; split; [apply Hread; lia|apply Hgo; lia]).
    rewrite progressValues_andThen, progressValues_passes_001.
    rewrite seq_S, map_app, <- app_assoc. f_equal.
    cbn [Nat.add map app]. simpl pollLoop.
    rewrite (Hread (S b)) by lia.
    rewrite progressValues_andThen, progressValues_read.
    cbn [notify progressValues flat_map app]. f_equal.
    destruct (status (replies (S b))) eqn:Es.
    + apply loop_stops_001.
      destruct (Hend (or_intror eq_refl)) as [E|E]; [left; lia|now right].
    + apply loop_stops_001.
      destruct (Hend (or_intror eq_refl)) as [E|E]; [left; lia|now right].
    + rewrite progressValues_andThen.
      rewrite (Part001Facts.onCompleted_silent_001 server). reflexivity.
    + reflexivity.
Qed.

Lemma fetch_values_001 (maxAttempts reads : nat) (request : EnrollmentRequest)
      (submitResponse : JobSubmitResponse) :
  submitEnrollmentJob server request = Resolved submitResponse ->
  truthy (job_id submitResponse) = true ->
  reads <= maxAttempts ->
  (forall n, 1 <= n <= reads ->
             pollJobStatus server n = Resolved (replies n)) ->
  (forall n, 1 <= n < reads -> isTerminal (status (replies n)) = false) ->
  (reads = 0 \/ isTerminal (status (replies reads)) = false ->
   reads = maxAttempts
   \/ exists e, pollJobStatus server (S reads) = Rejected e) ->
  progressValues
    (fst (fetchEnrollmentDataWith server true maxAttempts request))
  = [0; 5]%Z
      ++ map (fun n => match progress (replies n) with
                       | Some p => if Z.eqb p 0 then 10%Z else p
                       | None => 10%Z
                       end) (seq 1 reads)
      ++ match reads with
         | 0 => []
         | S _ => match status (replies reads) with
                  | completed => [100%Z]
                  | _ => []
                  end
         end.
Proof.
  intros Hs Hj Hle Hread Hgo Hend.
  rewrite (Part001Facts.fetch_unfold_001 _ _ _ _ _ Hs Hj).
  rewrite progressValues_logged, progressValues_andThen.
  rewrite (loop_values_001 _ _ reads Hle Hread Hgo Hend).
  change (progressValues (prologue true)) with [0; 5]%Z.
  f_equal. f_equal. apply map_ext. intros n.
  apply shownProgress_unfold_001.
Qed.

(** An execution that does not reach the loop has called the callback
    once, with 0. *)
Lemma fetch_values_unpolled_001 (maxAttempts : nat)
      (request : EnrollmentRequest) :
  (exists e, submitEnrollmentJob server request = Rejected e)
  \/ (exists submitResponse,
         submitEnrollmentJob server request = Resolved submitResponse
         /\ truthy (job_id submitResponse) = false) ->
  progressValues
    (fst (fetchEnrollmentDataWith server true maxAttempts request))
  = [0%Z].
Proof.
  destruct (Part001More.fetch_fails_fast_001 server true maxAttempts request)
    as [H1 H2].
  intros [[e He]|[sr [Hs Hj]]].
  - now rewrite (H1 e He).
  - now rewrite (H2 sr Hs Hj).
Qed.

End Values.
End Part001Progress.

Module Part002Progress.
Import Part002.

Section Values.
Context {NumOps : JsNumber}.
Variable server : Server.
Variable replies : nat -> JobStatusResponse.

Lemma progressValues_passes_002 (id : jsstring) (first k : nat) :
  progressValues (flat_map (pass true id replies) (seq first k))
  = map (fun n => shownProgress (replies n) n) (seq first k).
Proof.
  revert first. induction k as [|k IH]; intros first; [reflexivity|].
  cbn [seq flat_map map]. rewrite progressValues_app, IH. reflexivity.
Qed.

Lemma loop_stops_002 (id : jsstring) (remaining attempts : nat) :
  remaining = 0 \/ (exists e, pollJobStatus server (S attempts) = Rejected e) ->
  progressValues (fst (pollLoop server true id remaining attempts)) = [].
Proof.
  intros [->|[e He]]; [reflexivity|].
  destruct remaining as [|remaining]; [reflexivity|].
  simpl pollLoop. now rewrite He.
Qed.

Lemma loop_values_002 (id : jsstring) (maxAttempts reads : nat) :
  reads <= maxAttempts ->
  (forall n, 1 <= n <= reads ->
             pollJobStatus server n = Resolved (replies n)) ->
  (forall n, 1 <= n < reads -> isTerminal (status (replies n)) = false) ->
  (reads = 0 \/ isTerminal (status (replies reads)) = false ->
   reads = maxAttempts
   \/ exists e, pollJobStatus server (S reads) = Rejected e) ->
  progressValues (fst (pollLoop server true id maxAttempts 0))
  = map (fun n => shownProgress (replies n) n) (seq 1 reads)
      ++ match reads with
         | 0 => []
         | S _ => match status (replies reads) with
                  | completed => [100%Z]
                  | _ => []
                  end
         end.
Proof.
  intros Hle Hread Hgo Hend. destruct reads as [|b].
  - simpl. apply loop_stops_002.
    destruct (Hend (or_introl eq_refl)) as [E|E]; [left; lia|now right].
  - replace maxAttempts with (b + S (maxAttempts - S b)) by lia.
    rewrite (Part002Facts.pollLoop_passes_002 server true replies)
      by (intros n Hn; split; [apply Hread; lia|apply Hgo; lia]).
    rewrite progressValues_andThen, progressValues_passes_002.
    rewrite seq_S, map_app, <- app_assoc. f_equal.
    cbn [Nat.add map app]. simpl pollLoop.
    rewrite (Hread (S b)) by lia.
    rewrite progressValues_andThen, progressValues_read.
    cbn [notify progressValues flat_map app]. f_equal.
    destruct (status (replies (S b))) eqn:Es.
    + apply loop_stops_002.
      destruct (Hend (or_intror eq_refl)) as [E|E]; [left; lia|now right].
    + apply loop_stops_002.
      destruct (Hend (or_intror eq_refl)) as [E|E]; [left; lia|now right].
    + rewrite progressValues_andThen.
      now destruct (result (replies (S b))).
    + reflexivity.
Qed.

Lemma fetch_values_002 (maxAttempts reads : nat) (request : EnrollmentRequest)
      (submitResponse : JobSubmitResponse) :
  submitEnrollmentJob server request = Resolved submitResponse ->
  embedded submitResponse = None ->
  truthy (jobId submitResponse) = true ->
  reads <= maxAttempts ->
  (forall n, 1 <= n <= reads ->
             pollJobStatus server n = Resolved (replies n)) ->
  (forall n, 1 <= n < reads -> isTerminal (status (replies n)) = false) ->
  (reads = 0 \/ isTerminal (status (replies reads)) = false ->
   reads = maxAttempts
   \/ exists e, pollJobStatus server (S reads) = Rejected e) ->
  progressValues
    (fst (fetchEnrollmentDataWith server true maxAttempts request))
  = [0; 5]%Z
      ++ map (fun n => match progress (replies n) with
                       | Some p => p
                       | None => Z.min (10 + Z.of_nat n * 2) 90
                       end) (seq 1 reads)
      ++ match reads with
         | 0 => []
         | S _ => match status (replies reads) with
                  | completed => [100%Z]
                  | _ => []
                  end
         end.
Proof.
  intros Hs He Hj Hle Hread Hgo Hend.
  rewrite (Part002Facts.fetch_unfold_002 _ _ _ _ _ Hs He Hj).
  rewrite progressValues_logged, progressValues_andThen.
  rewrite (loop_values_002 _ _ reads Hle Hread Hgo Hend).
  reflexivity.
Qed.

Lemma fetch_values_unpolled_002 (maxAttempts : nat)
      (request : EnrollmentRequest) :
  (exists e, submitEnrollmentJob server request = Rejected e)
  \/ (exists submitResponse,
         submitEnrollmentJob server request = Resolved submitResponse
         /\ (embedded submitResponse <> None
             \/ truthy (jobId submitResponse) = false)) ->
  progressValues
    (fst (fetchEnrollmentDataWith server true maxAttempts request))
  = [0%Z].
Proof.
  destruct (Part002More.fetch_fails_fast_002 server true maxAttempts request)
    as [H1 H2].
  intros [[e He]|[sr [Hs Hj]]].
  - now rewrite (H1 e He).
  - destruct (embedded sr) as [r|] eqn:Er.
    + now rewrite (Part002More.fast_path_002 server true maxAttempts
                     request sr r Hs Er).
    + destruct Hj as [Hj|Hj]; [congruence|]. now rewrite (H2 sr Hs Er Hj).
Qed.

End Values.
End Part002Progress.

(** C7 (as amended): in either revision an execution of
    [fetchEnrollmentData] with a progress callback calls it with 0 before
    the submission and, when the submission is accepted with a job id,
    with 5 before the loop; then every pass of the loop whose status read
    returns calls it right after the read, with the progress the server
    reported, as it is (in part_001 with 10 in place of an absent or zero
    report, in part_002 with min(10 + 2 * attempts, 90) in place of an
    absent report), and a read that returns [completed] is followed by a
    call with 100.  These are all the calls.  The reported values are
    neither clamped nor kept from going down: the sequence of values
    never goes down and stays within 0 and 100 exactly when the values
    passed for the reads never go down, are 5 or more and 100 or less. *)
Theorem progress_callback_values {NumOps : JsNumber} {Host : JsHost} :
  (forall (server : Part001.Server)
          (replies : nat -> Part001.JobStatusResponse)
          (maxAttempts reads : nat) (request : EnrollmentRequest)
          (submitResponse : Part001.JobSubmitResponse),
      Part001.submitEnrollmentJob server request = Resolved submitResponse ->
      truthy (Part001.job_id submitResponse) = true ->
      reads <= maxAttempts ->
      (forall n, 1 <= n <= reads ->
                 Part001.pollJobStatus server n = Resolved (replies n)) ->
      (forall n, 1 <= n < reads ->
                 isTerminal (Part001.status (replies n)) = false) ->
      (reads = 0 \/ isTerminal (Part001.status (replies reads)) = false ->
       reads = maxAttempts
       \/ exists e, Part001.pollJobStatus server (S reads) = Rejected e) ->
      let shown :=
        map (fun n => match Part001.progress (replies n) with
                      | Some p => if Z.eqb p 0 then 10%Z else p
                      | None => 10%Z
                      end) (seq 1 reads) in
      let last :=
        match reads with
        | 0 => []
        | S _ => match Part001.status (replies reads) with
                 | completed => [100%Z]
                 | _ => []
                 end
        end in
      let values :=
        progressValues
          (fst (Part001.fetchEnrollmentDataWith server true maxAttempts
                  request)) in
      values = [0; 5]%Z ++ shown ++ last
      /\ (nonDecreasing values
          /\ Forall (fun p => (0 <= p <= 100)%Z) values
          <-> nonDecreasing (5%Z :: shown)
              /\ Forall (fun p => (p <= 100)%Z) shown))
  /\ (forall (server : Part001.Server) (maxAttempts : nat)
             (request : EnrollmentRequest),
         (exists e, Part001.submitEnrollmentJob server request = Rejected e)
         \/ (exists submitResponse,
                Part001.submitEnrollmentJob server request
                = Resolved submitResponse
                /\ truthy (Part001.job_id submitResponse) = false) ->
         progressValues
           (fst (Part001.fetchEnrollmentDataWith server true maxAttempts
                   request))
         = [0%Z])
  /\ (forall (server : Part001.Server) id remaining attempts r,
         Part001.pollJobStatus server (S attempts) = Resolved r ->
         exists rest,
           fst (Part001.pollLoop server true id (S remaining) attempts)
           = Sleep Part001.POLL_INTERVAL_MS :: StatusRead id
               :: OnProgress (Part001.shownProgress r)
                             (Part001.elapsedMessage (S attempts))
               :: rest)
  /\ (forall (server : Part002.Server)
             (replies : nat -> Part002.JobStatusResponse)
             (maxAttempts reads : nat) (request : EnrollmentRequest)
             (submitResponse : Part002.JobSubmitResponse),
         Part002.submitEnrollmentJob server request
         = Resolved submitResponse ->
         Part002.embedded submitResponse = None ->
         truthy (Part002.jobId submitResponse) = true ->
         reads <= maxAttempts ->
         (forall n, 1 <= n <= reads ->
                    Part002.pollJobStatus server n = Resolved (replies n)) ->
         (forall n, 1 <= n < reads ->
                    isTerminal (Part002.status (replies n)) = false) ->
         (reads = 0 \/ isTerminal (Part002.status (replies reads)) = false ->
          reads = maxAttempts
          \/ exists e, Part002.pollJobStatus server (S reads) = Rejected e) ->
         let shown :=
           map (fun n => match Part002.progress (replies n) with
                         | Some p => p
                         | None => Z.min (10 + Z.of_nat n * 2) 90
                         end) (seq 1 reads) in
         let last :=
           match reads with
           | 0 => []
           | S _ => match Part002.status (replies reads) with
                    | completed => [100%Z]
                    | _ => []
                    end
           end in
         let values :=
           progressValues
             (fst (Part002.fetchEnrollmentDataWith server true maxAttempts
                     request)) in
         values = [0; 5]%Z ++ shown ++ last
         /\ (nonDecreasing values
             /\ Forall (fun p => (0 <= p <= 100)%Z) values
             <-> nonDecreasing (5%Z :: shown)
                 /\ Forall (fun p => (p <= 100)%Z) shown))
  /\ (forall (server : Part002.Server) (maxAttempts : nat)
             (request : EnrollmentRequest),
         (exists e, Part002.submitEnrollmentJob server request = Rejected e)
         \/ (exists submitResponse,
                Part002.submitEnrollmentJob server request
                = Resolved submitResponse
                /\ (Part002.embedded submitResponse <> None
                    \/ truthy (Part002.jobId submitResponse) = false)) ->
         progressValues
           (fst (Part002.fetchEnrollmentDataWith server true maxAttempts
                   request))
         = [0%Z])
  /\ (forall (server : Part002.Server) id remaining attempts r,
         Part002.pollJobStatus server (S attempts) = Resolved r ->
         exists rest,
           fst (Part002.pollLoop server true id (S remaining) attempts)
           = Sleep Part002.POLL_INTERVAL_MS :: StatusRead id
               :: OnProgress (Part002.shownProgress r (S attempts))
                             (orElse (Part002.message r)
                                (Part002.elapsedMessage (S attempts)))
               :: rest).
Proof.
  assert (Hlast : forall (reads : nat) (done : bool),
             (match reads with
              | 0 => []
              | S _ => if done then [100%Z] else []
              end) = [] \/
             (match reads with
              | 0 => []
              | S _ => if done then [100%Z] else []
              end) = [100%Z]).
  { intros [|n] [|]; auto. }
  split; [|split; [|split; [|split; [|split]]]].
  - intros server replies maxAttempts reads request submitResponse
           Hs Hj Hle Hread Hgo Hend shown last values.
    assert (E : values = [0; 5]%Z ++ shown ++ last)
      by (apply (Part001Progress.fetch_values_001 server replies maxAttempts
                   reads request submitResponse); assumption).
    split; [exact E|]. rewrite E. apply steady_values.
    unfold last. destruct reads as [|b]; [now left|].
    destruct (Part001.status (replies (S b))); auto.
  - intros server maxAttempts request.
    apply Part001Progress.fetch_values_unpolled_001.
  - intros server id remaining attempts r.
    apply Part001Facts.pass_notifies_001.
  - intros server replies maxAttempts reads request submitResponse
           Hs He Hj Hle Hread Hgo Hend shown last values.
    assert (E : values = [0; 5]%Z ++ shown ++ last)
      by (apply (Part002Progress.fetch_values_002 server replies maxAttempts
                   reads request submitResponse); assumption).
    split; [exact E|]. rewrite E. apply steady_values.
    unfold last. destruct reads as [|b]; [now left|].
    destruct (Part002.status (replies (S b))); auto.
  - intros server maxAttempts request.
    apply Part002Progress.fetch_values_unpolled_002.
  - intros server id remaining attempts r.
    apply Part002Facts.pass_notifies_002.
Qed.

(** ** The properties at concrete inputs *)

Lemma handleDownload_roundtrip_witness :
  exists csv,
    handleDownload (NumOps := IntNumber.ops) (Host := V8.host)
      [sampleRecord1; sampleRecord2]
    = Some csv
    /\ csv = recordsToCSV (Host := V8.host)
               (map csvRecord [sampleRecord1; sampleRecord2])
    /\ parseCSVToRecords (Host := V8.host) csv
       = map toObject [sampleRecord1; sampleRecord2].
Proof.
  destruct (handleDownload_roundtrip (NumOps := IntNumber.ops)
              (Host := V8.host)) as [_ H].
  apply H; [discriminate|repeat constructor].
Defined.

Lemma parseCSVToRecords_without_rows_witness :
  parseCSVToRecords
      (NumOps := IntNumber.ops) (Host := V8.host) (lit "Term,Subject,Course")
  = [].
Proof.
  apply (parseCSVToRecords_without_rows
      (NumOps := IntNumber.ops) (Host := V8.host)).
  reflexivity.
Defined.

Lemma parseCSVToRecords_ignores_surroundings_witness :
  parseCSVToRecords (NumOps := IntNumber.ops) (Host := V8.host)
    ([LF; 32%N] ++ twoRows ++ [13%N; LF])
  = parseCSVToRecords (NumOps := IntNumber.ops) (Host := V8.host) twoRows.
Proof.
  apply (parseCSVToRecords_ignores_surroundings
      (NumOps := IntNumber.ops) (Host := V8.host));
    reflexivity.
Defined.

Lemma parseCSVToRecords_skips_blank_lines_witness :
  parseCSVToRecords (NumOps := IntNumber.ops) (Host := V8.host) twoRowsWithGap
  = parseCSVToRecords (NumOps := IntNumber.ops) (Host := V8.host) twoRows.
Proof.
  apply (parseCSVToRecords_skips_blank_lines
      (NumOps := IntNumber.ops) (Host := V8.host)
           twoRowsWithGap twoRows (lit "a,b") [lit "1,2"] [lit "3,4"]);
    reflexivity.
Defined.

Lemma parseCSVToRecords_record_shape_witness :
  NoDup (keys (NumOps := IntNumber.ops)
           [(lit "term", VString (lit "Fall"));
            (lit "loss", VNumber (IntNumber.int 1))])
  /\ Forall (fun kv => isDefined (snd kv) = true)
            [(lit "term", @VString IntNumber.ops (lit "Fall"));
             (lit "loss", VNumber (IntNumber.int 1))].
Proof.
  destruct (parseCSVToRecords_record_shape
              (NumOps := IntNumber.ops) (Host := V8.host)
              shortCsv (lit "Term,Loss") [lit "Fall,1"]
              [(lit "term", VString (lit "Fall"));
               (lit "loss", VNumber (IntNumber.int 1))]
              eq_refl (or_introl eq_refl))
    as [H1 [_ [H3 _]]].
  split; [exact H1|exact H3].
Defined.

Lemma parseCSVLine_unquoted_witness :
  parseCSVLine (lit "CS,1332,,A") = split COMMA (lit "CS,1332,,A").
Proof. apply parseCSVLine_unquoted. reflexivity. Defined.

Lemma csvRow_reads_back_witness :
  parseCSVLine
    (csvRow (NumOps := IntNumber.ops) (Host := V8.host)
       [lit "building"; lit "primaryInstructors"; lit "loss"]
       (toObject sampleRecord1))
  = [lit "Klaus, Advanced Computing"; primaryInstructors sampleRecord1; []].
Proof.
  destruct (csvRow_reads_back (NumOps := IntNumber.ops) (Host := V8.host)
              [lit "building"; lit "primaryInstructors"; lit "loss"]
              (toObject sampleRecord1)) as [H _].
  - intros h [<-|[<-|[<-|[]]]]; reflexivity.
  - exact H.
Defined.

Lemma fetch_inline_csv_witness :
  snd (Part001.fetchEnrollmentData (NumOps := IntNumber.ops) (Host := V8.host)
         (server001 erraticReplies001) true sampleRequest)
  = Resolved {| success := true;
                data := parseCSVToRecords (Host := V8.host) sampleCsv;
                fileName := lit "enrollment_data.csv";
                message := Some (lit "Data retrieved successfully") |}.
Proof.
  unfold Part001.fetchEnrollmentData.
  change Part001.MAX_POLL_ATTEMPTS with 150.
  rewrite (Part001More.fetch_inline_csv_001
      (NumOps := IntNumber.ops) (Host := V8.host)
             (server001 erraticReplies001) true erraticReplies001
             150 2 sampleRequest
             {| Part001.job_id := Some (lit "job-1") |} sampleCsv
             eq_refl eq_refl ltac:(lia)).
  - reflexivity.
  - intros n Hn. assert (n = 1 \/ n = 2) as [->| ->] by lia;
      split; reflexivity.
  - reflexivity.
  - reflexivity.
  - reflexivity.
  - discriminate.
Defined.

Lemma fetch_download_witness :
  snd (Part001.fetchEnrollmentData (NumOps := IntNumber.ops) (Host := V8.host)
         downloadServer001 true sampleRequest)
  = Resolved {| success := true;
                data := parseCSVToRecords (Host := V8.host) sampleCsv;
                fileName := lit "enrollment_data.csv";
                message := Some (lit "Data downloaded successfully") |}.
Proof.
  unfold Part001.fetchEnrollmentData.
  change Part001.MAX_POLL_ATTEMPTS with 150.
  rewrite (Part001More.fetch_download_001
      (NumOps := IntNumber.ops) (Host := V8.host)
             downloadServer001 true (fun _ => linkReply001)
             150 0 sampleRequest
             {| Part001.job_id := Some (lit "job-1") |}
             (lit "https://files.example/result.csv")
             eq_refl eq_refl ltac:(lia)).
  - reflexivity.
  - intros n Hn. lia.
  - reflexivity.
  - reflexivity.
  - reflexivity.
  - reflexivity.
  - discriminate.
Defined.

Lemma fetch_completed_without_data_witness :
  snd (Part001.fetchEnrollmentData (NumOps := IntNumber.ops) (Host := V8.host)
         (server001 emptyReplies001) true sampleRequest)
  = Rejected (lit "Job completed but no data returned").
Proof.
  unfold Part001.fetchEnrollmentData.
  change Part001.MAX_POLL_ATTEMPTS with 150.
  rewrite (Part001More.fetch_completed_without_data_001
             (NumOps := IntNumber.ops) (Host := V8.host)
             (server001 emptyReplies001) true emptyReplies001
             150 0 sampleRequest
             {| Part001.job_id := Some (lit "job-1") |}
             eq_refl eq_refl ltac:(lia)).
  - reflexivity.
  - intros n Hn. lia.
  - reflexivity.
  - reflexivity.
  - reflexivity.
  - reflexivity.
Defined.

Lemma fetch_completed_002_witness :
  snd (Part002.fetchEnrollmentData (NumOps := IntNumber.ops)
         (server002 doneReplies002) true sampleRequest)
  = Resolved sampleResponse.
Proof.
  unfold Part002.fetchEnrollmentData.
  change Part002.MAX_POLL_ATTEMPTS with 150.
  rewrite (Part002More.fetch_completed_002 (NumOps := IntNumber.ops)
             (server002 doneReplies002) true doneReplies002
             150 0 sampleRequest accepted002
             eq_refl eq_refl eq_refl ltac:(lia)).
  - reflexivity.
  - intros n Hn. lia.
  - reflexivity.
  - reflexivity.
Defined.

Lemma fetch_fast_path_002_witness :
  Part002.fetchEnrollmentData (NumOps := IntNumber.ops)
    promptServer002 true sampleRequest
  = ([OnProgress 0 (lit "Submitting request..."); SubmitJob],
     Resolved sampleResponse).
Proof.
  exact (Part002More.fetch_fast_path_002 (NumOps := IntNumber.ops)
           promptServer002 true 150 sampleRequest
           {| Part002.jobId := None; Part002.embedded := Some sampleResponse |}
           sampleResponse eq_refl eq_refl).
Defined.

Lemma fetchEnrollmentData_fails_fast_witness :
  Part001.fetchEnrollmentData (NumOps := IntNumber.ops) (Host := V8.host)
    refusingServer001 true sampleRequest
  = ([OnProgress 0 (lit "Submitting request..."); SubmitJob;
      ConsoleError (lit "HTTP error! status: 500")],
     Rejected (lit "HTTP error! status: 500"))
  /\ Part001.fetchEnrollmentData (NumOps := IntNumber.ops) (Host := V8.host)
       mutedServer001 true sampleRequest
     = ([OnProgress 0 (lit "Submitting request..."); SubmitJob;
         ConsoleError (lit "No job ID returned from server")],
        Rejected (lit "No job ID returned from server"))
  /\ Part002.fetchEnrollmentData (NumOps := IntNumber.ops)
       refusingServer002 true sampleRequest
     = ([OnProgress 0 (lit "Submitting request..."); SubmitJob;
         ConsoleError (lit "HTTP error! status: 500")],
        Rejected (lit "HTTP error! status: 500"))
  /\ Part002.fetchEnrollmentData (NumOps := IntNumber.ops)
       mutedServer002 true sampleRequest
     = ([OnProgress 0 (lit "Submitting request..."); SubmitJob;
         ConsoleError (lit "No job ID returned from server")],
        Rejected (lit "No job ID returned from server")).
Proof.
  destruct (fetchEnrollmentData_fails_fast (NumOps := IntNumber.ops)
              (Host := V8.host))
    as [H001 H002].
  split; [|split; [|split]].
  - destruct (H001 refusingServer001 true 150 sampleRequest) as [H _].
    exact (H (lit "HTTP error! status: 500") eq_refl).
  - destruct (H001 mutedServer001 true 150 sampleRequest) as [_ H].
    exact (H {| Part001.job_id := None |} eq_refl eq_refl).
  - destruct (H002 refusingServer002 true 150 sampleRequest) as [H _].
    exact (H (lit "HTTP error! status: 500") eq_refl).
  - destruct (H002 mutedServer002 true 150 sampleRequest) as [_ H].
    exact (H {| Part002.jobId := None; Part002.embedded := None |}
             eq_refl eq_refl eq_refl).
Defined.

Lemma fetchEnrollmentData_read_error_witness :
  snd (Part001.fetchEnrollmentData (NumOps := IntNumber.ops) (Host := V8.host)
         flakyServer001 true sampleRequest)
  = Rejected (lit "HTTP error! status: 502")
  /\ snd (Part002.fetchEnrollmentData (NumOps := IntNumber.ops)
            flakyServer002 true sampleRequest)
     = Rejected (lit "HTTP error! status: 502").
Proof.
  destruct (fetchEnrollmentData_read_error
      (NumOps := IntNumber.ops) (Host := V8.host))
    as [H001 H002].
  split.
  - unfold Part001.fetchEnrollmentData.
    change Part001.MAX_POLL_ATTEMPTS with 150.
    rewrite (H001 flakyServer001 true failingReplies001 150 1 sampleRequest
               {| Part001.job_id := Some (lit "job-1") |}
               (lit "HTTP error! status: 502")
               eq_refl eq_refl ltac:(lia)).
    + reflexivity.
    + intros n Hn. assert (n = 1) as -> by lia. split; reflexivity.
    + reflexivity.
  - unfold Part002.fetchEnrollmentData.
    change Part002.MAX_POLL_ATTEMPTS with 150.
    rewrite (H002 flakyServer002 true failingReplies002 150 1 sampleRequest
               accepted002 (lit "HTTP error! status: 502")
               eq_refl eq_refl eq_refl ltac:(lia)).
    + reflexivity.
    + intros n Hn. assert (n = 1) as -> by lia. split; reflexivity.
    + reflexivity.
Defined.

Lemma progress_stays_in_range_witness :
  MathNumber.inRange (Store.progress (Store.status (Store.after someCalls))).
Proof.
  destruct (StoreFacts.progress_stays_in_range (NumOps := IntNumber.ops)
              someCalls) as [_ [H _]].
  apply H. repeat constructor.
Defined.

Lemma never_loading_with_error_witness :
  Store.error (Store.status (Store.after someCalls)) = None.
Proof.
  apply (StoreFacts.never_loading_with_error (NumOps := IntNumber.ops)).
  reflexivity.
Defined.

Lemma pages_partition_witness :
  ResultsTable.paginatedRecords (seq 0 60) 4 = [].
Proof.
  destruct (ResultsTableFacts.pages_partition nat (seq 0 60)) as [_ [_ H]].
  apply H. reflexivity.
Defined.

Lemma navigation_stays_on_a_page_witness :
  ResultsTable.paginatedRecords (seq 0 60)
    (ResultsTable.pageAfter (length (seq 0 60))
       [ResultsTable.Next; ResultsTable.Next; ResultsTable.Next;
        ResultsTable.Next; ResultsTable.Previous])
  <> [].
Proof.
  destruct (ResultsTableFacts.navigation_stays_on_a_page nat (seq 0 60)
              [ResultsTable.Next; ResultsTable.Next; ResultsTable.Next;
               ResultsTable.Next; ResultsTable.Previous]) as [_ H].
  apply H. discriminate.
Defined.

Lemma parseCourseRanges_formatted_witness :
  EnrollmentForm.parseCourseRanges
    (join (lit ", ")
          (map EnrollmentForm.formatRange [(1000, 2999); (4000, 4999)]))
  = map EnrollmentForm.rangeOf [(1000, 2999); (4000, 4999)].
Proof.
  apply EnrollmentFormFacts.parseCourseRanges_formatted.
  - discriminate.
  - repeat constructor; simpl; lia.
Defined.

Lemma parseCourseRanges_never_empty_witness :
  EnrollmentForm.parseCourseRanges (lit "   ")
  = [{| lower := 0; upper := 99999 |}]
  /\ EnrollmentForm.parseCourseRanges (lit "CS 1332, 4000")
     = [{| lower := 0; upper := 99999 |}].
Proof.
  split.
  - destruct (EnrollmentFormFacts.parseCourseRanges_never_empty (lit "   "))
      as [_ [_ [H _]]].
    apply H. reflexivity.
  - destruct (EnrollmentFormFacts.parseCourseRanges_never_empty
                (lit "CS 1332, 4000")) as [_ [_ [_ [H _]]]].
    apply H. simpl. intuition discriminate.
Defined.

Lemma parseTermName_names_witness :
  parseTermName (lit "2025" ++ [digit 0; digit 2])
  = (if Nat.ltb (10 * 0 + 2) 5 then lit "Spring"
     else if Nat.ltb (10 * 0 + 2) 8 then lit "Summer"
     else lit "Fall") ++ lit " " ++ lit "2025"
  /\ parseTermName (lit "2025") = lit "Fall " ++ lit "2025".
Proof.
  destruct parseTermName_names as [H1 H2].
  split.
  - apply H1; [reflexivity|lia|lia].
  - apply H2. simpl. lia.
Defined.

Lemma queues_are_distinct_witness :
  Infra.queueName
    (Infra.processingQueue
       (Infra.newEnrollmentStack {| Infra.environment := lit "prod" |}))
  <> lit "gatech-enrollment-dlq-prod".
Proof.
  destruct (queues_are_distinct {| Infra.environment := lit "prod" |}
              {| Infra.queue :=
                   {| Infra.queueName := lit "gatech-enrollment-dlq-prod";
                      Infra.visibilityTimeout := None;
                      Infra.retentionPeriod := Infra.days 14;
                      Infra.deadLetterQueue := None;
                      Infra.receiveMessageWaitTime := None |};
                 Infra.maxReceiveCount := 3 |} eq_refl) as [H _].
  intros E. apply H. symmetry. exact E.
Defined.

(** ** The subjects and the body of a submission *)

Module SubmissionFacts.
Import EnrollmentForm.

Lemma splitRuns_from_pieces (s : jsstring) (b : bool) :
  Forall (fun p => forallb (fun c => negb (isSeparator c)) p = true)
         (splitRuns_from s b).
Proof.
  revert b. induction s as [|c r IH]; intros b; simpl.
  - constructor; [reflexivity|constructor].
  - destruct (isSeparator c) eqn:E.
    + destruct b; [apply IH|]. constructor; [reflexivity|apply IH].
    + specialize (IH false).
      destruct (splitRuns_from r false) as [|h t].
      * constructor; [simpl; now rewrite E|constructor].
      * inversion IH as [|? ? Hh Ht]; subst.
        constructor; [simpl; now rewrite E, Hh|exact Ht].
Qed.

Lemma trim_piece (p : jsstring) :
  forallb (fun c => negb (isSeparator c)) p = true -> trim p = p.
Proof.
  intros H. destruct p as [|c p]; [reflexivity|].
  apply trim_trimmed.
  apply (EnrollmentFormFacts.word_not_blank (c :: p)).
  split; [discriminate|exact H].
Qed.

(** Whatever [toUpperCase] does, every subject [parseSubjects] returns is
    non-empty and holds no comma and no white space; a blank input gives
    no subject at all. *)
Theorem parseSubjects_words (toUpperCase : jsstring -> jsstring)
        (subjectInput : jsstring) :
  Forall isWord (parseSubjects toUpperCase subjectInput)
  /\ (isEmpty (trim subjectInput) = true ->
      parseSubjects toUpperCase subjectInput = []).
Proof.
  unfold parseSubjects.
  destruct (isEmpty (trim subjectInput)).
  - split; [constructor|reflexivity].
  - split; [|discriminate].
    apply Forall_forall. intros s Hs.
    apply filter_In in Hs as [Hin Hlen].
    apply in_map_iff in Hin as [p [<- Hp]].
    pose proof (splitRuns_from_pieces (toUpperCase subjectInput) false) as H.
    rewrite Forall_forall in H. specialize (H p Hp).
    rewrite (trim_piece p H) in *. split; [|exact H].
    destruct p; [discriminate|discriminate].
Qed.

Lemma parseCourseRanges_bounds (courseRangeInput : jsstring) :
  Forall (fun r => (0 <= lower r)%Z /\ (0 <= upper r)%Z)
         (parseCourseRanges courseRangeInput).
Proof.
  unfold parseCourseRanges.
  assert (D : Forall (fun r => (0 <= lower r)%Z /\ (0 <= upper r)%Z)
                     [defaultRange])
    by (constructor; [simpl; lia|constructor]).
  destruct (isEmpty (trim courseRangeInput)); [exact D|]. cbv zeta.
  pose proof (EnrollmentFormFacts.rangesOf_nonneg
                (filter (fun p => negb (isEmpty (trim p)))
                        (splitRuns courseRangeInput)) []
                (Forall_nil _)) as H.
  destruct (rangesOf _ []); [exact D|exact H].
Qed.

(** Every request the form emits is sent with a body that asks for 1 to
    20 terms, has at least one range, each a pair of non-negative bounds
    taken in order from the parsed ranges, asks for at least one of the
    two outputs (both exactly for the grouping [both]), and includes the
    summer terms exactly when the form does not skip them. *)
Theorem submitted_body (toUpperCase : jsstring -> jsstring) (f : Form)
        (request : EnrollmentRequest) :
  snd (handleSubmit toUpperCase f) = Some request ->
  let body := SubmitBody.requestBody request in
  (1 <= SubmitBody.nterms body <= 20)%Z
  /\ SubmitBody.ranges body <> []
  /\ SubmitBody.ranges body
     = map (fun r => (lower r, upper r))
           (parseCourseRanges (courseRangeInput f))
  /\ Forall (fun p => (0 <= fst p)%Z /\ (0 <= snd p)%Z)
            (SubmitBody.ranges body)
  /\ SubmitBody.save_all body || SubmitBody.save_grouped body = true
  /\ (SubmitBody.save_all body && SubmitBody.save_grouped body = true
      <-> formGroupData f = group_both)
  /\ SubmitBody.include_summer body = negb (formSkipSummer f).
Proof.
  unfold handleSubmit, validateNumTerms, isValid.
  destruct (Z.ltb_spec (formNumTerms f) 1) as [H1|H1]; simpl;
    [discriminate|].
  destruct (Z.ltb_spec 20 (formNumTerms f)) as [H2|H2]; simpl;
    [discriminate|].
  destruct (Z.leb_spec 1 (formNumTerms f)) as [H3|H3]; simpl;
    [|discriminate].
  intros E. injection E as <-. unfold SubmitBody.requestBody. simpl.
  pose proof (parseCourseRanges_bounds (courseRangeInput f)) as Hb.
  pose proof (EnrollmentFormFacts.parseCourseRanges_not_nil
                (courseRangeInput f)) as Hn.
  split; [lia|]. split.
  { destruct (parseCourseRanges (courseRangeInput f));
      [congruence|discriminate]. }
  split; [reflexivity|]. split.
  { apply Forall_map. eapply Forall_impl; [|exact Hb]. intros r H. exact H. }
  split; [now destruct (formGroupData f)|]. split; [|reflexivity].
  destruct (formGroupData f); simpl; split; congruence.
Qed.

End SubmissionFacts.

Lemma parseSubjects_words_witness :
  EnrollmentForm.parseSubjects (fun s => s) (lit "  ") = [].
Proof.
  destruct (SubmissionFacts.parseSubjects_words (fun s => s) (lit "  "))
    as [_ H].
  apply H. reflexivity.
Defined.

Lemma submitted_body_witness :
  SubmitBody.ranges
    (SubmitBody.requestBody
       {| numTerms := 3;
          subjects := [lit "CS"];
          courseRanges := EnrollmentForm.parseCourseRanges (lit "1000-2999");
          skipSummer := true;
          oneFile := false;
          groupData := group_both |})
  <> [].
Proof.
  destruct (SubmissionFacts.submitted_body (fun s => s)
              {| EnrollmentForm.formNumTerms := 3;
                 EnrollmentForm.subjectInput := lit "CS";
                 EnrollmentForm.courseRangeInput := lit "1000-2999";
                 EnrollmentForm.formSkipSummer := true;
                 EnrollmentForm.formOneFile := false;
                 EnrollmentForm.formGroupData := group_both;
                 EnrollmentForm.errors := None |}
              {| numTerms := 3;
                 subjects := [lit "CS"];
                 courseRanges :=
                   EnrollmentForm.parseCourseRanges (lit "1000-2999");
                 skipSummer := true;
                 oneFile := false;
                 groupData := group_both |}
              eq_refl) as [_ [H _]].
  exact H.
Defined.

Lemma progress_callback_values_witness :
  progressValues
    (fst (Part001.fetchEnrollmentDataWith (NumOps := IntNumber.ops)
            (Host := V8.host)
            (server001 climbingReplies001) true 3 sampleRequest))
  = [0; 5; 11; 12; 13]%Z
  /\ nonDecreasing
       (progressValues
          (fst (Part001.fetchEnrollmentDataWith (NumOps := IntNumber.ops)
                  (Host := V8.host)
                  (server001 climbingReplies001) true 3 sampleRequest)))
  /\ progressValues
       (fst (Part002.fetchEnrollmentDataWith (NumOps := IntNumber.ops)
               (server002 doneReplies002) true 150 sampleRequest))
     = [0; 5; 100; 100]%Z.
Proof.
  destruct (progress_callback_values (NumOps := IntNumber.ops)
              (Host := V8.host))
    as [H001 [_ [_ [H002 _]]]].
  destruct (H001 (server001 climbingReplies001) climbingReplies001 3 3
                 sampleRequest {| Part001.job_id := Some (lit "job-1") |}
                 eq_refl eq_refl ltac:(lia)
                 (fun n _ => eq_refl) (fun n _ => eq_refl)
                 (fun _ => or_introl eq_refl))
    as [E1 [_ S1]].
  destruct (H002 (server002 doneReplies002) doneReplies002 150 1
                 sampleRequest accepted002
                 eq_refl eq_refl eq_refl ltac:(lia)
                 (fun n _ => eq_refl) ltac:(intros n Hn; lia)
                 ltac:(intros [H|H]; discriminate H))
    as [E2 _].
  split; [exact E1|]. split; [|exact E2].
  apply S1. split; [simpl; lia|].
  simpl. repeat (apply Forall_cons; [lia|]). apply Forall_nil.
Defined.

(** C7 (as stated) fails: with reports of 50, 30 and 150 the callback
    receives 0, 5, 50, 30, 150, 100, which goes down and leaves the range. *)
Lemma progress_callback_follows_reports :
  let values :=
    progressValues
      (fst (Part001.fetchEnrollmentData (NumOps := IntNumber.ops)
              (Host := V8.host)
              (server001 erraticReplies001) true sampleRequest)) in
  values = [0; 5; 50; 30; 150; 100]%Z
  /\ ~ nonDecreasing values
  /\ ~ Forall (fun p => (0 <= p <= 100)%Z) values.
Proof.
  assert (E : progressValues
                (fst (Part001.fetchEnrollmentData (NumOps := IntNumber.ops)
                        (Host := V8.host)
                        (server001 erraticReplies001) true sampleRequest))
              = [0; 5; 50; 30; 150; 100]%Z) by (vm_compute; reflexivity).
  cbv zeta. rewrite E. split; [reflexivity|]. split.
  - simpl. lia.
  - intros H.
    repeat match goal with
           | H : Forall _ (_ :: _) |- _ =>
               apply Forall_cons_iff in H; destruct H
           end; lia.
Qed.
